(** * MedPredict: data preparation and evaluation pipeline

    A shallow embedding of the data-preparation code of the appointment
    no-show demo (functions.js, lstm.js, lstm.worker.js) together with the
    properties its specification states about it.

    Numbers.  A JavaScript number is an IEEE-754 double.  Every finite
    double is a rational, so finite numbers are values of [Q]; the rounding
    performed by an arithmetic operation is the function [Double.fl], and
    every operation of the program is embedded with its rounding.  Where
    the specification states a formula over exact numbers, that formula has
    a definition of its own, named after it, to compare the code with. *)

From Stdlib Require Import ZArith NArith QArith Qround Qabs Lia Lqa Bool.
From Stdlib Require Import Ascii String DecimalString DecimalPos Sorted.
From stdpp Require Import base numbers list.

Local Open Scope Z_scope.

(** ** Double-precision rounding *)

Module Double.

(** [shift2 a b t] is the fraction [a/b * 2^t], kept as a pair of integers. *)
Definition shift2 (a b t : Z) : Z * Z :=
  (a * 2 ^ Z.max t 0, b * 2 ^ Z.max (- t) 0).

(** Nearest integer to [N/D], ties to the even one. *)
Definition nearestEven (N D : Z) : Z :=
  let q := N / D in
  let r := N mod D in
  if (D <? 2 * r) || ((D =? 2 * r) && Z.odd q) then q + 1 else q.

(** The scaling [t] that brings [a/b] into the significand range
    [2^52 <= a/b * 2^t < 2^53]. *)
Definition exponent (a b : Z) : Z :=
  let t0 := 52 - (Z.log2 a - Z.log2 b) in
  let '(N, D) := shift2 a b t0 in
  if D * 2 ^ 52 <=? N then t0 else t0 + 1.

(** The double nearest to the positive rational [a/b] (53-bit significand,
    round to nearest, ties to even).  The exponent range is not modelled:
    the magnitudes this program computes with lie between 2^-64 and 2^64. *)
Definition roundPos (a b : Z) : Q :=
  let t := exponent a b in
  let '(N, D) := shift2 a b t in
  Qmake (nearestEven N D * 2 ^ Z.max (- t) 0) (Z.to_pos (2 ^ Z.max t 0)).

Definition fl (x : Q) : Q :=
  let y := Qred x in
  match Qnum y with
  | Z0 => 0%Q
  | Zpos a => Qred (roundPos (Zpos a) (Zpos (Qden y)))
  | Zneg a => Qred (Qopp (roundPos (Zpos a) (Zpos (Qden y))))
  end.

(** The unit roundoff [2^-53]. *)
Definition u : Q := Qmake 1 (2 ^ 53).

End Double.

(** ** JavaScript numbers that may be non-finite *)

Module JsNumber.

Inductive num : Type :=
| NaN
| PosInf
| NegInf
| Fin (q : Q).

(** [x / y] on finite operands.  A zero divisor is the positive zero here:
    the divisors of this program are array lengths and sums of counters. *)
Definition div (x y : Q) : num :=
  if Qeq_bool y 0 then
    if Qeq_bool x 0 then NaN
    else if Qle_bool 0 x then PosInf else NegInf
  else Fin (Double.fl (x / y)).

(** [x * y] with a finite right operand. *)
Definition mul (x : num) (y : Q) : num :=
  match x with
  | NaN => NaN
  | PosInf =>
      if Qeq_bool y 0 then NaN else if Qle_bool 0 y then PosInf else NegInf
  | NegInf =>
      if Qeq_bool y 0 then NaN else if Qle_bool 0 y then NegInf else PosInf
  | Fin q => Fin (Double.fl (q * y))
  end.

End JsNumber.

(** ** JavaScript strings *)

Module JsString.

(** A string is a sequence of UTF-16 code units. *)
Definition jsstring : Type := list N.

Definition lit (s : string) : jsstring :=
  List.map N_of_ascii (list_ascii_of_string s).

Definition eqb (a b : jsstring) : bool := bool_decide (a = b).

(** The class [\s] of a regular expression and the characters removed by
    [trim]: ECMAScript's WhiteSpace and LineTerminator code points. *)
Definition isWhite (c : N) : bool :=
  ((9 <=? c) && (c <=? 13) || (c =? 32) || (c =? 160) || (c =? 5760)
   || (8192 <=? c) && (c <=? 8202) || (c =? 8232) || (c =? 8233)
   || (c =? 8239) || (c =? 8287) || (c =? 12288) || (c =? 65279))%N.

(** The class [a-z0-9]. *)
Definition isLowerAlnum (c : N) : bool :=
  ((97 <=? c) && (c <=? 122) || (48 <=? c) && (c <=? 57))%N.

Definition lowerAscii (c : N) : N :=
  if ((65 <=? c) && (c <=? 90))%N then (c + 32)%N else c.

(** [toLowerCase].  Code units below 128 follow the ASCII rule.  The image
    of any other code unit is fixed by the Unicode case tables, which are
    not part of the program: it is the parameter [lowerOther], given the
    text before and after the unit (final sigma, surrogate pairs). *)
Fixpoint lowerFrom (lowerOther : jsstring -> N -> jsstring -> jsstring)
    (before s : jsstring) : jsstring :=
  match s with
  | [] => []
  | c :: rest =>
      (if (c <? 128)%N then [lowerAscii c] else lowerOther before c rest)
      ++ lowerFrom lowerOther (before ++ [c]) rest
  end.

Definition toLowerCase (lowerOther : jsstring -> N -> jsstring -> jsstring)
    (s : jsstring) : jsstring :=
  lowerFrom lowerOther [] s.

Fixpoint trimStart (s : jsstring) : jsstring :=
  match s with
  | [] => []
  | c :: rest => if isWhite c then trimStart rest else s
  end.

Definition trimEnd (s : jsstring) : jsstring := List.rev (trimStart (List.rev s)).

Definition trim (s : jsstring) : jsstring := trimEnd (trimStart s).

Fixpoint startsWith (s p : jsstring) : bool :=
  match p, s with
  | [], _ => true
  | _ :: _, [] => false
  | x :: p', y :: s' => (x =? y)%N && startsWith s' p'
  end.

Fixpoint join (sep : jsstring) (parts : list jsstring) : jsstring :=
  match parts with
  | [] => []
  | [p] => p
  | p :: rest => p ++ sep ++ join sep rest
  end.

(** Decimal rendering of an integer, as [String()], template literals and
    [toFixed] give it for a number below 10^21 in magnitude.  From 10^21 on
    JavaScript prints an exponent, which this function does not follow:
    what is stated of the text of a number is stated for numbers below
    that bound. *)
Definition ofInt (z : Z) : jsstring := lit (NilZero.string_of_int (Z.to_int z)).

(** [x.toFixed(1)] for a finite [x] below 10^21: the integer [n] nearest to
    [10 * x], the larger one on a tie, printed with one decimal. *)
Definition fixed1 (x : Q) : jsstring :=
  let a := if Qle_bool 0 x then x else Qopp x in
  let n := Qfloor (a * 10 + (1 # 2)) in
  (if Qle_bool 0 x then [] else lit "-")
  ++ ofInt (n / 10) ++ lit "." ++ ofInt (n mod 10).

Definition toFixed1 (x : JsNumber.num) : jsstring :=
  match x with
  | JsNumber.NaN => lit "NaN"
  | JsNumber.PosInf => lit "Infinity"
  | JsNumber.NegInf => lit "-Infinity"
  | JsNumber.Fin q => fixed1 q
  end.

End JsString.

(** ** Records of the dataset *)

Module Data.

(** One appointment of RAW_DATA.  The fields are the integers of the
    dataset; [neighbourhood] is a string. *)
Record PatientRecord : Type := mkRecord {
  age : Z;
  days_wait : Z;
  gender : Z;
  sms_received : Z;
  scholarship : Z;
  hipertension : Z;
  diabetes : Z;
  alcoholism : Z;
  neighbourhood : JsString.jsstring;
  noshow : Z
}.

End Data.

(** ** Math.random *)

Module Random.

(** The k-th call of [Math.random()] in a run returns [rnd k]; the state
    threaded through the code is the number of calls made so far. *)
Definition source : Type := nat -> Q.

(** [Math.random()] returns a double in [0,1); the largest one is
    [1 - 2^-53]. *)
Definition inRange (rnd : source) : Prop :=
  forall k, (0 <= rnd k /\ rnd k <= 1 - Double.u)%Q.

(** [Math.floor(Math.random() * (i + 1))] *)
Definition randomIndex (r : Q) (i : nat) : nat :=
  Z.to_nat (Qfloor (Double.fl (r * inject_Z (Z.of_nat i + 1)))).

(** [[a[i], a[j]] = [a[j], a[i]]].  Both indices are inside the array when
    the draw is in range; otherwise JavaScript would read [undefined] and
    extend the array, which [Math.random] excludes: the array is then left
    as it is. *)
Definition swap {A : Type} (a : list A) (i j : nat) : list A :=
  match a !! i, a !! j with
  | Some x, Some y => <[j := x]> (<[i := y]> a)
  | _, _ => a
  end.

(** [for (let i = n; i > 0; i--) { j = ...; swap }], from call [k] on. *)
Fixpoint shuffleFrom {A : Type} (rnd : source) (i k : nat) (a : list A)
    : list A * nat :=
  match i with
  | O => (a, k)
  | S i' => shuffleFrom rnd i' (S k) (swap a i (randomIndex (rnd k) i))
  end.

(** The Fisher-Yates loop, starting at [i = a.length - 1]. *)
Definition shuffle {A : Type} (rnd : source) (k : nat) (a : list A)
    : list A * nat :=
  shuffleFrom rnd (length a - 1) k a.

(** The loop of [shuffleFrom] again, recording that each of its swaps is
    between two cells of the array, the second not after the first. *)
Fixpoint swapsInside {A : Type} (rnd : source) (i k : nat) (a : list A) : Prop :=
  match i with
  | O => True
  | S i' =>
      ((i < length a)%nat /\ (randomIndex (rnd k) i <= i)%nat)
      /\ swapsInside rnd i' (S k) (swap a i (randomIndex (rnd k) i))
  end.

End Random.

(** ** Text encoding (lstm.js, mirrored in lstm.worker.js) *)

Module Text.
Import JsString Data.

Definition truthy (z : Z) : bool := negb (z =? 0).

(** [.filter(Boolean)] on strings drops the empty ones. *)
Definition nonEmpty (s : jsstring) : bool :=
  match s with [] => false | _ => true end.

Definition recordToText (r : PatientRecord) : jsstring :=
  let gender := if r.(gender) =? 1 then lit "male" else lit "female" in
  let days := if r.(days_wait) =? 0 then lit "sameday"
              else lit "wait" ++ ofInt r.(days_wait) in
  let sms := if truthy r.(sms_received) then lit "sms" else lit "nosms" in
  let schl := if truthy r.(scholarship) then lit "scholarship" else [] in
  let hypert := if truthy r.(hipertension) then lit "hypertension" else [] in
  let diabetes := if truthy r.(diabetes) then lit "diabetes" else [] in
  let alcohol := if truthy r.(alcoholism) then lit "alcoholism" else [] in
  join (lit " ")
    (List.filter nonEmpty
       [gender; lit "age" ++ ofInt r.(age); days; sms; schl; hypert;
        diabetes; alcohol]).

(** [.replace(/[^a-z0-9\s]/g, '')] *)
Definition stripOther (s : jsstring) : jsstring :=
  List.filter (fun c => isLowerAlnum c || isWhite c) s.

(** [.replace(/\s+/g, ' ')]: every maximal run of white space becomes one
    space; [inRun] tells that the previous unit was white space. *)
Fixpoint collapseFrom (inRun : bool) (s : jsstring) : jsstring :=
  match s with
  | [] => []
  | c :: rest =>
      if isWhite c then
        if inRun then collapseFrom true rest
        else 32%N :: collapseFrom true rest
      else c :: collapseFrom false rest
  end.

Definition collapseWhite (s : jsstring) : jsstring := collapseFrom false s.

Definition cleanText (lowerOther : jsstring -> N -> jsstring -> jsstring)
    (text : jsstring) : jsstring :=
  trim (collapseWhite (stripOther (toLowerCase lowerOther text))).

(** The shape of a cleaned text: units of [a-z0-9 ] only, no space at
    either end, no two spaces in a row. *)
Definition isCleanUnit (c : N) : bool := isLowerAlnum c || (c =? 32)%N.

Fixpoint noDoubleSpace (s : jsstring) : bool :=
  match s with
  | [] => true
  | c :: rest =>
      match rest with
      | d :: _ => negb ((c =? 32)%N && (d =? 32)%N)
      | [] => true
      end && noDoubleSpace rest
  end.

Definition Cleaned (s : jsstring) : Prop :=
  forallb isCleanUnit s = true
  /\ head s <> Some 32%N
  /\ last s <> Some 32%N
  /\ noDoubleSpace s = true.

(** The record with the signs of [age] and [days_wait] dropped. *)
Definition absRecord (r : PatientRecord) : PatientRecord :=
  mkRecord (Z.abs r.(age)) (Z.abs r.(days_wait)) r.(gender) r.(sms_received)
    r.(scholarship) r.(hipertension) r.(diabetes) r.(alcoholism)
    r.(neighbourhood) r.(noshow).

(** A unit that [toLowerCase] leaves as it is: below 128 and not an upper
    case letter. *)
Definition plainUnit (c : N) : bool := (c <? 128)%N && (lowerAscii c =? c)%N.

(** A word of [recordToText]: not empty, of units of [a-z0-9]. *)
Definition token (t : jsstring) : Prop := t <> [] /\ forallb isLowerAlnum t = true.

(** The eight words of [recordToText], before the empty ones are dropped. *)
Definition rawTokens (r : PatientRecord) : list jsstring :=
  [ if r.(gender) =? 1 then lit "male" else lit "female";
    lit "age" ++ ofInt r.(age);
    if r.(days_wait) =? 0 then lit "sameday" else lit "wait" ++ ofInt r.(days_wait);
    if truthy r.(sms_received) then lit "sms" else lit "nosms";
    if truthy r.(scholarship) then lit "scholarship" else [];
    if truthy r.(hipertension) then lit "hypertension" else [];
    if truthy r.(diabetes) then lit "diabetes" else [];
    if truthy r.(alcoholism) then lit "alcoholism" else [] ].

End Text.

(** ** functions.js: the numeric model *)

Module Functions.
Import JsString Data.

Record Bounds : Type := mkBounds { min : Q; max : Q }.

(** The [configuration] object of config.js.  That file is not among the
    sources, so the bounds and the list [hoods] it starts with are a
    parameter of [initConfiguration]. *)
Record Configuration : Type := mkConfiguration {
  cfg_age : Bounds;
  cfg_days : Bounds;
  hoods : list jsstring
}.

(** [Array.prototype.sort()] without comparator: by UTF-16 code units. *)
Fixpoint ltb (a b : jsstring) : bool :=
  match a, b with
  | _, [] => false
  | [], _ :: _ => true
  | x :: a', y :: b' => (x <? y)%N || ((x =? y)%N && ltb a' b')
  end.

Fixpoint insertSorted (s : jsstring) (l : list jsstring) : list jsstring :=
  match l with
  | [] => [s]
  | t :: rest => if ltb s t then s :: l else t :: insertSorted s rest
  end.

Definition sort (l : list jsstring) : list jsstring :=
  fold_right insertSorted [] l.

(** [a] is not after [b] in the order of [sort]. *)
Definition notAfter (a b : jsstring) : Prop := ltb b a = false.

(** [.includes] *)
Definition includes (l : list jsstring) (s : jsstring) : bool :=
  existsb (eqb s) l.

Definition lower (b : Bounds) (v : Q) : Bounds :=
  if Qlt_le_dec v b.(min) then mkBounds v b.(max) else b.

Definition raise (b : Bounds) (v : Q) : Bounds :=
  if Qlt_le_dec b.(max) v then mkBounds b.(min) v else b.

(** The body of the [forEach] of [initConfiguration]. *)
Definition scanRecord (c : Configuration) (r : PatientRecord) : Configuration :=
  let a := raise (lower c.(cfg_age) (inject_Z r.(age))) (inject_Z r.(age)) in
  let d := raise (lower c.(cfg_days) (inject_Z r.(days_wait)))
             (inject_Z r.(days_wait)) in
  let h := if includes c.(hoods) r.(neighbourhood) then c.(hoods)
           else c.(hoods) ++ [r.(neighbourhood)] in
  mkConfiguration a d h.

Definition initConfiguration (c0 : Configuration) (RAW_DATA : list PatientRecord)
    : Configuration :=
  let c := fold_left scanRecord RAW_DATA c0 in
  mkConfiguration c.(cfg_age) c.(cfg_days) (sort c.(hoods)).

(** A value lies within bounds; bounds [b'] contain bounds [b]. *)
Definition inBounds (b : Bounds) (v : Q) : Prop := (b.(min) <= v /\ v <= b.(max))%Q.

Definition widens (b b' : Bounds) : Prop :=
  (b'.(min) <= b.(min) /\ b.(max) <= b'.(max))%Q.

(** Min-max scaling.  Each subtraction, the division, the product and the
    sum are rounded to a double; [min === max] compares the two doubles.
    In the second branch the divisor is not zero ([divisor_nonzero]), so
    the quotient is a finite number. *)
Definition normalizeData (value min max : Q) : Q :=
  if Qeq_bool min max then 1 # 2
  else Double.fl (Double.fl (value - min) / Double.fl (max - min)).

Definition denormalizeData (value min max : Q) : Q :=
  Double.fl (Double.fl (value * Double.fl (max - min)) + min).



Record FeatureVector : Type := mkVector {
  in_age : Q;
  in_days_wait : Q;
  in_gender : Q;
  in_sms_received : Q;
  in_scholarship : Q;
  in_hipertension : Q;
  in_diabetes : Q;
  in_alcoholism : Q
}.


Definition buildInputVector (c : Configuration)
    (age days gender sms schl ht db al : Q) : FeatureVector :=
  {| in_age := normalizeData age c.(cfg_age).(min) c.(cfg_age).(max);
     in_days_wait := normalizeData days c.(cfg_days).(min) c.(cfg_days).(max);
     in_gender := gender;
     in_sms_received := sms;
     in_scholarship := schl;
     in_hipertension := ht;
     in_diabetes := db;
     in_alcoholism := al |}.



(** The vector of a record, as both [prepareTrainingData] and
    [evaluateAccuracy] build it. *)
Definition recordVector (c : Configuration) (r : PatientRecord) : FeatureVector :=
  buildInputVector c
    (inject_Z r.(age)) (inject_Z r.(days_wait)) (inject_Z r.(gender))
    (inject_Z r.(sms_received)) (inject_Z r.(scholarship))
    (inject_Z r.(hipertension)) (inject_Z r.(diabetes))
    (inject_Z r.(alcoholism)).

Record Sample : Type := mkSample {
  input : FeatureVector;
  output : Z                     (* { noshow: r.noshow } *)
}.

Definition OVERSAMPLE_FACTOR : nat := 3.

Definition entryOf (c : Configuration) (r : PatientRecord) : Sample :=
  {| input := recordVector c r; output := r.(noshow) |}.

(** The body of the first [forEach] of [prepareTrainingData]: one push,
    and for a no-show the loop [for (i = 1; i < OVERSAMPLE_FACTOR; i++)]
    pushing the same entry again. *)
Definition pushRecord (c : Configuration) (samples : list Sample)
    (r : PatientRecord) : list Sample :=
  let entry := entryOf c r in
  let pushed := samples ++ [entry] in
  if r.(noshow) =? 1
  then pushed ++ repeat entry (OVERSAMPLE_FACTOR - 1)
  else pushed.

(** The labels of a record list: [p] positive ones and [q] others; and the
    samples expected of the sampler, before shuffling. *)
Definition isPositive (r : PatientRecord) : bool := r.(noshow) =? 1.

Definition positives (data : list PatientRecord) : nat :=
  length (List.filter isPositive data).

Definition negatives (data : list PatientRecord) : nat :=
  length (List.filter (fun r => negb (isPositive r)) data).

Definition balanced (c : Configuration) (data : list PatientRecord) : list Sample :=
  flat_map (fun r => if isPositive r
                     then [entryOf c r; entryOf c r; entryOf c r]
                     else [entryOf c r]) data.

(** [myBrain.trainingData] (the network itself is a parameter of the
    evaluator below). *)
Record Brain : Type := mkBrain { trainingData : list Sample }.

(** Returns the samples, the updated [myBrain] and the number of random
    draws made so far. *)
Definition prepareTrainingData (c : Configuration) (rnd : Random.source)
    (k : nat) (RAW_DATA : list PatientRecord) : list Sample * Brain * nat :=
  let samples := fold_left (pushRecord c) RAW_DATA [] in
  let '(shuffled, k') := Random.shuffle rnd k samples in
  (shuffled, mkBrain shuffled, k').

(** *** Evaluation *)

(** What [myBrain.net.run] may return: an object (with or without the key
    [noshow]), an array, or a number. *)
Inductive NetOutput : Type :=
| OutObject (noshow : option Q)
| OutArray (items : list Q)
| OutNumber (x : Q).

(** [predVal]; [None] is [undefined]. *)
Definition predVal (raw : NetOutput) : option Q :=
  match raw with
  | OutObject v => v
  | OutArray items => head items
  | OutNumber x => Some x
  end.

Definition THRESHOLD : Q := 5 # 10.

(** [predVal > THRESHOLD ? 1 : 0]; a comparison with [undefined] is false. *)
Definition predClass (v : option Q) : Z :=
  match v with
  | Some x => if Qlt_le_dec THRESHOLD x then 1 else 0
  | None => 0
  end.

Record Tally : Type := mkTally {
  correct : nat;
  tpShow : nat;
  fnShow : nat;
  tpNoshow : nat;
  fnNoshow : nat
}.

Definition tally0 : Tally := mkTally 0 0 0 0 0.

(** The [if (predClass === actual) ... else ...] of the evaluation loop. *)
Definition count (t : Tally) (isCorrect isShow : bool) : Tally :=
  if isCorrect then
    if isShow
    then mkTally (S t.(correct)) (S t.(tpShow)) t.(fnShow) t.(tpNoshow) t.(fnNoshow)
    else mkTally (S t.(correct)) t.(tpShow) t.(fnShow) (S t.(tpNoshow)) t.(fnNoshow)
  else
    if isShow
    then mkTally t.(correct) t.(tpShow) (S t.(fnShow)) t.(tpNoshow) t.(fnNoshow)
    else mkTally t.(correct) t.(tpShow) t.(fnShow) t.(tpNoshow) (S t.(fnNoshow)).

Definition classify (net : FeatureVector -> NetOutput) (c : Configuration)
    (r : PatientRecord) : Z :=
  predClass (predVal (net (recordVector c r))).

Definition evalRecord (net : FeatureVector -> NetOutput) (c : Configuration)
    (t : Tally) (r : PatientRecord) : Tally :=
  let actual := r.(noshow) in
  count t (classify net c r =? actual) (actual =? 0).

Definition ofNat (n : nat) : Q := inject_Z (Z.of_nat n).

(** [((a / b) * 100).toFixed(1)] *)
Definition percent (a b : nat) : jsstring :=
  toFixed1 (JsNumber.mul (JsNumber.div (ofNat a) (ofNat b)) 100).

Record Accuracy : Type := mkAccuracy {
  overall : jsstring;
  showUpRecall : jsstring;
  noshowRecall : jsstring
}.

Definition evaluateAccuracy (net : FeatureVector -> NetOutput)
    (c : Configuration) (RAW_DATA : list PatientRecord) : Accuracy :=
  let t := fold_left (evalRecord net c) RAW_DATA tally0 in
  {| overall := percent t.(correct) (length RAW_DATA);
     showUpRecall :=
       if (0 <? t.(tpShow) + t.(fnShow))%nat
       then percent t.(tpShow) (t.(tpShow) + t.(fnShow)) else lit "0.0";
     noshowRecall :=
       if (0 <? t.(tpNoshow) + t.(fnNoshow))%nat
       then percent t.(tpNoshow) (t.(tpNoshow) + t.(fnNoshow)) else lit "0.0" |}.

(** *** A small dataset *)

Definition demoData : list PatientRecord :=
  [ mkRecord 62 0 0 0 0 1 0 0 (lit "JARDIM DA PENHA") 1;
    mkRecord 8 2 1 1 0 0 0 0 (lit "CENTRO") 0;
    mkRecord 35 14 0 1 1 0 0 0 (lit "CENTRO") 0 ].

Definition demoStart : Configuration :=
  mkConfiguration (mkBounds 120 0) (mkBounds 365 0) [].

Definition demoConfiguration : Configuration := initConfiguration demoStart demoData.

Definition demoDraws : Random.source :=
  fun k => Qmake (Z.of_nat (k mod 4)) 4.

(** [s] is the percentage of [a] among [b], printed with one decimal and
    less than 0.1 away from the exact value. *)
Definition isPercentOf (s : jsstring) (a b : nat) : Prop :=
  exists n : Z,
    0 <= n <= 1000
    /\ - Z.of_nat b < n * Z.of_nat b - 1000 * Z.of_nat a < Z.of_nat b
    /\ s = ofInt (n / 10) ++ lit "." ++ ofInt (n mod 10).

(** The number of elements of [xs] that satisfy [f]. *)
Definition countIf {X : Type} (f : X -> bool) (xs : list X) : nat :=
  length (List.filter f xs).

End Functions.

(** ** lstm.worker.js: the text model *)

Module LstmWorker.
Import JsString.

Record TextSample : Type := mkTextSample {
  input : jsstring;
  output : jsstring;
  noshow : Z
}.

Definition encode (lowerOther : jsstring -> N -> jsstring -> jsstring)
    (r : Data.PatientRecord) : TextSample :=
  {| input := Text.cleanText lowerOther (Text.recordToText r);
     output := if Data.noshow r =? 1 then lit "no" else lit "yes";
     noshow := Data.noshow r |}.

(** [Array.prototype.slice(start, end)]: a negative index counts from the
    end, and both are clamped to the array. *)
Definition relIndex (len i : Z) : Z :=
  if i <? 0 then Z.max (len + i) 0 else Z.min i len.

Definition slice {A : Type} (a : list A) (start stop : Z) : list A :=
  let len := Z.of_nat (length a) in
  let k := relIndex len start in
  let final := relIndex len stop in
  take (Z.to_nat (final - k)) (drop (Z.to_nat k) a).

(** [Math.floor(all.length * 0.70)]: the literal is the double nearest to
    7/10, the product is rounded to a double, and [floor] is exact. *)
Definition trainEnd (len : nat) : Z :=
  Qfloor (Double.fl (inject_Z (Z.of_nat len) * Double.fl (70 # 100))).

(** [Math.floor(all.length * 0.85)] *)
Definition valEnd (len : nat) : Z :=
  Qfloor (Double.fl (inject_Z (Z.of_nat len) * Double.fl (85 # 100))).

Record Split (A : Type) : Type := mkSplit {
  rawTrain : list A;
  validationPart : list A;
  testPart : list A
}.
Arguments mkSplit {A}.
Arguments rawTrain {A}.
Arguments validationPart {A}.
Arguments testPart {A}.

(** The three [slice] calls of [buildDataset]. *)
Definition splitStep {A : Type} (all : list A) : Split A :=
  let te := trainEnd (length all) in
  let ve := valEnd (length all) in
  {| rawTrain := slice all 0 te;
     validationPart := slice all te ve;
     testPart := slice all ve (Z.of_nat (length all)) |}.

(** The body of [rawTrain.forEach]: two more pushes for a no-show. *)
Definition pushTwice (train : list TextSample) (s : TextSample)
    : list TextSample :=
  if s.(noshow) =? 1 then (train ++ [s]) ++ [s] else train.

(** [train = [...rawTrain]] followed by the [forEach]. *)
Definition oversample (rawTrain : list TextSample) : list TextSample :=
  fold_left pushTwice rawTrain rawTrain.

(** What oversampling is expected to add to the train slice, and the train
    partition expected up to order. *)
Definition extraCopies (rawTrain : list TextSample) : list TextSample :=
  flat_map (fun s => if s.(noshow) =? 1 then [s; s] else []) rawTrain.

Definition threefold (rawTrain : list TextSample) : list TextSample :=
  flat_map (fun s => if s.(noshow) =? 1 then [s; s; s] else [s]) rawTrain.

Record Dataset : Type := mkDataset {
  train : list TextSample;
  validation : list TextSample;
  test : list TextSample
}.

(** Returns the dataset and the number of random draws made so far. *)
Definition buildDataset (lowerOther : jsstring -> N -> jsstring -> jsstring)
    (rnd : Random.source) (k : nat) (RAW_DATA : list Data.PatientRecord)
    : Dataset * nat :=
  let '(all, k1) := Random.shuffle rnd k (List.map (encode lowerOther) RAW_DATA) in
  let parts := splitStep all in
  let '(train, k2) := Random.shuffle rnd k1 (oversample parts.(rawTrain)) in
  ({| train := train;
      validation := parts.(validationPart);
      test := parts.(testPart) |}, k2).

(** *** Evaluation *)

(** [net.run(s.input) || '']: [None] stands for a null or undefined result. *)
Definition orEmpty (out : option jsstring) : jsstring :=
  match out with Some s => s | None => [] end.

Definition predLabel (lowerOther : jsstring -> N -> jsstring -> jsstring)
    (out : jsstring) : jsstring :=
  if startsWith (trim (toLowerCase lowerOther out)) (lit "n")
  then lit "no" else lit "yes".

Definition evalSample (lowerOther : jsstring -> N -> jsstring -> jsstring)
    (net : jsstring -> option jsstring) (t : Functions.Tally) (s : TextSample)
    : Functions.Tally :=
  let out := orEmpty (net s.(input)) in
  Functions.count t (eqb (predLabel lowerOther out) s.(output))
    (eqb s.(output) (lit "yes")).

Record Metrics : Type := mkMetrics {
  acc : jsstring;
  showRecall : jsstring;
  noshowRecall : jsstring
}.

Definition evalSet (lowerOther : jsstring -> N -> jsstring -> jsstring)
    (net : jsstring -> option jsstring) (set : list TextSample) : Metrics :=
  let t := fold_left (evalSample lowerOther net) set Functions.tally0 in
  {| acc :=
       if (0 <? length set)%nat
       then Functions.percent t.(Functions.correct) (length set) else lit "0.0";
     showRecall :=
       if (0 <? t.(Functions.tpShow) + t.(Functions.fnShow))%nat
       then Functions.percent t.(Functions.tpShow)
              (t.(Functions.tpShow) + t.(Functions.fnShow))
       else lit "0.0";
     noshowRecall :=
       if (0 <? t.(Functions.tpNoshow) + t.(Functions.fnNoshow))%nat
       then Functions.percent t.(Functions.tpNoshow)
              (t.(Functions.tpNoshow) + t.(Functions.fnNoshow))
       else lit "0.0" |}.

End LstmWorker.

(** ** lstm.js: the worker manager on the interactive thread *)

Module Lstm.
Import JsString.

(** Messages posted to the worker. *)
Inductive Request : Type :=
| Train (data : list Data.PatientRecord)
| Predict (text : jsstring).

(** The [metrics] object of the message [done]. *)
Record DoneMetrics : Type := mkDoneMetrics {
  valAcc : jsstring;
  testAcc : jsstring;
  testShowRecall : jsstring;
  testNoshowRecall : jsstring
}.

(** Messages received from the worker. *)
Inductive Message : Type :=
| Samples (examples : jsstring)
| Log (message : jsstring)
| Progress (pct : Z) (error : JsNumber.num)
| Done (metrics : DoneMetrics)
| Error (message : jsstring)
| Prediction (label cleaned : jsstring).

(** Calls made on the callbacks given to [trainLstm]. *)
Inductive Callback : Type :=
| OnSamples (examples : jsstring)
| OnLog (message : jsstring)
| OnProgress (pct : Z) (error : JsNumber.num)
| OnDone (metrics : DoneMetrics)
| OnError (message : jsstring).

(** How a promise of [predictFromText] is settled. *)
Inductive Settled : Type :=
| Resolved (label cleaned : jsstring)
| Rejected (message : jsstring).

(** The [Worker] object held by the module: the requests posted to it and
    the promises whose one-time listener is registered on it. *)
Record WorkerHandle : Type := mkWorker {
  posted : list Request;
  listeners : list nat
}.

(** The module state: [worker], [lstmState.trained], and the number of
    promises created so far. *)
Record State : Type := mkState {
  worker : option WorkerHandle;
  trained : bool;
  promises : nat
}.

Definition initial : State :=
  {| worker := None; trained := false; promises := 0 |}.

(** [trainLstm]: a previous worker is terminated and dropped, a new one is
    created and sent the dataset.  [lstmState.trained] is not touched. *)
Definition trainLstm (st : State) (RAW_DATA : list Data.PatientRecord) : State :=
  {| worker := Some {| posted := [Train RAW_DATA]; listeners := [] |};
     trained := st.(trained);
     promises := st.(promises) |}.

(** [worker.onmessage]: the new value of [lstmState.trained] and the
    callback invoked. *)
Definition onmessage (st : State) (msg : Message) : State * list Callback :=
  match msg with
  | Samples ex => (st, [OnSamples ex])
  | Log m => (st, [OnLog m])
  | Progress pct err => (st, [OnProgress pct err])
  | Done metrics =>
      ({| worker := st.(worker); trained := true; promises := st.(promises) |},
       [OnDone metrics])
  | Error m => (st, [OnError m])
  | Prediction _ _ => (st, [])
  end.

(** The one-time [handler] of [predictFromText], run for a message: it
    settles its promise on a prediction or an error and removes itself. *)
Definition handler (msg : Message) : option Settled :=
  match msg with
  | Prediction label cleaned => Some (Resolved label cleaned)
  | Error m => Some (Rejected m)
  | _ => None
  end.

(** Delivery of a worker message: [onmessage] runs, then every registered
    listener.  Without a worker there is nothing to deliver to. *)
Definition deliver (st : State) (msg : Message)
    : State * list Callback * list (nat * Settled) :=
  match st.(worker) with
  | None => (st, [], [])
  | Some w =>
      let '(st1, calls) := onmessage st msg in
      match handler msg with
      | Some outcome =>
          ({| worker := Some {| posted := w.(posted); listeners := [] |};
              trained := st1.(trained);
              promises := st1.(promises) |},
           calls, List.map (fun p => (p, outcome)) w.(listeners))
      | None => (st1, calls, [])
      end
  end.

(** [worker.onerror] *)
Definition onerror (message : jsstring) : list Callback :=
  [OnError (match message with [] => lit "Worker error" | _ => message end)].

(** What the executor of the promise of [predictFromText] has done when it
    returns. *)
Inductive Outcome : Type :=
| RejectedNow (message : jsstring)
| Pending (promise : nat).

Definition predictFromText (st : State) (rawText : jsstring) : State * Outcome :=
  match st.(worker), st.(trained) with
  | Some w, true =>
      ({| worker := Some {| posted := w.(posted) ++ [Predict rawText];
                            listeners := w.(listeners) ++ [st.(promises)] |};
          trained := true;
          promises := S st.(promises) |},
       Pending st.(promises))
  | _, _ => (st, RejectedNow (lit "LSTM not trained yet"))
  end.

(** What can happen on the interactive thread. *)
Inductive Event : Type :=
| CallTrain (data : list Data.PatientRecord)
| CallPredict (text : jsstring)
| Receive (msg : Message)
| WorkerError (message : jsstring).

Definition step (st : State) (e : Event) : State :=
  match e with
  | CallTrain data => trainLstm st data
  | CallPredict text => fst (predictFromText st text)
  | Receive msg => fst (fst (deliver st msg))
  | WorkerError _ => st
  end.

Definition run (events : list Event) : State := fold_left step events initial.

Definition isDone (e : Event) : bool :=
  match e with
  | Receive (Done _) => true
  | _ => false
  end.

(** The promises settled while a sequence of events is processed, in
    order, each with its outcome. *)
Fixpoint settlements (st : State) (events : list Event) : list (nat * Settled) :=
  match events with
  | [] => []
  | e :: rest =>
      match e with
      | Receive msg => snd (deliver st msg)
      | _ => []
      end ++ settlements (step st e) rest
  end.

(** Every promise that can still be settled was created at or after the
    count [p0]. *)
Definition fresh (p0 : nat) (st : State) : Prop :=
  (p0 <= st.(promises))%nat
  /\ forall w, st.(worker) = Some w -> Forall (fun p => (p0 <= p)%nat) w.(listeners).

End Lstm.

(** ** Progress reports (functions.js and lstm.worker.js) *)

Module Progress.
Import JsString.

(** [Math.round] of a finite number: the nearest integer, the larger one
    on a tie. *)
Definition round (x : Q) : Z := Qfloor (x + (1 # 2)).

(** [Math.min(100, Math.round((info.iterations / ITERATIONS) * 100))], for
    the constant [ITERATIONS] of either training (300 or 5000). *)
Definition progressPct (ITERATIONS : positive) (iterations : Z) : Z :=
  Z.min 100
    (round (Double.fl (Double.fl (inject_Z iterations / inject_Z (Zpos ITERATIONS))
                       * 100))).

(** [s.padStart(n, c)] for a one-unit filler. *)
Definition padStart (n : nat) (c : N) (s : jsstring) : jsstring :=
  replicate (n - length s) c ++ s.

(** [s.repeat(n)] *)
Definition repeatStr (s : jsstring) (n : nat) : jsstring :=
  concat (replicate n s).

(** [x.toFixed(d)] for a finite [x] below 10^21: the integer [n] nearest to
    [x * 10^d], the larger one on a tie, its digits padded with zeros to
    [d + 1] places and a point put before the last [d]. *)
Definition toFixed (d : nat) (x : Q) : jsstring :=
  let a := if Qle_bool 0 x then x else Qopp x in
  let n := Qfloor (a * inject_Z (10 ^ Z.of_nat d) + (1 # 2)) in
  let m := padStart (S d) 48%N (ofInt n) in
  (if Qle_bool 0 x then [] else lit "-")
  ++ (if (d =? 0)%nat then m
      else take (length m - d) m ++ lit "." ++ drop (length m - d) m).

(** [x.toFixed(d)] for any number. *)
Definition toFixedNum (d : nat) (x : JsNumber.num) : jsstring :=
  match x with
  | JsNumber.NaN => lit "NaN"
  | JsNumber.PosInf => lit "Infinity"
  | JsNumber.NegInf => lit "-Infinity"
  | JsNumber.Fin q => toFixed d q
  end.

(** What the library passes to the training callback, and returns in the
    end: the number of iterations and the training error, which is NaN once
    the training has diverged. *)
Record Info : Type := mkInfo { iterations : Z; error : JsNumber.num }.

(** The line logged by the callback:
    [[iter ${String(info.iterations).padStart(4, '0')}]  error: ${info.error.toFixed(6)}] *)
Definition iterationLine (info : Info) : jsstring :=
  lit "[iter " ++ padStart 4 48%N (ofInt info.(iterations))
  ++ lit "]  error: " ++ toFixedNum 6 info.(error).

End Progress.

(** ** lstm.worker.js: the message handler *)

Module WorkerHost.
Import JsString.

(** What a call of [net.run] does: it returns a string, or nothing usable
    ([None] for null or undefined), or throws. *)
Inductive RunResult : Type :=
| Returns (out : option jsstring)
| Throws (message : jsstring).

(** An LSTM object of the library, as far as the worker uses it. *)
Record Net : Type := mkNet { run : jsstring -> RunResult }.

(** One call of [net.train] on a fresh object: the reports passed to the
    callback, in order, the object as the call leaves it, and the message
    of the exception if it throws. *)
Record TrainRun : Type := mkTrainRun {
  infos : list Progress.Info;
  after : Net;
  threw : option jsstring
}.

(** The library and the engine, which are not part of the program: the
    case tables of [toLowerCase], [Math.random], the behaviour of
    [new brain.recurrent.LSTM()] followed by [train] on given samples, and
    the message of the TypeError raised by [net.run] while [net] is null.
    Nothing is assumed of them: the properties below hold for every such
    library. *)
Record Library : Type := mkLibrary {
  lowerOther : jsstring -> N -> jsstring -> jsstring;
  rnd : Random.source;
  training : list (jsstring * jsstring) -> TrainRun;
  nullMessage : jsstring
}.

(** The state of the worker: [net] ([None] for null) and the number of
    random draws made so far. *)
Record State : Type := mkState { net : option Net; draws : nat }.

Definition initial : State := {| net := None; draws := 0 |}.

Definition ITERATIONS : positive := 300.

(** [`"${s.input}" → ${s.output}`] *)
Definition exampleLine (s : LstmWorker.TextSample) : jsstring :=
  [34%N] ++ s.(LstmWorker.input) ++ [34%N] ++ lit " " ++ [8594%N] ++ lit " "
  ++ s.(LstmWorker.output).

Definition examplesOf (train : list LstmWorker.TextSample) : jsstring :=
  join [10%N] (List.map exampleLine (LstmWorker.slice train 0 3)).

Definition rule : jsstring := Progress.repeatStr [9472%N] 48.

(** The messages posted before training starts. *)
Definition opening (ds : LstmWorker.Dataset) : list Lstm.Message :=
  [ Lstm.Samples (examplesOf ds.(LstmWorker.train));
    Lstm.Log (lit "[INIT] Train: " ++ ofInt (Z.of_nat (length ds.(LstmWorker.train)))
              ++ lit " " ++ [183%N] ++ lit " Val: "
              ++ ofInt (Z.of_nat (length ds.(LstmWorker.validation)))
              ++ lit " " ++ [183%N] ++ lit " Test: "
              ++ ofInt (Z.of_nat (length ds.(LstmWorker.test))));
    Lstm.Log (lit "[INIT] Short labels: " ++ [34%N] ++ lit "yes" ++ [34%N]
              ++ lit " (show) / " ++ [34%N] ++ lit "no" ++ [34%N]
              ++ lit " (no-show)");
    Lstm.Log (lit "[INIT] Iterations: 300 " ++ [183%N] ++ lit " LR: 0.01");
    Lstm.Log rule ].

(** The two messages posted by the training callback. *)
Definition report (info : Progress.Info) : list Lstm.Message :=
  [ Lstm.Progress (Progress.progressPct ITERATIONS info.(Progress.iterations))
      info.(Progress.error);
    Lstm.Log (Progress.iterationLine info) ].

(** The first exception raised by [net.run] over an evaluation set. *)
Fixpoint firstThrow (n : Net) (set : list LstmWorker.TextSample) : option jsstring :=
  match set with
  | [] => None
  | s :: rest =>
      match n.(run) s.(LstmWorker.input) with
      | Throws m => Some m
      | Returns _ => firstThrow n rest
      end
  end.

(** [net.run] where it does not throw. *)
Definition outputs (n : Net) (text : jsstring) : option jsstring :=
  match n.(run) text with
  | Returns out => out
  | Throws _ => None
  end.

(** The messages posted once [net.train] has returned. *)
Definition closing (lib : Library) (n : Net) (ds : LstmWorker.Dataset)
    : list Lstm.Message :=
  [Lstm.Log rule; Lstm.Log (lit "[DONE] LSTM training complete.")]
  ++ match firstThrow n ds.(LstmWorker.validation) with
     | Some m => [Lstm.Error m]
     | None =>
         match firstThrow n ds.(LstmWorker.test) with
         | Some m => [Lstm.Error m]
         | None =>
             let valM := LstmWorker.evalSet lib.(lowerOther) (outputs n)
                           ds.(LstmWorker.validation) in
             let testM := LstmWorker.evalSet lib.(lowerOther) (outputs n)
                            ds.(LstmWorker.test) in
             [ Lstm.Log (lit "[EVAL] Val accuracy:       "
                         ++ valM.(LstmWorker.acc) ++ lit "%");
               Lstm.Log (lit "[EVAL] Test accuracy:      "
                         ++ testM.(LstmWorker.acc) ++ lit "%");
               Lstm.Log (lit "[EVAL] Test no-show recall: "
                         ++ testM.(LstmWorker.noshowRecall) ++ lit "%");
               Lstm.Done
                 {| Lstm.valAcc := valM.(LstmWorker.acc);
                    Lstm.testAcc := testM.(LstmWorker.acc);
                    Lstm.testShowRecall := testM.(LstmWorker.showRecall);
                    Lstm.testNoshowRecall := testM.(LstmWorker.noshowRecall) |} ]
         end
     end.

(** The branch [type === 'train'] of [self.onmessage]. *)
Definition onTrain (lib : Library) (st : State) (data : list Data.PatientRecord)
    : State * list Lstm.Message :=
  let '(ds, k) := LstmWorker.buildDataset lib.(lowerOther) lib.(rnd) st.(draws) data in
  let trainingInput :=
    List.map (fun s => (s.(LstmWorker.input), s.(LstmWorker.output)))
      ds.(LstmWorker.train) in
  let tr := lib.(training) trainingInput in
  ({| net := Some tr.(after); draws := k |},
   opening ds
   ++ flat_map report tr.(infos)
   ++ match tr.(threw) with
      | Some m => [Lstm.Error m]
      | None => closing lib tr.(after) ds
      end).

(** The branch [type === 'predict']. *)
Definition onPredict (lib : Library) (st : State) (text : jsstring)
    : State * list Lstm.Message :=
  let cleaned := Text.cleanText lib.(lowerOther) text in
  (st,
   match st.(net) with
   | None => [Lstm.Error lib.(nullMessage)]
   | Some n =>
       match n.(run) cleaned with
       | Throws m => [Lstm.Error m]
       | Returns out =>
           let label :=
             if startsWith
                  (trim (toLowerCase lib.(lowerOther) (LstmWorker.orEmpty out)))
                  (lit "n")
             then lit "noshow" else lit "showup" in
           [Lstm.Prediction label cleaned]
       end
   end).

Definition onmessage (lib : Library) (st : State) (req : Lstm.Request)
    : State * list Lstm.Message :=
  match req with
  | Lstm.Train data => onTrain lib st data
  | Lstm.Predict text => onPredict lib st text
  end.

(** A whole session: the requests received in order and all the messages
    posted. *)
Fixpoint session (lib : Library) (st : State) (reqs : list Lstm.Request)
    : State * list Lstm.Message :=
  match reqs with
  | [] => (st, [])
  | req :: rest =>
      let '(st1, out) := onmessage lib st req in
      let '(st2, out') := session lib st1 rest in
      (st2, out ++ out')
  end.

Definition isTerminal (m : Lstm.Message) : bool :=
  match m with
  | Lstm.Done _ | Lstm.Error _ => true
  | _ => false
  end.

Definition isPrediction (m : Lstm.Message) : bool :=
  match m with
  | Lstm.Prediction _ _ => true
  | _ => false
  end.

Definition isProgress (m : Lstm.Message) : bool :=
  match m with
  | Lstm.Progress _ _ => true
  | _ => false
  end.

Definition isPredict (req : Lstm.Request) : bool :=
  match req with
  | Lstm.Predict _ => true
  | Lstm.Train _ => false
  end.

(** A library whose networks answer nothing and whose training reports
    nothing, for examples. *)
Definition silentNet : Net := {| run := fun _ => Returns None |}.

Definition silentLibrary : Library :=
  {| lowerOther := fun _ _ _ => [];
     rnd := fun _ => 0%Q;
     training := fun _ => {| infos := []; after := silentNet; threw := None |};
     nullMessage := lit "Cannot read properties of null (reading 'run')" |}.

(** A message that is neither [done], [error] nor [prediction]. *)
Definition isInterim (m : Lstm.Message) : bool :=
  negb (isTerminal m) && negb (isPrediction m).

End WorkerHost.

(** ** functions.js: training, the prediction form and the gauge *)

Module Trainer.
Import JsString.

(** The calls made on the callbacks passed to [trainModel]. *)
Inductive Call : Type :=
| OnLog (message : jsstring)
| OnProgress (pct : Z) (error : JsNumber.num)
| OnDone (stats : Progress.Info)
| OnError (message : jsstring).

(** The callbacks are code of the caller, and a call may return or throw.
    [Handlers] says which, for a call and the calls made before it: [None]
    when the call returns, the message of the exception when it throws. *)
Definition Handlers : Type := list Call -> Call -> option jsstring.

(** Handlers that always return. *)
Definition quiet : Handlers := fun _ _ => None.

(** Calls made one after the other until one throws: the calls made, the
    throwing one included, and the exception if there is one. *)
Fixpoint perform (h : Handlers) (history calls : list Call)
    : list Call * option jsstring :=
  match calls with
  | [] => ([], None)
  | call :: rest =>
      match h history call with
      | Some message => ([call], Some message)
      | None =>
          let '(made, thrown) := perform h (history ++ [call]) rest in
          (call :: made, thrown)
      end
  end.

(** One call of [myBrain.net.train] whose callback returns normally: the
    reports passed to the callback, in order, and the statistics it returns
    or the message of the exception it throws.  The library calls the
    callback unprotected: an exception of the callback ends the training at
    that report and leaves [net.train]. *)
Record TrainRun : Type := mkTrainRun {
  infos : list Progress.Info;
  result : Progress.Info + jsstring
}.

Definition ITERATIONS : positive := 5000.

Definition rule : jsstring := Progress.repeatStr [9472%N] 52.

(** The five lines logged before the timer is set. *)
Definition announce (trainingData : list Functions.Sample) : list Call :=
  [ OnLog (lit "[INIT] Original samples: 150 " ++ [8594%N]
           ++ lit " After oversampling: "
           ++ ofInt (Z.of_nat (length trainingData)));
    OnLog (lit "[INIT] Input features: 8 (age, days_wait, gender, sms, scholarship, hypertension, diabetes, alcoholism)");
    OnLog (lit "[INIT] Architecture: 8 " ++ [8594%N] ++ lit " [10, 6] "
           ++ [8594%N] ++ lit " 1 (sigmoid)");
    OnLog (lit "[INIT] Learning rate: 0.01 " ++ [183%N]
           ++ lit " Max iterations: " ++ ofInt (Zpos ITERATIONS));
    OnLog rule ].

(** The two calls made by the training callback. *)
Definition report (info : Progress.Info) : list Call :=
  [ OnProgress (Progress.progressPct ITERATIONS info.(Progress.iterations))
      info.(Progress.error);
    OnLog (Progress.iterationLine info) ].

Definition doneLine (stats : Progress.Info) : jsstring :=
  lit "[DONE] Finished in " ++ ofInt stats.(Progress.iterations)
  ++ lit " iterations " ++ [183%N] ++ lit " Final error: "
  ++ Progress.toFixedNum 6 stats.(Progress.error).

(** The calls the [try] block makes if none of them throws: those of the
    training callback and, when [net.train] returns, two log lines and
    [onDone]. *)
Definition attempt (run : TrainRun) : list Call :=
  flat_map report run.(infos)
  ++ match run.(result) with
     | inl stats => [OnLog rule; OnLog (doneLine stats); OnDone stats]
     | inr _ => []
     end.

(** The body of the timer.  The calls of the [try] block are made until one
    throws; an exception, of a callback or of [net.train], is caught and
    passed to [onError].  The result is the calls made and the exception
    that leaves the timer, which can only be one thrown by [onError]. *)
Definition deferred (h : Handlers) (history : list Call) (run : TrainRun)
    : list Call * option jsstring :=
  let '(made, thrown) := perform h history (attempt run) in
  let caught :=
    match thrown, run.(result) with
    | Some message, _ => Some message
    | None, inr message => Some message
    | None, inl _ => None
    end in
  match caught with
  | None => (made, None)
  | Some message =>
      let '(made', uncaught) := perform h (history ++ made) [OnError message] in
      (made ++ made', uncaught)
  end.

(** What [trainModel] does: the calls made before it returns, the
    exception it throws if one of them throws (the timer is then not set),
    the calls made when the timer fires, the exception that leaves the
    timer, [myBrain] and the number of random draws made so far. *)
Record Outcome : Type := mkOutcome {
  now : list Call;
  thrown : option jsstring;
  later : list Call;
  uncaught : option jsstring;
  brain : Functions.Brain;
  draws : nat
}.

Definition trainModel (c : Functions.Configuration) (rnd : Random.source)
    (k : nat) (h : Handlers) (train : list Functions.Sample -> TrainRun)
    (RAW_DATA : list Data.PatientRecord) : Outcome :=
  let '(trainingData, b, k') := Functions.prepareTrainingData c rnd k RAW_DATA in
  let '(made, exn) := perform h [] (announce trainingData) in
  match exn with
  | Some message =>
      {| now := made; thrown := Some message; later := []; uncaught := None;
         brain := b; draws := k' |}
  | None =>
      let '(made', exn') := deferred h made (train trainingData) in
      {| now := made; thrown := None; later := made'; uncaught := exn';
         brain := b; draws := k' |}
  end.

Definition isLog (call : Call) : bool :=
  match call with
  | OnLog _ => true
  | _ => false
  end.

Definition isProgress (call : Call) : bool :=
  match call with
  | OnProgress _ _ => true
  | _ => false
  end.

Definition isFinal (call : Call) : bool :=
  match call with
  | OnDone _ | OnError _ => true
  | _ => false
  end.

(** Handlers whose [onDone] throws, for examples. *)
Definition failingDone : Handlers :=
  fun _ call =>
    match call with
    | OnDone _ => Some (lit "evaluation failed")
    | _ => None
    end.

End Trainer.

Module Form.
Import JsString.

(** *** parseInt *)

(** The value of a digit or letter. *)
Definition digitOf (c : N) : option Z :=
  if ((48 <=? c) && (c <=? 57))%N then Some (Z.of_N c - 48)
  else if ((97 <=? c) && (c <=? 122))%N then Some (Z.of_N c - 87)
  else if ((65 <=? c) && (c <=? 90))%N then Some (Z.of_N c - 55)
  else None.

Definition digitIn (radix : Z) (c : N) : option Z :=
  match digitOf c with
  | Some d => if d <? radix then Some d else None
  | None => None
  end.

(** The value of the longest prefix of digits of the radix, or [None] if
    that prefix is empty and nothing was read before. *)
Fixpoint digitsValue (radix : Z) (acc : option Z) (s : jsstring) : option Z :=
  match s with
  | [] => acc
  | c :: rest =>
      match digitIn radix c with
      | Some d => digitsValue radix (Some (radix * default 0 acc + d)) rest
      | None => acc
      end
  end.

(** The Number value of an integer: the nearest double, or an infinity from
    [2^1024 - 2^970] on. *)
Definition toNumber (z : Z) : JsNumber.num :=
  if 2 ^ 1024 - 2 ^ 970 <=? Z.abs z
  then if 0 <? z then JsNumber.PosInf else JsNumber.NegInf
  else JsNumber.Fin (Double.fl (inject_Z z)).

(** A leading sign is read and removed. *)
Definition readSign (s : jsstring) : bool * jsstring :=
  match s with
  | c :: r =>
      if (c =? 45)%N then (true, r)
      else if (c =? 43)%N then (false, r)
      else (false, s)
  | [] => (false, s)
  end.

(** The prefix [0x] or [0X] selects radix 16 and is removed. *)
Definition readRadix (s : jsstring) : Z * jsstring :=
  match s with
  | c1 :: c2 :: r =>
      if ((c1 =? 48) && ((c2 =? 120) || (c2 =? 88)))%N then (16, r)
      else (10, s)
  | _ => (10, s)
  end.

(** [parseInt(text)] without a radix: leading white space is skipped, a
    sign is read, the prefix [0x] or [0X] selects radix 16, and the digits
    that follow are read up to the first other character; no digit gives
    [NaN].  All the digits read count (an engine may round a decimal
    numeral of more than 20 digits differently). *)
Definition parseInt (text : jsstring) : JsNumber.num :=
  let '(negative, s1) := readSign (trimStart text) in
  let '(radix, s2) := readRadix s1 in
  match digitsValue radix None s2 with
  | None => JsNumber.NaN
  | Some v => toNumber (if negative then - v else v)
  end.

(** What may follow a decimal numeral of value [z] without changing what
    [parseInt] reads: nothing, or a character that is not a decimal digit
    and, after a lone zero, not the [x] of a hexadecimal prefix. *)
Definition endsNumeral (z : Z) (rest : jsstring) : Prop :=
  match rest with
  | [] => True
  | c :: _ => digitIn 10 c = None /\ (z = 0 -> c <> 120%N /\ c <> 88%N)
  end.

(** [x || d] for a number [x]: [d] replaces [NaN] and zero. *)
Definition orElse (x : JsNumber.num) (d : Q) : JsNumber.num :=
  match x with
  | JsNumber.NaN => JsNumber.Fin d
  | JsNumber.Fin q => if Qeq_bool q 0 then JsNumber.Fin d else x
  | _ => x
  end.

(** *** predict *)

Record ToggleState : Type := mkToggleState {
  gender : jsstring;
  sms : jsstring;
  schl : jsstring;
  ht : jsstring;
  db : jsstring;
  al : jsstring
}.

(** [value === expected ? 1 : 0] *)
Definition flag (value expected : jsstring) : Q :=
  if eqb value expected then 1 else 0.

(** The number [normalizeData] works on.  An infinite field (a numeral of
    more than 308 digits) is normalized to 0.5 when the bounds coincide,
    whatever it is, and to an infinity otherwise. *)
Definition scalable (value : JsNumber.num) (b : Functions.Bounds) : option Q :=
  match value with
  | JsNumber.Fin v => Some v
  | _ => if Qeq_bool b.(Functions.min) b.(Functions.max) then Some 0%Q else None
  end.

(** The result of [predict]: the risk read off the output of the network
    ([None] is [undefined]), or [OffScale] when the network is run on a
    vector with an infinite component, which this development does not
    follow. *)
Inductive Predicted : Type :=
| Risk (raw : option Q)
| OffScale.

Definition predict (net : Functions.FeatureVector -> Functions.NetOutput)
    (c : Functions.Configuration) (inpAge inpDays : jsstring)
    (toggleState : ToggleState) : Predicted :=
  let age := orElse (parseInt inpAge) 30 in
  let days := orElse (parseInt inpDays) 0 in
  let gender := flag toggleState.(gender) (lit "M") in
  let sms := flag toggleState.(sms) (lit "Yes") in
  let schl := flag toggleState.(schl) (lit "Yes") in
  let ht := flag toggleState.(ht) (lit "Yes") in
  let db := flag toggleState.(db) (lit "Yes") in
  let al := flag toggleState.(al) (lit "Yes") in
  match scalable age c.(Functions.cfg_age), scalable days c.(Functions.cfg_days) with
  | Some a, Some d =>
      let input := Functions.buildInputVector c a d gender sms schl ht db al in
      Risk (Functions.predVal (net input))
  | _, _ => OffScale
  end.

(** The form filled in with the values of a record. *)
Definition yesNo (x : Z) : jsstring := if x =? 1 then lit "Yes" else lit "No".

Definition togglesOf (r : Data.PatientRecord) : ToggleState :=
  {| gender := if r.(Data.gender) =? 1 then lit "M" else lit "F";
     sms := yesNo r.(Data.sms_received);
     schl := yesNo r.(Data.scholarship);
     ht := yesNo r.(Data.hipertension);
     db := yesNo r.(Data.diabetes);
     al := yesNo r.(Data.alcoholism) |}.

(** The record the form stands for: an age of zero reads as 30. *)
Definition asTyped (r : Data.PatientRecord) : Data.PatientRecord :=
  Data.mkRecord (if r.(Data.age) =? 0 then 30 else r.(Data.age))
    r.(Data.days_wait) r.(Data.gender) r.(Data.sms_received)
    r.(Data.scholarship) r.(Data.hipertension) r.(Data.diabetes)
    r.(Data.alcoholism) r.(Data.neighbourhood) r.(Data.noshow).

Definition flagsBinary (r : Data.PatientRecord) : Prop :=
  (r.(Data.gender) = 0 \/ r.(Data.gender) = 1)
  /\ (r.(Data.sms_received) = 0 \/ r.(Data.sms_received) = 1)
  /\ (r.(Data.scholarship) = 0 \/ r.(Data.scholarship) = 1)
  /\ (r.(Data.hipertension) = 0 \/ r.(Data.hipertension) = 1)
  /\ (r.(Data.diabetes) = 0 \/ r.(Data.diabetes) = 1)
  /\ (r.(Data.alcoholism) = 0 \/ r.(Data.alcoholism) = 1).

(** *** updateGauge *)

Definition CIRCUMFERENCE : Q := Double.fl (3016 # 10).

(** What [updateGauge] writes to the page; [None] is [NaN]. *)
Record Gauge : Type := mkGauge {
  strokeDashoffset : option Q;
  stroke : jsstring;
  gaugeText : jsstring;
  className : jsstring;
  verdictLabel : jsstring;
  verdictDesc : jsstring
}.

(** [Math.round(risk * 100)]; [None] is [NaN]. *)
Definition riskPct (risk : option Q) : option Z :=
  match risk with
  | Some x => Some (Progress.round (Double.fl (x * 100)))
  | None => None
  end.

(** [risk > 0.5]; a comparison with [undefined] is false. *)
Definition isNoShow (risk : option Q) : bool :=
  match risk with
  | Some x => if Qlt_le_dec (5 # 10) x then true else false
  | None => false
  end.

(** A percentage in a template literal or before [+ '%']. *)
Definition showPct (pct : option Z) : jsstring :=
  match pct with
  | Some n => ofInt n
  | None => lit "NaN"
  end.

Definition updateGauge (risk : option Q) : Gauge :=
  let pct := riskPct risk in
  {| strokeDashoffset :=
       match risk with
       | Some x => Some (Double.fl (CIRCUMFERENCE - Double.fl (x * CIRCUMFERENCE)))
       | None => None
       end;
     stroke := if isNoShow risk then lit "var(--danger)" else lit "var(--accent)";
     gaugeText := showPct pct ++ lit "%";
     className :=
       if isNoShow risk then lit "verdict-label no-show"
       else lit "verdict-label will-show";
     verdictLabel := if isNoShow risk then lit "Likely No-Show" else lit "Will Attend";
     verdictDesc :=
       if isNoShow risk
       then lit "Risk score: " ++ showPct pct ++ lit "% " ++ [8212%N]
            ++ lit " High probability of missing the appointment. Consider a manual follow-up or confirmation call."
       else lit "Risk score: " ++ showPct pct ++ lit "% " ++ [8212%N]
            ++ lit " Patient is likely to attend. No special intervention required." |}.

End Form.

(** * Properties *)

(** ** Rounding to a double *)

Module DoubleFacts.
Import Double.

Lemma nearestEven_close N D :
  0 < D -> - D <= 2 * (nearestEven N D * D - N) <= D.
Proof.
  intros HD. unfold nearestEven.
  pose proof (Z.div_mod N D ltac:(lia)) as E.
  pose proof (Z.mod_pos_bound N D HD) as B.
  destruct ((D <? 2 * (N mod D)) || ((D =? 2 * (N mod D)) && Z.odd (N / D))) eqn:C.
  - apply orb_true_iff in C. destruct C as [C | C].
    + apply Z.ltb_lt in C. nia.
    + apply andb_true_iff in C. destruct C as [C _]. apply Z.eqb_eq in C. nia.
  - apply orb_false_iff in C. destruct C as [C _]. apply Z.ltb_ge in C. nia.
Qed.

Lemma nearestEven_nonneg N D : 0 <= N -> 0 < D -> 0 <= nearestEven N D.
Proof.
  intros HN HD. unfold nearestEven.
  pose proof (Z.div_pos N D HN HD).
  destruct (_ || _); lia.
Qed.

Lemma pow2_max_pos e : 0 < 2 ^ Z.max e 0.
Proof. apply Z.pow_pos_nonneg; lia. Qed.

Lemma exponent_lower a b :
  0 < a -> 0 < b ->
  snd (shift2 a b (exponent a b)) * 2 ^ 52 <= fst (shift2 a b (exponent a b)).
Proof.
  intros Ha Hb. unfold exponent.
  set (t0 := 52 - (Z.log2 a - Z.log2 b)).
  destruct (shift2 a b t0) as [N D] eqn:E.
  destruct (D * 2 ^ 52 <=? N) eqn:C.
  - rewrite E. simpl. now apply Z.leb_le in C.
  - clear C E N D. unfold shift2. cbn [fst snd].
    destruct (Z.log2_spec a Ha) as [La Ua].
    destruct (Z.log2_spec b Hb) as [Lb Ub].
    pose proof (Z.log2_nonneg a) as Na. pose proof (Z.log2_nonneg b) as Nb.
    set (la := Z.log2 a) in *. set (lb := Z.log2 b) in *.
    destruct (Z_le_dec 0 (t0 + 1)) as [Ht | Ht].
    + rewrite (Z.max_l (t0 + 1) 0) by lia. rewrite (Z.max_r (- (t0 + 1)) 0) by lia.
      rewrite Z.pow_0_r, Z.mul_1_r.
      assert (H1 : 2 ^ la * 2 ^ (t0 + 1) = 2 ^ 52 * 2 ^ Z.succ lb).
      { rewrite <- !Z.pow_add_r by lia. f_equal. unfold t0. lia. }
      assert (0 < 2 ^ (t0 + 1)) by (apply Z.pow_pos_nonneg; lia).
      nia.
    + rewrite (Z.max_r (t0 + 1) 0) by lia. rewrite (Z.max_l (- (t0 + 1)) 0) by lia.
      rewrite Z.pow_0_r, Z.mul_1_r.
      assert (H1 : 2 ^ Z.succ lb * 2 ^ (- (t0 + 1)) * 2 ^ 52 = 2 ^ la).
      { rewrite <- !Z.pow_add_r by lia. f_equal. unfold t0. lia. }
      assert (0 < 2 ^ (- (t0 + 1))) by (apply Z.pow_pos_nonneg; lia).
      assert (0 < 2 ^ la) by (apply Z.pow_pos_nonneg; lia).
      nia.
Qed.


(** The result is within one unit roundoff of the fraction. *)
Lemma roundPos_bounds_Z a b :
  0 < a -> 0 < b ->
  a * (2 ^ 53 - 1) * QDen (roundPos a b) <= Qnum (roundPos a b) * b * 2 ^ 53
  /\ Qnum (roundPos a b) * b * 2 ^ 53 <= a * (2 ^ 53 + 1) * QDen (roundPos a b).
Proof.
  intros Ha Hb. unfold roundPos.
  pose proof (exponent_lower a b Ha Hb) as L.
  set (t := exponent a b) in *.
  unfold shift2 in *. cbn [fst snd] in L.
  pose proof (pow2_max_pos t) as HP. pose proof (pow2_max_pos (- t)) as HM.
  set (P := 2 ^ Z.max t 0) in *. set (M := 2 ^ Z.max (- t) 0) in *.
  pose proof (nearestEven_close (a * P) (b * M) ltac:(nia)) as C.
  set (m := nearestEven (a * P) (b * M)) in *.
  cbn [Qnum Qden]. rewrite Z2Pos.id by lia.
  change (2 ^ 53) with (2 * 2 ^ 52) in *.
  set (h := 2 ^ 52) in *. assert (0 < h) by (unfold h; lia).
  split; nia.
Qed.

Lemma roundPos_nonneg a b : 0 < a -> 0 < b -> (0 <= roundPos a b)%Q.
Proof.
  intros Ha Hb. unfold roundPos, shift2, Qle. cbn [Qnum Qden].
  pose proof (pow2_max_pos (exponent a b)). pose proof (pow2_max_pos (- exponent a b)).
  pose proof (nearestEven_nonneg (a * 2 ^ Z.max (exponent a b) 0)
                (b * 2 ^ Z.max (- exponent a b) 0) ltac:(nia) ltac:(nia)).
  nia.
Qed.

Lemma one_minus_u : (1 - u == Qmake (2 ^ 53 - 1) (2 ^ 53))%Q.
Proof. reflexivity. Qed.

Lemma one_plus_u : (1 + u == Qmake (2 ^ 53 + 1) (2 ^ 53))%Q.
Proof. reflexivity. Qed.

Lemma roundPos_bounds a b :
  0 < a -> 0 < b ->
  (Qmake a (Z.to_pos b) * (1 - u) <= roundPos a b
   /\ roundPos a b <= Qmake a (Z.to_pos b) * (1 + u))%Q.
Proof.
  intros Ha Hb. destruct (roundPos_bounds_Z a b Ha Hb) as [L U].
  rewrite one_minus_u, one_plus_u.
  unfold Qle, Qmult. cbn [Qnum Qden].
  rewrite !Pos2Z.inj_mul, !Z2Pos.id by lia.
  change (Z.pos (2 ^ 53)) with (2 ^ 53).
  split; lia.
Qed.



Lemma fl_bounds x :
  (0 <= x)%Q -> (x * (1 - u) <= fl x /\ fl x <= x * (1 + u))%Q.
Proof.
  intros Hx. unfold fl.
  pose proof (Qred_correct x) as E.
  destruct (Qred x) as [n d] eqn:R. cbn [Qnum Qden].
  destruct n as [| a | a].
  - assert (Z : (x == 0)%Q) by (rewrite <- E; reflexivity).
    rewrite Z. split; discriminate.
  - rewrite Qred_correct, <- E.
    pose proof (roundPos_bounds (Zpos a) (Zpos d) ltac:(lia) ltac:(lia)) as B.
    exact B.
  - exfalso. rewrite <- E in Hx. unfold Qle in Hx. cbn in Hx. lia.
Qed.

Lemma fl_nonneg x : (0 <= x)%Q -> (0 <= fl x)%Q.
Proof.
  intros Hx. unfold fl.
  pose proof (Qred_correct x) as E.
  destruct (Qred x) as [n d] eqn:R. cbn [Qnum Qden].
  destruct n as [| a | a].
  - apply Qle_refl.
  - rewrite Qred_correct. apply roundPos_nonneg; lia.
  - exfalso. rewrite <- E in Hx. unfold Qle in Hx. cbn in Hx. lia.
Qed.



(** The literals of the program and the classical cases of rounding. *)
Example fl_tenth : fl (1 # 10) = (3602879701896397 # 36028797018963968)%Q.
Proof. vm_compute. reflexivity. Qed.

Example fl_070 : fl (70 # 100) = (3152519739159347 # 4503599627370496)%Q.
Proof. vm_compute. reflexivity. Qed.

Example fl_085 : fl (85 # 100) = (7656119366529843 # 9007199254740992)%Q.
Proof. vm_compute. reflexivity. Qed.

Example fl_ties_to_even :
  fl (inject_Z (2 ^ 53 + 1)) = inject_Z (2 ^ 53)
  /\ fl (inject_Z (2 ^ 53 + 3)) = inject_Z (2 ^ 53 + 4).
Proof. vm_compute. split; reflexivity. Qed.

Example fl_exact : fl (3 # 4) = (3 # 4)%Q /\ fl 150 = 150%Q.
Proof. vm_compute. split; reflexivity. Qed.












Lemma fl_half : fl (1 # 2) = (1 # 2)%Q.
Proof. vm_compute. reflexivity. Qed.



End DoubleFacts.

(** ** The Fisher-Yates loop *)

Module RandomFacts.
Import Random.

(** A draw in [0,1) gives an index between 0 and [i]. *)
Lemma randomIndex_le r i :
  (0 <= r)%Q -> (r <= 1 - Double.u)%Q -> (randomIndex r i <= i)%nat.
Proof.
  intros H0 H1. unfold randomIndex.
  set (n := inject_Z (Z.of_nat i + 1)).
  assert (Hn : (1 <= n)%Q).
  { unfold n. change 1%Q with (inject_Z 1). rewrite <- Zle_Qle. lia. }
  assert (Hx : (0 <= r * n)%Q) by (apply Qmult_le_0_compat; lra).
  destruct (DoubleFacts.fl_bounds _ Hx) as [_ U].
  assert (Hlt : (Double.fl (r * n) < n)%Q).
  { eapply Qle_lt_trans; [exact U |].
    apply Qle_lt_trans with ((1 - Double.u) * n * (1 + Double.u))%Q.
    - apply Qmult_le_compat_r; [| discriminate].
      apply Qmult_le_compat_r; lra.
    - assert (E : ((1 - Double.u) * n * (1 + Double.u)
                   == n * ((1 - Double.u) * (1 + Double.u)))%Q) by ring.
      rewrite E. rewrite <- (Qmult_1_r n) at 2.
      apply Qmult_lt_l; [lra | reflexivity]. }
  pose proof (Qfloor_le (Double.fl (r * n))) as F.
  assert (Z : (Qfloor (Double.fl (r * n)) < Z.of_nat i + 1)%Z).
  { rewrite Zlt_Qlt. eapply Qle_lt_trans; [exact F | exact Hlt]. }
  lia.
Qed.

Section Swap.
Context {A : Type}.
Implicit Types a : list A.

Lemma swap_length a i j : length (swap a i j) = length a.
Proof.
  unfold swap. destruct (a !! i), (a !! j); try reflexivity.
  now rewrite !length_insert.
Qed.

Lemma delete_insert_same a i y : delete i (<[i := y]> a) = delete i a.
Proof.
  revert i. induction a as [| z a IH]; intros [| i]; cbn; try reflexivity.
  f_equal. apply IH.
Qed.

Lemma insert_delete_perm a i x y :
  a !! i = Some x -> <[i := y]> a ≡ₚ y :: delete i a.
Proof.
  intros Hi.
  assert (Hlt : (i < length a)%nat) by (eapply lookup_lt_Some; eauto).
  rewrite (delete_Permutation (<[i := y]> a) i y)
    by (now apply list_lookup_insert_eq).
  now rewrite delete_insert_same.
Qed.

Lemma swap_perm a i j : swap a i j ≡ₚ a.
Proof.
  unfold swap.
  destruct (a !! i) as [x |] eqn:Hi; [| reflexivity].
  destruct (a !! j) as [y |] eqn:Hj; [| reflexivity].
  destruct (decide (i = j)) as [-> | Hne].
  - assert (x = y) by congruence. subst y.
    rewrite (list_insert_id a j x Hi). now rewrite (list_insert_id a j x Hi).
  - set (b := <[i := y]> a).
    assert (Hbj : b !! j = Some y)
      by (unfold b; rewrite list_lookup_insert_ne; auto).
    assert (Hb1 : b ≡ₚ y :: delete j b) by (now apply delete_Permutation).
    assert (Hb2 : b ≡ₚ y :: delete i a) by (now apply insert_delete_perm with x).
    assert (Hd : delete j b ≡ₚ delete i a).
    { apply (Permutation_cons_inv (a := y)). now rewrite <- Hb1, <- Hb2. }
    rewrite (insert_delete_perm b j y x Hbj), Hd.
    symmetry. now apply delete_Permutation.
Qed.

(** In range, the assignment really exchanges the two cells. *)
Lemma swap_lookup a i j x y :
  a !! i = Some x -> a !! j = Some y ->
  swap a i j !! i = Some y /\ swap a i j !! j = Some x.
Proof.
  intros Hi Hj. unfold swap. rewrite Hi, Hj.
  assert (Hli : (i < length a)%nat) by (eapply lookup_lt_Some; eauto).
  assert (Hlj : (j < length a)%nat) by (eapply lookup_lt_Some; eauto).
  destruct (decide (i = j)) as [-> | Hne].
  - assert (x = y) by congruence. subst y.
    split; apply list_lookup_insert_eq; now rewrite length_insert.
  - split.
    + rewrite list_lookup_insert_ne by auto. now apply list_lookup_insert_eq.
    + apply list_lookup_insert_eq. now rewrite length_insert.
Qed.

Lemma shuffleFrom_perm rnd i k a : fst (shuffleFrom rnd i k a) ≡ₚ a.
Proof.
  revert k a. induction i as [| i IH]; intros k a; [reflexivity |].
  cbn [shuffleFrom]. rewrite IH. apply swap_perm.
Qed.

Lemma shuffleFrom_calls rnd i k a : snd (shuffleFrom rnd i k a) = (k + i)%nat.
Proof.
  revert k a. induction i as [| i IH]; intros k a; cbn [shuffleFrom].
  - cbn. lia.
  - rewrite IH. lia.
Qed.

Lemma shuffle_perm rnd k a : fst (shuffle rnd k a) ≡ₚ a.
Proof. apply shuffleFrom_perm. Qed.

Lemma shuffle_length rnd k a : length (fst (shuffle rnd k a)) = length a.
Proof. now rewrite shuffle_perm. Qed.

Lemma shuffle_nil rnd k : shuffle rnd k (@nil A) = ([], k).
Proof. reflexivity. Qed.

(** Every swap of the loop is between cells of the array. *)
Lemma shuffle_step_in_range rnd i k a :
  inRange rnd -> (i < length a)%nat ->
  is_Some (a !! i) /\ is_Some (a !! randomIndex (rnd k) i).
Proof.
  intros R Hi. destruct (R k) as [R0 R1].
  pose proof (randomIndex_le (rnd k) i R0 R1).
  split; apply lookup_lt_is_Some; lia.
Qed.

End Swap.

End RandomFacts.

(** ** Text cleaning *)

Module TextFacts.
Import JsString Text.

Lemma isLowerAlnum_spec c :
  isLowerAlnum c = true <-> (97 <= c <= 122 \/ 48 <= c <= 57)%N.
Proof.
  unfold isLowerAlnum.
  rewrite orb_true_iff, !andb_true_iff, !N.leb_le. tauto.
Qed.

Lemma isWhite_space : isWhite 32 = true.
Proof. reflexivity. Qed.

Lemma isWhite_range c :
  isWhite c = true -> (9 <= c <= 13 \/ c = 32 \/ 160 <= c)%N.
Proof.
  unfold isWhite.
  rewrite !orb_true_iff, !andb_true_iff, !N.leb_le, !N.eqb_eq. lia.
Qed.

Lemma alnum_not_white c : isLowerAlnum c = true -> isWhite c = false.
Proof.
  intros H. apply isLowerAlnum_spec in H.
  destruct (isWhite c) eqn:W; [| reflexivity].
  apply isWhite_range in W. lia.
Qed.

Lemma alnum_not_space c : isLowerAlnum c = true -> c <> 32%N.
Proof. intros H E. subst c. discriminate H. Qed.

Lemma cleanUnit_cases c :
  isCleanUnit c = true -> isLowerAlnum c = true \/ c = 32%N.
Proof.
  unfold isCleanUnit. rewrite orb_true_iff, N.eqb_eq. tauto.
Qed.

Lemma cleanUnit_ascii c : isCleanUnit c = true -> (c <? 128)%N = true /\ lowerAscii c = c.
Proof.
  intros H. apply cleanUnit_cases in H. rewrite isLowerAlnum_spec in H.
  unfold lowerAscii. rewrite N.ltb_lt.
  split; [lia |].
  destruct (65 <=? c)%N eqn:E1, (c <=? 90)%N eqn:E2; cbn; try reflexivity.
  apply N.leb_le in E1, E2. lia.
Qed.

Lemma cleanUnit_white c : isCleanUnit c = true -> isWhite c = true -> c = 32%N.
Proof.
  intros H W. destruct (cleanUnit_cases c H) as [L | ->]; [| reflexivity].
  rewrite (alnum_not_white c L) in W. discriminate.
Qed.

(** *** Each stage of [cleanText] *)

Lemma stripOther_units s :
  Forall (fun c => isLowerAlnum c = true \/ isWhite c = true) (stripOther s).
Proof.
  unfold stripOther. apply Forall_forall. intros c Hc.
  apply list_elem_of_In, filter_In in Hc. destruct Hc as [_ Hc].
  now apply orb_true_iff in Hc.
Qed.

Lemma collapseFrom_shape inRun s :
  Forall (fun c => isLowerAlnum c = true \/ isWhite c = true) s ->
  forallb isCleanUnit (collapseFrom inRun s) = true
  /\ noDoubleSpace (collapseFrom inRun s) = true
  /\ (inRun = true -> head (collapseFrom inRun s) <> Some 32%N).
Proof.
  intros F. revert inRun. induction F as [| c s Hc F IH]; intros inRun.
  - cbn. split; [reflexivity | split; [reflexivity | discriminate]].
  - cbn [collapseFrom]. destruct (isWhite c) eqn:W.
    + destruct (IH true) as (U & D & Hd).
      destruct inRun.
      * split; [exact U | split; [exact D | exact Hd]].
      * cbn [forallb noDoubleSpace]. rewrite U, D.
        split; [reflexivity | split; [| discriminate]].
        rewrite andb_true_r.
        destruct (collapseFrom true s) as [| d rest] eqn:E; [reflexivity |].
        destruct (N.eqb_spec d 32) as [-> | _]; [| reflexivity].
        exfalso. now apply Hd.
    + destruct Hc as [L | Wc]; [| congruence].
      destruct (IH false) as (U & D & _).
      cbn [forallb noDoubleSpace]. rewrite U, D.
      unfold isCleanUnit at 1. rewrite L. cbn [orb andb].
      split; [reflexivity | split].
      * rewrite andb_true_r.
        destruct (collapseFrom false s); [reflexivity |].
        destruct (N.eqb_spec c 32) as [-> | _]; [discriminate L | reflexivity].
      * intros _ E. injection E as E. now apply (alnum_not_space c).
Qed.

Lemma trimStart_suffix s : exists ws, s = ws ++ trimStart s.
Proof.
  induction s as [| c s [ws IH]]; [now exists [] |].
  cbn. destruct (isWhite c).
  - exists (c :: ws). cbn. now f_equal.
  - now exists [].
Qed.

Lemma trimStart_head s c : head (trimStart s) = Some c -> isWhite c = false.
Proof.
  induction s as [| d s IH]; cbn; [discriminate |].
  destruct (isWhite d) eqn:W; [exact IH |].
  cbn. intros E. now injection E as <-.
Qed.

Lemma trimStart_id s :
  (forall c, head s = Some c -> isWhite c = false) -> trimStart s = s.
Proof.
  destruct s as [| c s]; [reflexivity |].
  intros H. cbn. now rewrite (H c eq_refl).
Qed.

Lemma trimEnd_prefix s : exists ws, s = trimEnd s ++ ws.
Proof.
  unfold trimEnd. destruct (trimStart_suffix (List.rev s)) as [ws E].
  exists (List.rev ws).
  rewrite <- rev_app_distr, <- E. now rewrite rev_involutive.
Qed.

Lemma last_rev (s : jsstring) : last (List.rev s) = head s.
Proof. destruct s as [| c s]; [reflexivity |]. cbn. apply last_snoc. Qed.

Lemma head_rev (s : jsstring) : head (List.rev s) = last s.
Proof. rewrite <- (rev_involutive s) at 2. now rewrite last_rev. Qed.

Lemma trimEnd_last s c : last (trimEnd s) = Some c -> isWhite c = false.
Proof.
  unfold trimEnd. rewrite <- head_rev, rev_involutive. apply trimStart_head.
Qed.

Lemma trimEnd_id s :
  (forall c, last s = Some c -> isWhite c = false) -> trimEnd s = s.
Proof.
  intros H. unfold trimEnd. rewrite trimStart_id; [apply rev_involutive |].
  intros c. rewrite head_rev. apply H.
Qed.

(** *** Shapes are kept by prefixes and suffixes *)

Lemma noDoubleSpace_app_r a b : noDoubleSpace (a ++ b) = true -> noDoubleSpace b = true.
Proof.
  induction a as [| c a IH]; [auto |].
  cbn [app noDoubleSpace]. intros H. apply andb_true_iff in H. tauto.
Qed.

Lemma noDoubleSpace_app_l a b : noDoubleSpace (a ++ b) = true -> noDoubleSpace a = true.
Proof.
  induction a as [| c a IH]; [auto |].
  cbn [app noDoubleSpace]. intros H. apply andb_true_iff in H.
  destruct H as [H1 H2]. rewrite (IH H2), andb_true_r.
  destruct a as [| d a]; [reflexivity | exact H1].
Qed.

Lemma forallb_app_inv (f : N -> bool) a b :
  forallb f (a ++ b) = true -> forallb f a = true /\ forallb f b = true.
Proof. rewrite forallb_app. apply andb_true_iff. Qed.

Lemma head_app_nonempty (a b : jsstring) : a <> [] -> head (a ++ b) = head a.
Proof. destruct a; [congruence | reflexivity]. Qed.

(** *** The result of [cleanText] is a cleaned text *)

Lemma cleanText_Cleaned lowerOther s : Cleaned (cleanText lowerOther s).
Proof.
  unfold cleanText, trim, collapseWhite.
  destruct (collapseFrom_shape false _
              (stripOther_units (toLowerCase lowerOther s))) as (U & D & _).
  set (w := collapseFrom false _) in *.
  destruct (trimStart_suffix w) as [ws Ew].
  pose proof (trimStart_head w) as Hh.
  set (t1 := trimStart w) in *.
  rewrite Ew in U, D.
  apply forallb_app_inv in U. destruct U as [_ U1].
  apply noDoubleSpace_app_r in D.
  destruct (trimEnd_prefix t1) as [ws' Et].
  pose proof (trimEnd_last t1) as Hl.
  set (t2 := trimEnd t1) in *.
  rewrite Et in U1, D.
  apply forallb_app_inv in U1. destruct U1 as [U2 _].
  apply noDoubleSpace_app_l in D.
  split; [exact U2 | split; [| split; [| exact D]]].
  - destruct t2 as [| c t2'] eqn:E2; [discriminate |].
    intros E. cbn in E. injection E as ->.
    assert (H : head t1 = Some 32%N) by (rewrite Et; reflexivity).
    apply Hh in H. discriminate H.
  - intros E. apply Hl in E. discriminate E.
Qed.

(** *** A cleaned text is left as it is by every stage *)

Lemma lowerFrom_clean lowerOther before s :
  forallb isCleanUnit s = true -> lowerFrom lowerOther before s = s.
Proof.
  revert before. induction s as [| c s IH]; intros before H; [reflexivity |].
  cbn [forallb] in H. apply andb_true_iff in H. destruct H as [Hc Hs].
  destruct (cleanUnit_ascii c Hc) as [A L].
  cbn [lowerFrom]. rewrite A, L, (IH _ Hs). reflexivity.
Qed.

Lemma stripOther_clean s : forallb isCleanUnit s = true -> stripOther s = s.
Proof.
  unfold stripOther. induction s as [| c s IH]; intros H; [reflexivity |].
  cbn [forallb] in H. apply andb_true_iff in H. destruct H as [Hc Hs].
  cbn [List.filter].
  assert (K : isLowerAlnum c || isWhite c = true).
  { destruct (cleanUnit_cases c Hc) as [L | ->]; [now rewrite L | reflexivity]. }
  rewrite K, (IH Hs). reflexivity.
Qed.

Lemma collapseFrom_clean inRun s :
  forallb isCleanUnit s = true ->
  noDoubleSpace s = true ->
  (inRun = true -> head s <> Some 32%N) ->
  collapseFrom inRun s = s.
Proof.
  revert inRun. induction s as [| c s IH]; intros inRun U D Hd; [reflexivity |].
  cbn [forallb] in U. apply andb_true_iff in U. destruct U as [Hc Hs].
  cbn [noDoubleSpace] in D. apply andb_true_iff in D. destruct D as [D1 D2].
  cbn [collapseFrom]. destruct (isWhite c) eqn:W.
  - pose proof (cleanUnit_white c Hc W) as ->.
    destruct inRun; [exfalso; now apply Hd |].
    f_equal. apply IH; auto.
    intros _ E. destruct s as [| d s']; [discriminate |].
    cbn in E. injection E as ->. discriminate D1.
  - f_equal. apply IH; auto; discriminate.
Qed.

Lemma Cleaned_fixed lowerOther s : Cleaned s -> cleanText lowerOther s = s.
Proof.
  intros (U & Hh & Hl & D).
  unfold cleanText, toLowerCase, collapseWhite, trim.
  rewrite (lowerFrom_clean _ _ _ U), (stripOther_clean _ U).
  rewrite (collapseFrom_clean false s U D) by discriminate.
  assert (NW : forall c, c ∈ s -> isWhite c = true -> c = 32%N).
  { intros c Hc. apply cleanUnit_white.
    rewrite forallb_forall in U. now apply U, list_elem_of_In. }
  rewrite trimStart_id.
  - apply trimEnd_id. intros c E.
    destruct (isWhite c) eqn:W; [| reflexivity].
    exfalso. apply Hl. rewrite E. f_equal. apply NW; auto.
    now apply last_Some_elem_of.
  - intros c E.
    destruct (isWhite c) eqn:W; [| reflexivity].
    exfalso. apply Hh. rewrite E. f_equal. apply NW; auto.
    now apply head_Some_elem_of.
Qed.

Lemma noDoubleSpace_lookup s i :
  noDoubleSpace s = true -> s !! i = Some 32%N -> s !! S i <> Some 32%N.
Proof.
  revert i. induction s as [| c s IH]; intros i D; [discriminate |].
  cbn [noDoubleSpace] in D. apply andb_true_iff in D. destruct D as [D1 D2].
  destruct i as [| i]; cbn.
  - intros E. injection E as ->.
    destruct s as [| d s']; [discriminate |].
    cbn. intros E. injection E as ->. discriminate D1.
  - now apply IH.
Qed.

Lemma forallb_cleanUnit_ranges s :
  forallb isCleanUnit s = true ->
  Forall (fun c => (97 <= c <= 122 \/ 48 <= c <= 57 \/ c = 32)%N) s.
Proof.
  intros U. apply List.Forall_forall. intros c Hc.
  rewrite forallb_forall in U.
  destruct (cleanUnit_cases c (U c Hc)) as [L | ->]; [| tauto].
  apply isLowerAlnum_spec in L. tauto.
Qed.

(** C6.  [cleanText] is defined on every string and idempotent, and its
    result consists of units of [a-z0-9 ] only, neither starts nor ends
    with a space, and has no two spaces in a row.  This holds whatever the
    case mapping of the units above 127 is. *)
Theorem cleanText_idempotent_and_clean
    (lowerOther : jsstring -> N -> jsstring -> jsstring) (s : jsstring) :
  let t := cleanText lowerOther s in
  cleanText lowerOther t = t
  /\ Forall (fun c => (97 <= c <= 122 \/ 48 <= c <= 57 \/ c = 32)%N) t
  /\ head t <> Some 32%N
  /\ last t <> Some 32%N
  /\ (forall i, t !! i = Some 32%N -> t !! S i <> Some 32%N).
Proof.
  intros t. pose proof (cleanText_Cleaned lowerOther s) as C.
  fold t in C. split; [now apply Cleaned_fixed |].
  destruct C as (U & Hh & Hl & D).
  split; [now apply forallb_cleanUnit_ranges |].
  split; [exact Hh | split; [exact Hl |]].
  intros i. now apply noDoubleSpace_lookup.
Qed.

Example recordToText_demo :
  List.map recordToText Functions.demoData
  = [lit "female age62 sameday nosms hypertension";
     lit "male age8 wait2 sms";
     lit "female age35 wait14 sms scholarship"].
Proof. vm_compute. reflexivity. Qed.

Example cleanText_demo :
  cleanText (fun _ c _ => [c]) (lit "  Hello,   World!  42 ") = lit "hello world 42".
Proof. vm_compute. reflexivity. Qed.

(** A tab, a no-break space and a line separator are white space; the
    unit 233 is outside [a-z0-9]. *)
Example cleanText_whitespace :
  cleanText (fun _ c _ => [c]) [9; 65; 160; 8232; 66; 233; 48; 12288]%N = lit "a b0".
Proof. vm_compute. reflexivity. Qed.

End TextFacts.

(** ** Min-max scaling and feature vectors *)

Module FunctionsFacts.
Import JsString Data Functions.

Lemma Qeq_bool_false a b : ~ (a == b)%Q -> Qeq_bool a b = false.
Proof.
  intros H. destruct (Qeq_bool a b) eqn:E; [| reflexivity].
  exfalso. now apply H, Qeq_bool_eq.
Qed.


(** *** Scaling in double precision *)

Section Scaling.
Import Double DoubleFacts.
Local Open Scope Q_scope.
























(** The round trip is not exact: 15 between 0 and 22 comes back as
    14.999999999999998. *)
Example denormalize_normalize_inexact :
  denormalizeData (normalizeData 15 0 22) 0 22
  = 8444249301319679 # 562949953421312.
Proof. vm_compute. reflexivity. Qed.

End Scaling.

(** *** The bounds computed by [initConfiguration] *)

Lemma widens_refl b : widens b b.
Proof. split; apply Qle_refl. Qed.

Lemma widens_trans a b c : widens a b -> widens b c -> widens a c.
Proof. intros [A1 A2] [B1 B2]. split; lra. Qed.

Lemma lower_raise_widens b v : widens b (raise (lower b v) v).
Proof.
  unfold raise, lower, widens.
  destruct (Qlt_le_dec v (min b)); cbn;
    destruct (Qlt_le_dec _ v); cbn; lra.
Qed.

Lemma lower_raise_covers b v : inBounds (raise (lower b v) v) v.
Proof.
  unfold raise, lower, inBounds.
  destruct (Qlt_le_dec v (min b)); cbn;
    destruct (Qlt_le_dec _ v); cbn; lra.
Qed.

Lemma inBounds_widens b b' v : widens b b' -> inBounds b v -> inBounds b' v.
Proof. intros [W1 W2] [I1 I2]. split; lra. Qed.

Lemma scan_widens data c :
  widens c.(cfg_age) (fold_left scanRecord data c).(cfg_age)
  /\ widens c.(cfg_days) (fold_left scanRecord data c).(cfg_days).
Proof.
  revert c. induction data as [| r data IH]; intros c; cbn [fold_left].
  - split; apply widens_refl.
  - destruct (IH (scanRecord c r)) as [A D]. split.
    + eapply widens_trans; [| exact A]. apply lower_raise_widens.
    + eapply widens_trans; [| exact D]. apply lower_raise_widens.
Qed.

Lemma scan_covers data c r :
  r ∈ data ->
  inBounds (fold_left scanRecord data c).(cfg_age) (inject_Z r.(age))
  /\ inBounds (fold_left scanRecord data c).(cfg_days) (inject_Z r.(days_wait)).
Proof.
  revert c. induction data as [| r' data IH]; intros c Hr.
  - inversion Hr.
  - cbn [fold_left]. apply elem_of_cons in Hr. destruct Hr as [-> | Hr].
    + destruct (scan_widens data (scanRecord c r')) as [A D]. split.
      * eapply inBounds_widens; [exact A |]. apply lower_raise_covers.
      * eapply inBounds_widens; [exact D |]. apply lower_raise_covers.
    + now apply IH.
Qed.

Lemma initConfiguration_covers c0 data r :
  r ∈ data ->
  inBounds (initConfiguration c0 data).(cfg_age) (inject_Z r.(age))
  /\ inBounds (initConfiguration c0 data).(cfg_days) (inject_Z r.(days_wait)).
Proof. intros Hr. unfold initConfiguration. cbn. now apply scan_covers. Qed.



(** *** The class-balancing sampler *)

Lemma pushRecord_fold c data acc :
  fold_left (pushRecord c) data acc
  = acc ++ flat_map (fun r => if isPositive r
                              then [entryOf c r; entryOf c r; entryOf c r]
                              else [entryOf c r]) data.
Proof.
  revert acc. induction data as [| r data IH]; intros acc; cbn [fold_left flat_map].
  - now rewrite app_nil_r.
  - rewrite IH. unfold pushRecord, isPositive.
    destruct (noshow r =? 1); cbn; now rewrite <- !app_assoc.
Qed.

Lemma balanced_length c data :
  length (balanced c data) = (positives data * 3 + negatives data)%nat.
Proof.
  unfold balanced, positives, negatives.
  induction data as [| r data IH]; [reflexivity |].
  cbn [flat_map List.filter]. rewrite length_app, IH.
  destruct (isPositive r); cbn; lia.
Qed.

Lemma labels_total data : (positives data + negatives data)%nat = length data.
Proof.
  unfold positives, negatives.
  induction data as [| r data IH]; [reflexivity |].
  cbn [List.filter]. destruct (isPositive r); cbn; lia.
Qed.

(** C1.  For a record list with [p] positive labels ([noshow = 1]) and [q]
    other labels, [prepareTrainingData] returns [p * 3 + q] samples, a
    permutation of the list holding the sample of each positive record three
    times and that of each other record once; the empty record list gives
    the empty sample list. *)
Theorem prepareTrainingData_balanced (c : Configuration) (rnd : Random.source)
    (k : nat) (data : list PatientRecord) :
  Random.inRange rnd ->
  let samples := fst (fst (prepareTrainingData c rnd k data)) in
  length samples = (positives data * 3 + negatives data)%nat
  /\ samples ≡ₚ balanced c data
  /\ fst (fst (prepareTrainingData c rnd k [])) = [].
Proof.
  intros _ samples.
  assert (P : samples ≡ₚ balanced c data).
  { unfold samples, prepareTrainingData.
    pose proof (RandomFacts.shuffle_perm rnd k (fold_left (pushRecord c) data []))
      as S.
    destruct (Random.shuffle rnd k _) as [shuffled k']. cbn in *.
    rewrite S, pushRecord_fold. reflexivity. }
  split; [| split; [exact P | reflexivity]].
  rewrite P. apply balanced_length.
Qed.

Lemma demoDraws_inRange : Random.inRange demoDraws.
Proof.
  intros k. unfold demoDraws.
  assert (H : (k mod 4 < 4)%nat) by (apply Nat.mod_upper_bound; lia).
  destruct (k mod 4)%nat as [| [| [| [| n]]]]; [| | | | lia];
    split; vm_compute; discriminate.
Qed.

Lemma prepareTrainingData_balanced_witness :
  length (fst (fst (prepareTrainingData demoConfiguration demoDraws 0 demoData)))
  = 5%nat.
Proof.
  apply (prepareTrainingData_balanced demoConfiguration demoDraws 0 demoData).
  exact demoDraws_inRange.
Defined.

(** One positive and two negative records give five samples. *)
Example prepareTrainingData_demo :
  List.map output
    (fst (fst (prepareTrainingData demoConfiguration demoDraws 0 demoData)))
  = [0; 1; 0; 1; 1].
Proof. vm_compute. reflexivity. Qed.

Example shuffle_demo :
  fst (Random.shuffle demoDraws 0 [10; 20; 30; 40; 50]) = [50; 30; 40; 20; 10].
Proof. vm_compute. reflexivity. Qed.

(** *** The evaluator of the numeric model *)

Lemma predClass_one v :
  predClass v = 1 <-> exists x, v = Some x /\ (THRESHOLD < x)%Q.
Proof.
  unfold predClass. destruct v as [x |].
  - destruct (Qlt_le_dec THRESHOLD x) as [L | G].
    + split; [intros _; now exists x | reflexivity].
    + split; [discriminate |]. intros (y & E & L). injection E as ->.
      exfalso. apply (Qlt_not_le _ _ L G).
  - split; [discriminate |]. intros (y & E & _). discriminate E.
Qed.

Lemma predClass_binary v : predClass v = 0 \/ predClass v = 1.
Proof.
  unfold predClass. destruct v as [x |]; [| now left].
  destruct (Qlt_le_dec THRESHOLD x); [now right | now left].
Qed.

(** C7.  The class predicted for a record is the no-show class 1 exactly
    when the scalar read from the output of the network is strictly above
    0.5; at exactly 0.5, and in every other case, it is the show class 0. *)
Theorem classify_strict_threshold (net : FeatureVector -> NetOutput)
    (c : Configuration) (r : PatientRecord) :
  let out := predVal (net (recordVector c r)) in
  (classify net c r = 1 <-> exists x, out = Some x /\ (1 # 2 < x)%Q)
  /\ (forall x, out = Some x -> (x == 1 # 2)%Q -> classify net c r = 0)
  /\ (classify net c r <> 1 -> classify net c r = 0).
Proof.
  intros out. unfold classify. fold out. split; [| split].
  - rewrite predClass_one.
    assert (T : (THRESHOLD == 1 # 2)%Q) by reflexivity.
    split; intros (x & E & L); exists x; (split; [exact E |]);
      [rewrite <- T | rewrite T]; exact L.
  - intros x E H. destruct (predClass_binary out) as [Z | O]; [exact Z |].
    apply predClass_one in O. destruct O as (y & Ey & L).
    rewrite E in Ey. injection Ey as <-.
    exfalso. rewrite H in L. discriminate L.
  - intros N. destruct (predClass_binary out); tauto.
Qed.

(** The denominators of the recalls are the sizes of the two classes. *)
Lemma count_totals (t : Tally) (isCorrect isShow : bool) :
  let t' := count t isCorrect isShow in
  (t'.(tpShow) + t'.(fnShow) = t.(tpShow) + t.(fnShow) + (if isShow then 1 else 0))%nat
  /\ (t'.(tpNoshow) + t'.(fnNoshow)
      = t.(tpNoshow) + t.(fnNoshow) + (if isShow then 0 else 1))%nat.
Proof. unfold count. destruct isCorrect, isShow; cbn; lia. Qed.

Lemma fold_count_totals {X : Type} (f g : X -> bool) (xs : list X) (t : Tally) :
  let t' := fold_left (fun t x => count t (f x) (g x)) xs t in
  (t'.(tpShow) + t'.(fnShow)
   = t.(tpShow) + t.(fnShow) + length (List.filter g xs))%nat
  /\ (t'.(tpNoshow) + t'.(fnNoshow)
      = t.(tpNoshow) + t.(fnNoshow)
        + length (List.filter (fun x => negb (g x)) xs))%nat.
Proof.
  revert t. induction xs as [| x xs IH]; intros t; cbn [fold_left List.filter].
  - cbn. lia.
  - destruct (IH (count t (f x) (g x))) as [A B].
    destruct (count_totals t (f x) (g x)) as [C D].
    cbn zeta in *. rewrite A, B, C, D.
    destruct (g x); cbn; lia.
Qed.

Lemma filter_none {X : Type} (g : X -> bool) (xs : list X) :
  (forall x, x ∈ xs -> g x = false) -> List.filter g xs = [].
Proof.
  induction xs as [| x xs IH]; intros H; [reflexivity |].
  cbn. rewrite (H x) by (apply elem_of_cons; now left).
  apply IH. intros y Hy. apply H. apply elem_of_cons. now right.
Qed.

(** A class without records has recall ["0.0"]. *)
Lemma evaluateAccuracy_recall_guard net c data :
  ((forall r, r ∈ data -> r.(noshow) <> 0) ->
     (evaluateAccuracy net c data).(showUpRecall) = lit "0.0")
  /\ ((forall r, r ∈ data -> r.(noshow) = 0) ->
       (evaluateAccuracy net c data).(noshowRecall) = lit "0.0").
Proof.
  unfold evaluateAccuracy. cbn [showUpRecall noshowRecall].
  destruct (fold_count_totals (fun r => classify net c r =? noshow r)
              (fun r => noshow r =? 0) data tally0) as [A B].
  cbn zeta in A, B. unfold evalRecord. split; intros H.
  - rewrite A, filter_none; [reflexivity |].
    intros r Hr. apply Z.eqb_neq. now apply H.
  - rewrite B, filter_none; [reflexivity |].
    intros r Hr. rewrite (H r Hr). reflexivity.
Qed.

(** [evaluateAccuracy] divides the number of correct predictions by the
    number of records without a guard: for no record at all the quotient
    0/0 is NaN and the accuracy reported is ["NaN"], while both recalls are
    ["0.0"]. *)
Lemma evaluateAccuracy_empty (net : FeatureVector -> NetOutput)
    (c : Configuration) :
  evaluateAccuracy net c []
  = {| overall := lit "NaN";
       showUpRecall := lit "0.0";
       noshowRecall := lit "0.0" |}
  /\ (evaluateAccuracy net c []).(overall) <> lit "0.0".
Proof. split; [reflexivity | discriminate]. Qed.

(** A network that always answers "show" on the small dataset: two of
    three records right, full recall on the show class, none on the other. *)
Example evaluateAccuracy_majority :
  evaluateAccuracy (fun _ => OutObject (Some (1 # 5)%Q)) demoConfiguration demoData
  = {| overall := lit "66.7";
       showUpRecall := lit "100.0";
       noshowRecall := lit "0.0" |}.
Proof. vm_compute. reflexivity. Qed.

(** An output of exactly 0.5 is a "show" prediction, 0.51 a "no-show". *)
Example evaluateAccuracy_at_threshold :
  (evaluateAccuracy (fun _ => OutArray [(1 # 2)%Q]) demoConfiguration demoData).(overall)
  = lit "66.7"
  /\ (evaluateAccuracy (fun _ => OutNumber (51 # 100)%Q) demoConfiguration
        demoData).(overall)
     = lit "33.3".
Proof. vm_compute. split; reflexivity. Qed.

End FunctionsFacts.

(** ** The split and the oversampling of the text model *)

Module LstmWorkerFacts.
Import JsString LstmWorker.

(** *** The cut indices *)

Lemma scaled_le (n a b : Q) : (0 <= n)%Q -> (a <= b)%Q -> (n * a <= n * b)%Q.
Proof.
  intros Hn Hab. rewrite (Qmult_comm n a), (Qmult_comm n b).
  now apply Qmult_le_compat_r.
Qed.

Lemma ofNat_nonneg n : (0 <= inject_Z (Z.of_nat n))%Q.
Proof. change 0%Q with (inject_Z 0). rewrite <- Zle_Qle. lia. Qed.

Lemma cuts_ordered (n : nat) :
  0 <= trainEnd n /\ trainEnd n <= valEnd n /\ valEnd n <= Z.of_nat n.
Proof.
  unfold trainEnd, valEnd.
  set (N := inject_Z (Z.of_nat n)).
  pose proof (ofNat_nonneg n) as HN. fold N in HN.
  set (c70 := Double.fl (70 # 100)). set (c85 := Double.fl (85 # 100)).
  assert (P70 : (0 <= c70)%Q) by (vm_compute; discriminate).
  assert (P85 : (0 <= c85)%Q) by (vm_compute; discriminate).
  assert (K1 : (c70 * (1 + Double.u) <= c85 * (1 - Double.u))%Q)
    by (vm_compute; discriminate).
  assert (K2 : (c85 * (1 + Double.u) <= 1)%Q) by (vm_compute; discriminate).
  assert (X70 : (0 <= N * c70)%Q) by (now apply Qmult_le_0_compat).
  assert (X85 : (0 <= N * c85)%Q) by (now apply Qmult_le_0_compat).
  destruct (DoubleFacts.fl_bounds _ X70) as [_ U70].
  destruct (DoubleFacts.fl_bounds _ X85) as [L85 U85].
  split; [| split].
  - change 0 with (Qfloor 0). apply Qfloor_resp_le.
    now apply DoubleFacts.fl_nonneg.
  - apply Qfloor_resp_le.
    eapply Qle_trans; [exact U70 |]. eapply Qle_trans; [| exact L85].
    rewrite <- !Qmult_assoc. now apply scaled_le.
  - rewrite <- (Qfloor_Z (Z.of_nat n)). fold N. apply Qfloor_resp_le.
    eapply Qle_trans; [exact U85 |].
    rewrite <- Qmult_assoc. rewrite <- (Qmult_1_r N) at 2.
    now apply scaled_le.
Qed.

Example trainEnd_10 : trainEnd 10 = 7. Proof. vm_compute. reflexivity. Qed.
Example trainEnd_150 : trainEnd 150 = 105 /\ valEnd 150 = 127.
Proof. vm_compute. split; reflexivity. Qed.

(** The product [90 * 0.70] is rounded to the double just below 63. *)
Example trainEnd_90 : trainEnd 90 = 62 /\ valEnd 90 = 76.
Proof. vm_compute. split; reflexivity. Qed.

Lemma Qfloor_lt_succ (y : Q) (k : Z) : (y < inject_Z (k + 1))%Q -> Qfloor y <= k.
Proof.
  intros H. pose proof (Qfloor_le y) as F.
  assert (Qfloor y < k + 1); [| lia].
  rewrite Zlt_Qlt. eapply Qle_lt_trans; eauto.
Qed.

Lemma Qfloor_ge (y : Q) (k : Z) : (inject_Z k <= y)%Q -> k <= Qfloor y.
Proof. intros H. rewrite <- (Qfloor_Z k). now apply Qfloor_resp_le. Qed.

(** Below 2^32 elements the cut index is the exact value of
    [floor(7n/10)] or one less. *)
Lemma trainEnd_near (n : nat) :
  Z.of_nat n < 2 ^ 32 ->
  7 * Z.of_nat n / 10 - 1 <= trainEnd n <= 7 * Z.of_nat n / 10.
Proof.
  intros B. unfold trainEnd.
  pose proof (Z.div_mod (7 * Z.of_nat n) 10 ltac:(lia)) as E.
  pose proof (Z.mod_pos_bound (7 * Z.of_nat n) 10 ltac:(lia)) as R.
  set (m := 7 * Z.of_nat n / 10) in *. set (f := (7 * Z.of_nat n) mod 10) in *.
  set (N := inject_Z (Z.of_nat n)).
  assert (HN : (0 <= N)%Q) by apply ofNat_nonneg.
  assert (BN : (N < 4294967296)%Q).
  { unfold N. change 4294967296%Q with (inject_Z (2 ^ 32)). now rewrite <- Zlt_Qlt. }
  assert (EQ : (7 * N == 10 * inject_Z m + inject_Z f)%Q).
  { unfold N. change 7%Q with (inject_Z 7). change 10%Q with (inject_Z 10).
    rewrite <- !inject_Z_mult, <- inject_Z_plus. now rewrite E. }
  assert (F0 : (0 <= inject_Z f)%Q) by (change 0%Q with (inject_Z 0); rewrite <- Zle_Qle; lia).
  assert (F9 : (inject_Z f <= 9)%Q) by (change 9%Q with (inject_Z 9); rewrite <- Zle_Qle; lia).
  assert (C : Double.fl (70 # 100) = (3152519739159347 # 4503599627370496)%Q)
    by (vm_compute; reflexivity).
  rewrite C.
  assert (X : (0 <= N * (3152519739159347 # 4503599627370496))%Q)
    by (apply Qmult_le_0_compat; [exact HN | discriminate]).
  destruct (DoubleFacts.fl_bounds _ X) as [L U].
  change Double.u with (1 # 9007199254740992)%Q in L, U.
  set (y := Double.fl _) in *.
  split.
  - apply Qfloor_ge. replace (m - 1) with (m + -1) by lia.
    rewrite inject_Z_plus. change (inject_Z (-1)) with (-1 # 1)%Q. lra.
  - apply Qfloor_lt_succ. rewrite inject_Z_plus. change (inject_Z 1) with 1%Q. lra.
Qed.

Lemma valEnd_near (n : nat) :
  Z.of_nat n < 2 ^ 32 ->
  85 * Z.of_nat n / 100 - 1 <= valEnd n <= 85 * Z.of_nat n / 100.
Proof.
  intros B. unfold valEnd.
  pose proof (Z.div_mod (85 * Z.of_nat n) 100 ltac:(lia)) as E.
  pose proof (Z.mod_pos_bound (85 * Z.of_nat n) 100 ltac:(lia)) as R.
  set (m := 85 * Z.of_nat n / 100) in *.
  set (f := (85 * Z.of_nat n) mod 100) in *.
  set (N := inject_Z (Z.of_nat n)).
  assert (HN : (0 <= N)%Q) by apply ofNat_nonneg.
  assert (BN : (N < 4294967296)%Q).
  { unfold N. change 4294967296%Q with (inject_Z (2 ^ 32)). now rewrite <- Zlt_Qlt. }
  assert (EQ : (85 * N == 100 * inject_Z m + inject_Z f)%Q).
  { unfold N. change 85%Q with (inject_Z 85). change 100%Q with (inject_Z 100).
    rewrite <- !inject_Z_mult, <- inject_Z_plus. now rewrite E. }
  assert (F0 : (0 <= inject_Z f)%Q)
    by (change 0%Q with (inject_Z 0); rewrite <- Zle_Qle; lia).
  assert (F9 : (inject_Z f <= 99)%Q)
    by (change 99%Q with (inject_Z 99); rewrite <- Zle_Qle; lia).
  assert (C : Double.fl (85 # 100) = (7656119366529843 # 9007199254740992)%Q)
    by (vm_compute; reflexivity).
  rewrite C.
  assert (X : (0 <= N * (7656119366529843 # 9007199254740992))%Q)
    by (apply Qmult_le_0_compat; [exact HN | discriminate]).
  destruct (DoubleFacts.fl_bounds _ X) as [L U].
  change Double.u with (1 # 9007199254740992)%Q in L, U.
  set (y := Double.fl _) in *.
  split.
  - apply Qfloor_ge. replace (m - 1) with (m + -1) by lia.
    rewrite inject_Z_plus. change (inject_Z (-1)) with (-1 # 1)%Q. lra.
  - apply Qfloor_lt_succ. rewrite inject_Z_plus. change (inject_Z 1) with 1%Q. lra.
Qed.

(** Where [7n/10] is not an integer the cut index is its integer part. *)
Lemma trainEnd_exact (n : nat) :
  Z.of_nat n < 2 ^ 32 -> (7 * Z.of_nat n) mod 10 <> 0 ->
  trainEnd n = 7 * Z.of_nat n / 10.
Proof.
  intros B NZ. pose proof (trainEnd_near n B) as [_ Up].
  apply Z.le_antisymm; [exact Up |]. unfold trainEnd.
  pose proof (Z.div_mod (7 * Z.of_nat n) 10 ltac:(lia)) as E.
  pose proof (Z.mod_pos_bound (7 * Z.of_nat n) 10 ltac:(lia)) as R.
  set (m := 7 * Z.of_nat n / 10) in *. set (f := (7 * Z.of_nat n) mod 10) in *.
  set (N := inject_Z (Z.of_nat n)).
  assert (HN : (0 <= N)%Q) by apply ofNat_nonneg.
  assert (BN : (N < 4294967296)%Q).
  { unfold N. change 4294967296%Q with (inject_Z (2 ^ 32)). now rewrite <- Zlt_Qlt. }
  assert (EQ : (7 * N == 10 * inject_Z m + inject_Z f)%Q).
  { unfold N. change 7%Q with (inject_Z 7). change 10%Q with (inject_Z 10).
    rewrite <- !inject_Z_mult, <- inject_Z_plus. now rewrite E. }
  assert (F1 : (1 <= inject_Z f)%Q)
    by (change 1%Q with (inject_Z 1); rewrite <- Zle_Qle; lia).
  assert (C : Double.fl (70 # 100) = (3152519739159347 # 4503599627370496)%Q)
    by (vm_compute; reflexivity).
  rewrite C.
  assert (X : (0 <= N * (3152519739159347 # 4503599627370496))%Q)
    by (apply Qmult_le_0_compat; [exact HN | discriminate]).
  destruct (DoubleFacts.fl_bounds _ X) as [L U].
  change Double.u with (1 # 9007199254740992)%Q in L, U.
  set (y := Double.fl _) in *.
  apply Qfloor_ge. lra.
Qed.

Lemma valEnd_exact (n : nat) :
  Z.of_nat n < 2 ^ 32 -> (85 * Z.of_nat n) mod 100 <> 0 ->
  valEnd n = 85 * Z.of_nat n / 100.
Proof.
  intros B NZ. pose proof (valEnd_near n B) as [_ Up].
  apply Z.le_antisymm; [exact Up |]. unfold valEnd.
  pose proof (Z.div_mod (85 * Z.of_nat n) 100 ltac:(lia)) as E.
  pose proof (Z.mod_pos_bound (85 * Z.of_nat n) 100 ltac:(lia)) as R.
  set (m := 85 * Z.of_nat n / 100) in *.
  set (f := (85 * Z.of_nat n) mod 100) in *.
  set (N := inject_Z (Z.of_nat n)).
  assert (HN : (0 <= N)%Q) by apply ofNat_nonneg.
  assert (BN : (N < 4294967296)%Q).
  { unfold N. change 4294967296%Q with (inject_Z (2 ^ 32)). now rewrite <- Zlt_Qlt. }
  assert (EQ : (85 * N == 100 * inject_Z m + inject_Z f)%Q).
  { unfold N. change 85%Q with (inject_Z 85). change 100%Q with (inject_Z 100).
    rewrite <- !inject_Z_mult, <- inject_Z_plus. now rewrite E. }
  assert (F1 : (1 <= inject_Z f)%Q)
    by (change 1%Q with (inject_Z 1); rewrite <- Zle_Qle; lia).
  assert (C : Double.fl (85 # 100) = (7656119366529843 # 9007199254740992)%Q)
    by (vm_compute; reflexivity).
  rewrite C.
  assert (X : (0 <= N * (7656119366529843 # 9007199254740992))%Q)
    by (apply Qmult_le_0_compat; [exact HN | discriminate]).
  destruct (DoubleFacts.fl_bounds _ X) as [L U].
  change Double.u with (1 # 9007199254740992)%Q in L, U.
  set (y := Double.fl _) in *.
  apply Qfloor_ge. lra.
Qed.

(** *** Slices *)

Section Slices.
Context {A : Type}.
Implicit Types all : list A.

Lemma slice_take_drop all (i j : nat) :
  (i <= j)%nat -> (j <= length all)%nat ->
  slice all (Z.of_nat i) (Z.of_nat j) = take (j - i) (drop i all).
Proof.
  intros Hij Hj. unfold slice, relIndex.
  destruct (Z.ltb_spec (Z.of_nat i) 0); [lia |].
  destruct (Z.ltb_spec (Z.of_nat j) 0); [lia |].
  rewrite !Z.min_l by lia. f_equal; [lia |]. f_equal. lia.
Qed.

(** The split step cuts a list at the indices [trainEnd] and [valEnd]:
    the three slices have the sizes these give, which add up to the length;
    put one after the other they are the list again, so that every position
    belongs to exactly one of them. *)
Lemma splitStep_slices all :
  let n := length all in
  let parts := splitStep all in
  Z.of_nat (length parts.(rawTrain)) = trainEnd n
  /\ Z.of_nat (length parts.(validationPart)) = valEnd n - trainEnd n
  /\ Z.of_nat (length parts.(testPart)) = Z.of_nat n - valEnd n
  /\ (length parts.(rawTrain) + length parts.(validationPart)
      + length parts.(testPart))%nat = n
  /\ parts.(rawTrain) ++ parts.(validationPart) ++ parts.(testPart) = all
  /\ (forall i, (i < length parts.(rawTrain))%nat ->
        parts.(rawTrain) !! i = all !! i)
  /\ (forall i, (i < length parts.(validationPart))%nat ->
        parts.(validationPart) !! i
        = all !! (length parts.(rawTrain) + i)%nat)
  /\ (forall i, (i < length parts.(testPart))%nat ->
        parts.(testPart) !! i
        = all !! (length parts.(rawTrain) + length parts.(validationPart)
                  + i)%nat).
Proof.
  intros n parts.
  destruct (cuts_ordered n) as (T0 & TV & VN). fold n in VN.
  set (t := Z.to_nat (trainEnd n)). set (v := Z.to_nat (valEnd n)).
  assert (Et : trainEnd n = Z.of_nat t) by (unfold t; lia).
  assert (Ev : valEnd n = Z.of_nat v) by (unfold v; lia).
  assert (Htv : (t <= v)%nat) by lia.
  assert (Hvn : (v <= n)%nat) by lia.
  assert (R : parts.(rawTrain) = take t all).
  { unfold parts, splitStep. cbn [rawTrain]. fold n. rewrite Et.
    change 0 with (Z.of_nat 0).
    rewrite slice_take_drop by (fold n; lia).
    cbn [drop]. f_equal. lia. }
  assert (V : parts.(validationPart) = take (v - t) (drop t all)).
  { unfold parts, splitStep. cbn [validationPart]. fold n. rewrite Et, Ev.
    apply slice_take_drop; fold n; lia. }
  assert (S : parts.(testPart) = drop v all).
  { unfold parts, splitStep. cbn [testPart]. fold n. rewrite Ev.
    rewrite slice_take_drop by (fold n; lia).
    apply take_ge. rewrite length_drop. fold n. lia. }
  assert (LR : length parts.(rawTrain) = t).
  { rewrite R, length_take. fold n. lia. }
  assert (LV : length parts.(validationPart) = (v - t)%nat).
  { rewrite V, length_take, length_drop. fold n. lia. }
  assert (LS : length parts.(testPart) = (n - v)%nat).
  { rewrite S, length_drop. reflexivity. }
  rewrite LR, LV, LS.
  repeat split; try lia.
  - rewrite R, V, S.
    rewrite app_assoc, take_take_drop.
    replace (t + (v - t))%nat with v by lia. apply take_drop.
  - intros i Hi. rewrite R. now apply lookup_take_lt.
  - intros i Hi. rewrite V. rewrite lookup_take_lt by exact Hi.
    apply lookup_drop.
  - intros i Hi. rewrite S, lookup_drop. f_equal. lia.
Qed.

(** C2, amended.  The split step cuts a list of [n] elements ([n < 2^32],
    as for every JavaScript array) into three slices that, put one after
    the other, are the list again: their sizes add up to [n] and every
    position belongs to exactly one of them.  The cut indices are
    [Math.floor(n * 0.70)] and [Math.floor(n * 0.85)] with the products
    computed in double precision: the train slice has [floor(7n/10)]
    elements, or one less where [7n/10] is an integer, and train and
    validation together [floor(85n/100)], or one less where [85n/100] is an
    integer. *)
Theorem splitStep_partition all :
  Z.of_nat (length all) < 2 ^ 32 ->
  let n := Z.of_nat (length all) in
  let parts := splitStep all in
  let tr := Z.of_nat (length parts.(rawTrain)) in
  let va := Z.of_nat (length parts.(validationPart)) in
  let te := Z.of_nat (length parts.(testPart)) in
  7 * n / 10 - 1 <= tr <= 7 * n / 10
  /\ ((7 * n) mod 10 <> 0 -> tr = 7 * n / 10)
  /\ 85 * n / 100 - 1 <= tr + va <= 85 * n / 100
  /\ ((85 * n) mod 100 <> 0 -> tr + va = 85 * n / 100)
  /\ tr + va + te = n
  /\ parts.(rawTrain) ++ parts.(validationPart) ++ parts.(testPart) = all
  /\ (forall i, (i < length parts.(rawTrain))%nat ->
        parts.(rawTrain) !! i = all !! i)
  /\ (forall i, (i < length parts.(validationPart))%nat ->
        parts.(validationPart) !! i
        = all !! (length parts.(rawTrain) + i)%nat)
  /\ (forall i, (i < length parts.(testPart))%nat ->
        parts.(testPart) !! i
        = all !! (length parts.(rawTrain) + length parts.(validationPart)
                  + i)%nat).
Proof.
  intros B n parts tr va te.
  destruct (splitStep_slices all) as (T & V & S & Sum & Cat & P1 & P2 & P3).
  fold parts in T, V, S, Sum, Cat, P1, P2, P3.
  pose proof (trainEnd_near (length all) B) as TN.
  pose proof (valEnd_near (length all) B) as VN.
  pose proof (trainEnd_exact (length all) B) as TE.
  pose proof (valEnd_exact (length all) B) as VE.
  fold n in TN, VN, TE, VE.
  fold tr in T. fold va in V. fold te in S.
  split; [lia |]. split; [intros H; specialize (TE H); lia |].
  split; [lia |]. split; [intros H; specialize (VE H); lia |].
  split; [lia |]. split; [exact Cat |]. split; [exact P1 |].
  split; [exact P2 | exact P3].
Qed.

End Slices.

Lemma splitStep_partition_witness :
  Z.of_nat (length (rawTrain (splitStep (seq 0 7)))) = 7 * 7 / 10.
Proof.
  apply (splitStep_partition (seq 0 7)); [reflexivity | discriminate].
Defined.

(** Of 90 elements the train slice takes 62, while [floor(90 * 0.70)] is
    63 in exact arithmetic. *)
Lemma splitStep_partition_counterexample :
  Z.of_nat (length (rawTrain (splitStep (seq 0 90))))
  <> Qfloor (inject_Z (Z.of_nat (length (seq 0 90))) * (70 # 100)).
Proof. vm_compute. discriminate. Qed.

(** *** Oversampling *)

Lemma pushTwice_fold xs acc :
  fold_left pushTwice xs acc = acc ++ extraCopies xs.
Proof.
  unfold extraCopies.
  revert acc. induction xs as [| x xs IH]; intros acc; cbn [fold_left flat_map].
  - now rewrite app_nil_r.
  - rewrite IH. unfold pushTwice.
    destruct (noshow x =? 1); cbn; now rewrite <- ?app_assoc.
Qed.

Lemma oversample_appends rawTrain :
  oversample rawTrain = rawTrain ++ extraCopies rawTrain.
Proof. apply pushTwice_fold. Qed.

Lemma oversample_threefold rawTrain : oversample rawTrain ≡ₚ threefold rawTrain.
Proof.
  rewrite oversample_appends. unfold extraCopies, threefold.
  induction rawTrain as [| x xs IH]; [reflexivity |].
  cbn [flat_map app].
  destruct (noshow x =? 1).
  - cbn [app]. apply Permutation_skip.
    rewrite <- IH.
    rewrite (Permutation_app_comm xs), <- !app_comm_cons.
    do 2 apply Permutation_skip. apply Permutation_app_comm.
  - cbn [app]. now apply Permutation_skip.
Qed.

(** C3.  In [buildDataset] only the train partition is oversampled: it is
    a shuffle of the train slice followed by two more copies of each of its
    no-show samples, hence holds every no-show sample of the slice three
    times and every other sample once, while the validation and test
    partitions returned are the slices of the shuffled record list. *)
Theorem buildDataset_oversamples_train_only
    (lowerOther : jsstring -> N -> jsstring -> jsstring)
    (rnd : Random.source) (k : nat) (data : list Data.PatientRecord) :
  Random.inRange rnd ->
  let shuffled := Random.shuffle rnd k (List.map (encode lowerOther) data) in
  let all := fst shuffled in
  let parts := splitStep all in
  let ds := fst (buildDataset lowerOther rnd k data) in
  ds.(validation) = slice all (trainEnd (length all)) (valEnd (length all))
  /\ ds.(test) = slice all (valEnd (length all)) (Z.of_nat (length all))
  /\ ds.(train)
     = fst (Random.shuffle rnd (snd shuffled)
              (parts.(rawTrain) ++ extraCopies parts.(rawTrain)))
  /\ ds.(train) ≡ₚ threefold parts.(rawTrain)
  /\ all ≡ₚ List.map (encode lowerOther) data.
Proof.
  intros _ shuffled all parts ds.
  assert (E : ds = {| train := fst (Random.shuffle rnd (snd shuffled)
                                     (oversample parts.(rawTrain)));
                      validation := parts.(validationPart);
                      test := parts.(testPart) |}).
  { unfold ds, buildDataset, parts, all, shuffled.
    destruct (Random.shuffle rnd k _) as [a k1]. cbn [fst snd].
    destruct (Random.shuffle rnd k1 _) as [tr k2]. reflexivity. }
  rewrite E. cbn [train validation test].
  split; [reflexivity | split; [reflexivity | split; [| split]]].
  - now rewrite oversample_appends.
  - rewrite RandomFacts.shuffle_perm. apply oversample_threefold.
  - apply RandomFacts.shuffle_perm.
Qed.

Lemma buildDataset_oversamples_train_only_witness :
  let all := fst (Random.shuffle Functions.demoDraws 0
                    (List.map (encode (fun _ c _ => [c])) Functions.demoData)) in
  (fst (buildDataset (fun _ c _ => [c]) Functions.demoDraws 0 Functions.demoData)).(test)
  = slice all (valEnd (length all)) (Z.of_nat (length all)).
Proof.
  apply (buildDataset_oversamples_train_only (fun _ c _ => [c])
           Functions.demoDraws 0 Functions.demoData).
  exact FunctionsFacts.demoDraws_inRange.
Defined.

(** *** The evaluator of the text model *)

(** On an empty set every figure is ["0.0"]. *)
Lemma evalSet_empty lowerOther net :
  evalSet lowerOther net []
  = {| acc := lit "0.0"; showRecall := lit "0.0"; noshowRecall := lit "0.0" |}.
Proof. reflexivity. Qed.

(** A class without samples has recall ["0.0"]. *)
Lemma evalSet_recall_guard lowerOther net set :
  ((forall s, s ∈ set -> s.(output) <> lit "yes") ->
     (evalSet lowerOther net set).(showRecall) = lit "0.0")
  /\ ((forall s, s ∈ set -> s.(output) = lit "yes") ->
       (evalSet lowerOther net set).(noshowRecall) = lit "0.0").
Proof.
  unfold evalSet. cbn [showRecall noshowRecall].
  destruct (FunctionsFacts.fold_count_totals
              (fun s => eqb (predLabel lowerOther (orEmpty (net s.(input))))
                          s.(output))
              (fun s => eqb s.(output) (lit "yes")) set Functions.tally0)
    as [A B].
  cbn zeta in A, B. unfold evalSample. split; intros H.
  - rewrite A, FunctionsFacts.filter_none; [reflexivity |].
    intros s Hs. unfold eqb. apply bool_decide_eq_false. now apply H.
  - rewrite B, FunctionsFacts.filter_none; [reflexivity |].
    intros s Hs. unfold eqb. rewrite (H s Hs). reflexivity.
Qed.

(** The small dataset: two train samples, no validation sample, one test
    sample; a network that always answers "No". *)
Example buildDataset_demo :
  let ds := fst (buildDataset (fun _ c _ => [c]) Functions.demoDraws 0
                   Functions.demoData) in
  List.map input ds.(train)
  = [lit "male age8 wait2 sms"; lit "female age35 wait14 sms scholarship"]
  /\ ds.(validation) = []
  /\ List.map input ds.(test) = [lit "female age62 sameday nosms hypertension"].
Proof. vm_compute. repeat split; reflexivity. Qed.

Example evalSet_demo :
  evalSet (fun _ c _ => [c]) (fun _ => Some (lit " No"))
    (List.map (encode (fun _ c _ => [c])) Functions.demoData)
  = {| acc := lit "33.3"; showRecall := lit "0.0"; noshowRecall := lit "100.0" |}.
Proof. vm_compute. reflexivity. Qed.

End LstmWorkerFacts.

(** ** The worker manager *)

Module LstmFacts.
Import JsString Lstm.

(** Without a worker, or before [lstmState.trained] is set, the promise is
    rejected at once and nothing else happens. *)
Lemma predictFromText_guard st text :
  st.(worker) = None \/ st.(trained) = false ->
  predictFromText st text = (st, RejectedNow (lit "LSTM not trained yet")).
Proof.
  intros [H | H]; unfold predictFromText; rewrite H; [reflexivity |].
  now destruct (worker st).
Qed.

(** Past the guard the request is posted to the worker and a listener is
    registered. *)
Lemma predictFromText_posts st w text :
  st.(worker) = Some w -> st.(trained) = true ->
  exists w', (fst (predictFromText st text)).(worker) = Some w'
    /\ w'.(posted) = w.(posted) ++ [Predict text]
    /\ w'.(listeners) = w.(listeners) ++ [st.(promises)]
    /\ snd (predictFromText st text) = Pending st.(promises).
Proof.
  intros Hw Ht. unfold predictFromText. rewrite Hw, Ht. cbn.
  eexists. repeat split.
Qed.

(** [lstmState.trained] is set by the message [done] only. *)
Lemma step_trained st e :
  isDone e = false -> (step st e).(trained) = st.(trained).
Proof.
  intros H. destruct e as [data | text | msg | m]; cbn.
  - reflexivity.
  - unfold predictFromText.
    destruct (worker st); [destruct (trained st) eqn:E |]; cbn; congruence.
  - unfold deliver. destruct (worker st); [| reflexivity].
    destruct msg; cbn; try reflexivity. discriminate H.
  - reflexivity.
Qed.

Lemma run_trained events st :
  forallb (fun e => negb (isDone e)) events = true ->
  (fold_left step events st).(trained) = st.(trained).
Proof.
  revert st. induction events as [| e events IH]; intros st H; [reflexivity |].
  cbn [forallb] in H. apply andb_true_iff in H. destruct H as [He Hs].
  cbn [fold_left]. rewrite (IH _ Hs). apply step_trained.
  now apply negb_true_iff.
Qed.

(** C9.  Whatever has happened on the interactive thread since the module
    was loaded, as long as no [done] message has been received, a call of
    [predictFromText] rejects its promise immediately with the error
    "LSTM not trained yet": no request is posted to a worker and no listener
    is registered. *)
Theorem predict_before_done_rejected (events : list Event) (text : jsstring) :
  forallb (fun e => negb (isDone e)) events = true ->
  predictFromText (run events) text
  = (run events, RejectedNow (lit "LSTM not trained yet")).
Proof.
  intros H. apply predictFromText_guard. right.
  unfold run. now rewrite (run_trained events initial H).
Qed.

Lemma predict_before_done_rejected_witness :
  predictFromText
    (run [CallPredict (lit "male age30");
          CallTrain Functions.demoData;
          Receive (Log (lit "[INIT]"));
          Receive (Progress 10 (JsNumber.Fin (1 # 4)));
          Receive (Error (lit "failed"))])
    (lit "female age62 sameday nosms")
  = (run [CallPredict (lit "male age30");
          CallTrain Functions.demoData;
          Receive (Log (lit "[INIT]"));
          Receive (Progress 10 (JsNumber.Fin (1 # 4)));
          Receive (Error (lit "failed"))],
     RejectedNow (lit "LSTM not trained yet")).
Proof. apply predict_before_done_rejected. reflexivity. Defined.

(** After a [done] message the same call is posted to the worker. *)
Example predict_after_done :
  snd (predictFromText
         (run [CallTrain Functions.demoData;
               Receive (Done (mkDoneMetrics (lit "66.7") (lit "50.0")
                                (lit "100.0") (lit "0.0")))])
         (lit "male age30"))
  = Pending 0.
Proof. reflexivity. Qed.

End LstmFacts.

(** ** The configuration computed at start-up *)

Module ConfigurationFacts.
Import JsString Data Functions.

(** *** Bounds *)

Lemma lower_raise_attained b v :
  (raise (lower b v) v).(min) = b.(min) \/ (raise (lower b v) v).(min) = v.
Proof.
  unfold raise, lower.
  destruct (Qlt_le_dec v (min b)); cbn; destruct (Qlt_le_dec _ v); cbn; auto.
Qed.

Lemma lower_raise_attained_max b v :
  (raise (lower b v) v).(max) = b.(max) \/ (raise (lower b v) v).(max) = v.
Proof.
  unfold raise, lower.
  destruct (Qlt_le_dec v (min b)); cbn; destruct (Qlt_le_dec _ v); cbn; auto.
Qed.

Lemma scan_attained data c :
  let c' := fold_left scanRecord data c in
  (c'.(cfg_age).(min) = c.(cfg_age).(min)
   \/ exists r, r ∈ data /\ c'.(cfg_age).(min) = inject_Z r.(age))
  /\ (c'.(cfg_age).(max) = c.(cfg_age).(max)
      \/ exists r, r ∈ data /\ c'.(cfg_age).(max) = inject_Z r.(age))
  /\ (c'.(cfg_days).(min) = c.(cfg_days).(min)
      \/ exists r, r ∈ data /\ c'.(cfg_days).(min) = inject_Z r.(days_wait))
  /\ (c'.(cfg_days).(max) = c.(cfg_days).(max)
      \/ exists r, r ∈ data /\ c'.(cfg_days).(max) = inject_Z r.(days_wait)).
Proof.
  revert c. induction data as [| r data IH]; intros c; cbn [fold_left].
  - cbn. tauto.
  - specialize (IH (scanRecord c r)). cbn zeta in IH.
    destruct IH as (A & B & C & D).
    assert (W : forall (P : PatientRecord -> Prop),
               (exists x, x ∈ data /\ P x) -> exists x, x ∈ r :: data /\ P x).
    { intros P (x & Hx & Px). exists x. split; [apply elem_of_cons; now right | exact Px]. }
    assert (H : r ∈ r :: data) by (apply elem_of_cons; now left).
    cbn zeta. cbn [scanRecord cfg_age cfg_days] in A, B, C, D.
    repeat split.
    + destruct A as [A | A]; [| right; now apply W].
      rewrite A. destruct (lower_raise_attained (cfg_age c) (inject_Z (age r))) as [E | E];
        rewrite E; [now left | right; now exists r].
    + destruct B as [B | B]; [| right; now apply W].
      rewrite B. destruct (lower_raise_attained_max (cfg_age c) (inject_Z (age r))) as [E | E];
        rewrite E; [now left | right; now exists r].
    + destruct C as [C | C]; [| right; now apply W].
      rewrite C. destruct (lower_raise_attained (cfg_days c) (inject_Z (days_wait r))) as [E | E];
        rewrite E; [now left | right; now exists r].
    + destruct D as [D | D]; [| right; now apply W].
      rewrite D. destruct (lower_raise_attained_max (cfg_days c) (inject_Z (days_wait r))) as [E | E];
        rewrite E; [now left | right; now exists r].
Qed.

(** The bounds computed are the extremes of the starting bounds and of the
    data: never inside the starting bounds, and each of them either the
    starting bound or the value of some record. *)
Theorem initConfiguration_extremes (c0 : Configuration) (data : list PatientRecord) :
  let c := initConfiguration c0 data in
  widens c0.(cfg_age) c.(cfg_age)
  /\ widens c0.(cfg_days) c.(cfg_days)
  /\ (c.(cfg_age).(min) = c0.(cfg_age).(min)
      \/ exists r, r ∈ data /\ c.(cfg_age).(min) = inject_Z r.(age))
  /\ (c.(cfg_age).(max) = c0.(cfg_age).(max)
      \/ exists r, r ∈ data /\ c.(cfg_age).(max) = inject_Z r.(age))
  /\ (c.(cfg_days).(min) = c0.(cfg_days).(min)
      \/ exists r, r ∈ data /\ c.(cfg_days).(min) = inject_Z r.(days_wait))
  /\ (c.(cfg_days).(max) = c0.(cfg_days).(max)
      \/ exists r, r ∈ data /\ c.(cfg_days).(max) = inject_Z r.(days_wait)).
Proof.
  intros c. unfold c, initConfiguration. cbn [cfg_age cfg_days].
  destruct (FunctionsFacts.scan_widens data c0) as [A D].
  split; [exact A | split; [exact D |]].
  apply scan_attained.
Qed.

(** After at least one record the bounds are ordered, [min <= max],
    whatever the configuration started with. *)
Theorem initConfiguration_ordered (c0 : Configuration) (data : list PatientRecord) :
  data <> [] ->
  let c := initConfiguration c0 data in
  (c.(cfg_age).(min) <= c.(cfg_age).(max))%Q
  /\ (c.(cfg_days).(min) <= c.(cfg_days).(max))%Q.
Proof.
  intros H c. destruct data as [| r data]; [congruence |].
  destruct (FunctionsFacts.initConfiguration_covers c0 (r :: data) r)
    as [[A1 A2] [D1 D2]]; [apply elem_of_cons; now left |].
  fold c in A1, A2, D1, D2. split; lra.
Qed.

Lemma initConfiguration_ordered_witness :
  ((initConfiguration demoStart demoData).(cfg_age).(min)
   <= (initConfiguration demoStart demoData).(cfg_age).(max))%Q.
Proof.
  apply (initConfiguration_ordered demoStart demoData). discriminate.
Defined.

(** Without records the starting bounds are kept, inverted or not. *)
Example initConfiguration_no_record :
  (initConfiguration demoStart []).(cfg_age) = mkBounds 120 0.
Proof. reflexivity. Qed.

(** *** The list of neighbourhoods *)

Lemma ltb_irrefl a : ltb a a = false.
Proof.
  induction a as [| x a IH]; [reflexivity |]. cbn.
  rewrite N.ltb_irrefl, N.eqb_refl, IH. reflexivity.
Qed.

Lemma ltb_asym a b : ltb a b = true -> ltb b a = false.
Proof.
  revert b. induction a as [| x a IH]; intros [| y b]; cbn; try congruence.
  intros H. apply orb_true_iff in H.
  destruct (N.ltb_spec y x) as [L | L]; cbn.
  - destruct H as [H | H].
    + apply N.ltb_lt in H. lia.
    + apply andb_true_iff in H. destruct H as [H _]. apply N.eqb_eq in H. lia.
  - destruct (N.eqb_spec y x) as [E | E]; [| reflexivity]. cbn.
    destruct H as [H | H].
    + apply N.ltb_lt in H. lia.
    + apply andb_true_iff in H. destruct H as [_ H]. now apply IH.
Qed.

(** Two strings neither of which is before the other are the same. *)
Lemma ltb_total a b : ltb a b = false -> ltb b a = false -> a = b.
Proof.
  revert b. induction a as [| x a IH]; intros [| y b]; cbn; try congruence.
  intros H1 H2. apply orb_false_iff in H1, H2.
  destruct H1 as [L1 E1]. destruct H2 as [L2 E2].
  apply N.ltb_ge in L1, L2. assert (x = y) by lia. subst y.
  rewrite N.eqb_refl in E1, E2. cbn in E1, E2. f_equal. now apply IH.
Qed.

Lemma insertSorted_perm s l : insertSorted s l ≡ₚ s :: l.
Proof.
  induction l as [| t l IH]; [reflexivity |]. cbn.
  destruct (ltb s t); [reflexivity |].
  rewrite IH. apply Permutation_swap.
Qed.

Lemma insertSorted_sorted s l :
  Sorted notAfter l -> Sorted notAfter (insertSorted s l).
Proof.
  induction l as [| t l IH]; intros S; cbn.
  - repeat constructor.
  - destruct (ltb s t) eqn:E.
    + constructor; [exact S |]. constructor. unfold notAfter. now apply ltb_asym.
    + apply Sorted_inv in S. destruct S as [S Hd].
      constructor; [now apply IH |].
      destruct l as [| t' l']; cbn.
      * constructor. exact E.
      * destruct (ltb s t'); constructor; [exact E |].
        now apply HdRel_inv in Hd.
Qed.

Lemma sort_perm l : sort l ≡ₚ l.
Proof.
  unfold sort. induction l as [| s l IH]; [reflexivity |].
  cbn. now rewrite insertSorted_perm, IH.
Qed.

Lemma sort_sorted l : Sorted notAfter (sort l).
Proof.
  unfold sort. induction l as [| s l IH]; cbn; [constructor |].
  now apply insertSorted_sorted.
Qed.

Lemma includes_spec l s : includes l s = true <-> s ∈ l.
Proof.
  unfold includes, eqb. rewrite existsb_exists. split.
  - intros (x & Hx & E). apply bool_decide_eq_true in E. subst x.
    now apply list_elem_of_In.
  - intros H. exists s. split; [now apply list_elem_of_In |].
    now apply bool_decide_eq_true.
Qed.

Lemma scan_hoods data c :
  let h := (fold_left scanRecord data c).(hoods) in
  (NoDup c.(hoods) -> NoDup h)
  /\ (forall s, s ∈ h <-> s ∈ c.(hoods) \/ exists r, r ∈ data /\ s = r.(neighbourhood)).
Proof.
  revert c. induction data as [| r data IH]; intros c; cbn [fold_left].
  - cbn. split; [auto |]. intros s. split; [auto |].
    intros [H | (r & Hr & _)]; [exact H | inversion Hr].
  - specialize (IH (scanRecord c r)). cbn zeta in IH. destruct IH as [ND M].
    cbn [scanRecord hoods] in ND, M. cbn zeta.
    destruct (includes (hoods c) (neighbourhood r)) eqn:I.
    + apply includes_spec in I. split; [exact ND |].
      intros s. rewrite M. split.
      * intros [H | (x & Hx & E)]; [now left |].
        right. exists x. split; [apply elem_of_cons; now right | exact E].
      * intros [H | (x & Hx & E)]; [now left |].
        apply elem_of_cons in Hx. destruct Hx as [-> | Hx].
        -- left. now subst s.
        -- right. now exists x.
    + assert (NI : neighbourhood r ∉ hoods c).
      { intros H. apply includes_spec in H. congruence. }
      split.
      * intros H. apply ND. apply NoDup_app. split; [exact H |].
        split; [| apply NoDup_singleton].
        intros x Hx Hx'. apply list_elem_of_singleton in Hx'. now subst x.
      * intros s. rewrite M, elem_of_app, list_elem_of_singleton. split.
        -- intros [[H | H] | (x & Hx & E)].
           ++ now left.
           ++ right. exists r. split; [apply elem_of_cons; now left | exact H].
           ++ right. exists x. split; [apply elem_of_cons; now right | exact E].
        -- intros [H | (x & Hx & E)]; [left; now left |].
           apply elem_of_cons in Hx. destruct Hx as [-> | Hx].
           ++ left. now right.
           ++ right. now exists x.
Qed.

(** The list [hoods] after [initConfiguration] is in code-unit order, holds
    the neighbourhood of every record and every name it started with and
    nothing else, and no name twice if it started without repetition. *)
Theorem initConfiguration_hoods (c0 : Configuration) (data : list PatientRecord) :
  let h := (initConfiguration c0 data).(hoods) in
  Sorted (fun a b => ltb b a = false) h
  /\ (forall s, s ∈ h <-> s ∈ c0.(hoods) \/ exists r, r ∈ data /\ s = r.(neighbourhood))
  /\ (NoDup c0.(hoods) -> NoDup h).
Proof.
  intros h. unfold h, initConfiguration. cbn [hoods].
  destruct (scan_hoods data c0) as [ND M]. cbn zeta in ND, M.
  split; [apply sort_sorted | split].
  - intros s. rewrite <- M. now rewrite sort_perm.
  - intros H. rewrite sort_perm. now apply ND.
Qed.

End ConfigurationFacts.

(** ** More on min-max scaling *)

Module ScalingFacts.
Import JsString Data Functions.



(** Two values above [max] that scale to exactly 1. *)
Example normalizeData_merges :
  (normalizeData (1 # 2) (- inject_Z (2 ^ 53)) 0 == 1)%Q
  /\ (normalizeData 1 (- inject_Z (2 ^ 53)) 0 == 1)%Q.
Proof. split; vm_compute; reflexivity. Qed.



End ScalingFacts.

(** ** More on the class-balancing sampler *)

Module SamplerFacts.
Import JsString Data Functions.

Lemma filter_length_perm {X : Type} (f : X -> bool) (l l' : list X) :
  l ≡ₚ l' -> length (List.filter f l) = length (List.filter f l').
Proof.
  induction 1 as [| x l l' _ IH | x y l | l l' l'' _ IH1 _ IH2]; cbn.
  - reflexivity.
  - destruct (f x); cbn; now rewrite IH.
  - destruct (f x), (f y); reflexivity.
  - now rewrite IH1.
Qed.

Lemma balanced_labels c data :
  length (List.filter (fun s => s.(output) =? 1) (balanced c data))
  = (3 * positives data)%nat
  /\ length (List.filter (fun s => negb (s.(output) =? 1)) (balanced c data))
     = negatives data.
Proof.
  unfold balanced, positives, negatives, isPositive.
  induction data as [| r data [IH1 IH2]]; [split; reflexivity |].
  cbn [flat_map List.filter]. rewrite !List.filter_app, !length_app, IH1, IH2.
  unfold entryOf at 1 2 3 4 5 6 7 8. cbn [output List.filter].
  destruct (noshow r =? 1) eqn:E; cbn [List.filter output negb length app];
    rewrite ?E; cbn; split; lia.
Qed.

(** Among the samples returned, those labelled no-show are three times the
    no-show records and the others are as many as the other records; the
    same list is stored in [myBrain.trainingData], and the shuffle has made
    one draw less than there are samples. *)
Theorem prepareTrainingData_labels (c : Configuration) (rnd : Random.source)
    (k : nat) (data : list PatientRecord) :
  Random.inRange rnd ->
  let '(samples, brain, k') := prepareTrainingData c rnd k data in
  length (List.filter (fun s => s.(output) =? 1) samples) = (3 * positives data)%nat
  /\ length (List.filter (fun s => negb (s.(output) =? 1)) samples) = negatives data
  /\ brain.(trainingData) = samples
  /\ k' = (k + (length samples - 1))%nat.
Proof.
  intros _. unfold prepareTrainingData.
  pose proof (RandomFacts.shuffle_perm rnd k (fold_left (pushRecord c) data [])) as P.
  pose proof (RandomFacts.shuffleFrom_calls rnd
                (length (fold_left (pushRecord c) data []) - 1) k
                (fold_left (pushRecord c) data [])) as K.
  fold (Random.shuffle rnd k (fold_left (pushRecord c) data [])) in K.
  destruct (Random.shuffle rnd k _) as [shuffled k'] eqn:E. cbn [fst snd] in *.
  rewrite FunctionsFacts.pushRecord_fold in P. cbn [app] in P.
  fold (balanced c data) in P.
  destruct (balanced_labels c data) as [B1 B2].
  rewrite (filter_length_perm _ _ _ P), (filter_length_perm _ _ _ P).
  split; [exact B1 | split; [exact B2 | split; [reflexivity |]]].
  rewrite K. f_equal. f_equal. now rewrite P, FunctionsFacts.pushRecord_fold.
Qed.

Lemma prepareTrainingData_labels_witness :
  length (List.filter (fun s => s.(output) =? 1)
            (fst (fst (prepareTrainingData demoConfiguration demoDraws 0 demoData))))
  = 3%nat.
Proof.
  pose proof (prepareTrainingData_labels demoConfiguration demoDraws 0 demoData
                FunctionsFacts.demoDraws_inRange) as H.
  destruct (prepareTrainingData demoConfiguration demoDraws 0 demoData)
    as [[samples brain] k'].
  destruct H as [H _]. exact H.
Defined.

End SamplerFacts.

(** ** More on the shuffle and the split *)

Module SplitFacts.
Import JsString LstmWorker.

(** With draws in [0,1) the index [Math.floor(Math.random() * (i + 1))]
    never exceeds [i], although the product is rounded, and every swap of
    the Fisher-Yates loop exchanges two cells of the array; the loop makes
    one draw for each index from the last one down to 1. *)
Theorem shuffle_swaps_inside {A : Type} (rnd : Random.source) (k : nat)
    (a : list A) :
  Random.inRange rnd ->
  (forall i j, (Random.randomIndex (rnd j) i <= i)%nat)
  /\ Random.swapsInside rnd (length a - 1) k a
  /\ snd (Random.shuffle rnd k a) = (k + (length a - 1))%nat.
Proof.
  intros R.
  assert (B : forall i j, (Random.randomIndex (rnd j) i <= i)%nat).
  { intros i j. destruct (R j) as [R0 R1]. now apply RandomFacts.randomIndex_le. }
  split; [exact B | split; [| apply RandomFacts.shuffleFrom_calls]].
  assert (G : forall i k' (b : list A),
             (i < length b)%nat \/ i = 0%nat -> Random.swapsInside rnd i k' b).
  { induction i as [| i IH]; intros k' b Hi; [exact I |].
    cbn [Random.swapsInside]. destruct Hi as [Hi | Hi]; [| discriminate].
    split; [split; [exact Hi | apply B] |].
    apply IH. left. rewrite RandomFacts.swap_length. lia. }
  apply G. destruct a; cbn; [now right | left; lia].
Qed.

Lemma shuffle_swaps_inside_witness :
  (Random.randomIndex (Functions.demoDraws 3) 9 <= 9)%nat.
Proof.
  apply (shuffle_swaps_inside Functions.demoDraws 0 (@nil nat)).
  exact FunctionsFacts.demoDraws_inRange.
Defined.

(** *** Sizes of the three partitions *)

Lemma splitStep_lengths {A : Type} (all : list A) :
  let n := length all in
  Z.of_nat (length (splitStep all).(rawTrain)) = trainEnd n
  /\ Z.of_nat (length (splitStep all).(validationPart)) = valEnd n - trainEnd n
  /\ Z.of_nat (length (splitStep all).(testPart)) = Z.of_nat n - valEnd n.
Proof.
  intros n. destruct (LstmWorkerFacts.cuts_ordered n) as (T0 & TV & VN).
  set (t := Z.to_nat (trainEnd n)). set (v := Z.to_nat (valEnd n)).
  assert (Et : trainEnd n = Z.of_nat t) by (unfold t; lia).
  assert (Ev : valEnd n = Z.of_nat v) by (unfold v; lia).
  unfold splitStep. cbn [rawTrain validationPart testPart]. fold n.
  rewrite Et, Ev. change 0 with (Z.of_nat 0).
  rewrite !LstmWorkerFacts.slice_take_drop by (fold n; lia).
  rewrite !length_take, !length_drop. fold n. cbn [drop]. fold n. lia.
Qed.

Lemma small_cuts :
  forallb (fun n => (0 <? valEnd n - trainEnd n) && (0 <? trainEnd n))
    (seq 4 16) = true
  /\ forallb (fun n => valEnd n - trainEnd n =? 0) (seq 0 4) = true
  /\ trainEnd 0 = 0 /\ trainEnd 1 = 0 /\ trainEnd 2 = 1 /\ trainEnd 3 = 2.
Proof. vm_compute. repeat split; reflexivity. Qed.

(** For a list of [n] elements (a JavaScript array, so [n < 2^32]): the
    train slice has [floor(7n/10)] elements or one less, train and
    validation together [floor(85n/100)] or one less; the test slice is
    empty only for the empty list, the train slice only for [n <= 1], and
    the validation slice exactly for [n <= 3]. *)
Theorem splitStep_sizes {A : Type} (all : list A) :
  Z.of_nat (length all) < 2 ^ 32 ->
  let n := Z.of_nat (length all) in
  let tr := Z.of_nat (length (splitStep all).(rawTrain)) in
  let va := Z.of_nat (length (splitStep all).(validationPart)) in
  let te := Z.of_nat (length (splitStep all).(testPart)) in
  7 * n / 10 - 1 <= tr <= 7 * n / 10
  /\ 85 * n / 100 - 1 <= tr + va <= 85 * n / 100
  /\ (te = 0 <-> n = 0)
  /\ (tr = 0 <-> n <= 1)
  /\ (va = 0 <-> n <= 3).
Proof.
  intros B n tr va te.
  destruct (splitStep_lengths all) as (L1 & L2 & L3). cbn zeta in L1, L2, L3.
  fold tr in L1. fold va in L2. fold te in L3. fold n in L3.
  pose proof (LstmWorkerFacts.trainEnd_near (length all) B) as T.
  pose proof (LstmWorkerFacts.valEnd_near (length all) B) as V.
  fold n in T, V.
  destruct (LstmWorkerFacts.cuts_ordered (length all)) as (T0 & TV & VN).
  fold n in VN.
  rewrite L1, L2, L3. clear L1 L2 L3 tr va te.
  assert (N0 : 0 <= n) by (unfold n; lia).
  assert (Small : n < 20 ->
            (valEnd (length all) - trainEnd (length all) = 0 <-> n <= 3)
            /\ (trainEnd (length all) = 0 <-> n <= 1)).
  { intros Hn. destruct small_cuts as (S1 & S2 & E0 & E1 & E2 & E3).
    rewrite forallb_forall in S1, S2.
    destruct (Z_le_dec n 3) as [H3 | H3].
    - assert (I : In (length all) (seq 0 4)) by (apply in_seq; unfold n in *; lia).
      apply S2 in I. apply Z.eqb_eq in I.
      split; [tauto |].
      assert (C : length all = 0%nat \/ length all = 1%nat \/ length all = 2%nat
                  \/ length all = 3%nat) by (unfold n in *; lia).
      unfold n.
      destruct C as [C | [C | [C | C]]]; rewrite C;
        rewrite ?E0, ?E1, ?E2, ?E3; cbn; lia.
    - assert (I : In (length all) (seq 4 16)) by (apply in_seq; unfold n in *; lia).
      apply S1 in I. apply andb_true_iff in I. destruct I as [I1 I2].
      apply Z.ltb_lt in I1, I2. lia. }
  set (t := trainEnd (length all)) in *. set (v := valEnd (length all)) in *.
  pose proof (Z.div_mod (85 * n) 100 ltac:(lia)) as D85.
  pose proof (Z.mod_pos_bound (85 * n) 100 ltac:(lia)) as M85.
  pose proof (Z.div_mod (7 * n) 10 ltac:(lia)) as D70.
  pose proof (Z.mod_pos_bound (7 * n) 10 ltac:(lia)) as M70.
  set (q85 := 85 * n / 100) in *. set (q70 := 7 * n / 10) in *.
  split; [exact T | split; [lia | split; [lia |]]].
  destruct (Z_lt_dec n 20) as [Hn | Hn].
  - destruct (Small Hn) as [S1 S2]. split; [exact S2 | exact S1].
  - clear Small. lia.
Qed.

Lemma splitStep_sizes_witness :
  Z.of_nat (length (splitStep [1; 2; 3; 4; 5]).(validationPart)) = 0 <-> 5 <= 3.
Proof.
  apply (splitStep_sizes [1; 2; 3; 4; 5]). reflexivity.
Defined.

End SplitFacts.

(** ** More on the worker manager *)

Module ManagerFacts.
Import JsString Lstm.

Lemma step_keeps_trained st e : st.(trained) = true -> (step st e).(trained) = true.
Proof.
  intros H. destruct e as [data | text | msg | m]; cbn.
  - exact H.
  - unfold predictFromText. rewrite H. now destruct (worker st).
  - unfold deliver. destruct (worker st); [| exact H].
    destruct msg; cbn; auto.
  - exact H.
Qed.

Lemma run_keeps_trained events st :
  st.(trained) = true -> (fold_left step events st).(trained) = true.
Proof.
  revert st. induction events as [| e events IH]; intros st H; [exact H |].
  cbn [fold_left]. apply IH. now apply step_keeps_trained.
Qed.

(** [lstmState.trained] is never reset.  Once a training has completed,
    whatever happens next, a call of [predictFromText] right after a new
    [trainLstm] is accepted: the request is posted to the fresh worker,
    behind its [train] request. *)
Theorem predict_after_retrain (st : State) (events : list Event)
    (data : list Data.PatientRecord) (text : jsstring) :
  st.(trained) = true ->
  let st' := trainLstm (fold_left step events st) data in
  predictFromText st' text
  = ({| worker := Some {| posted := [Train data; Predict text];
                          listeners := [st'.(promises)] |};
        trained := true;
        promises := S st'.(promises) |},
     Pending st'.(promises)).
Proof.
  intros H st'.
  assert (T : st'.(trained) = true) by (apply (run_keeps_trained events st H)).
  unfold predictFromText. rewrite T. reflexivity.
Qed.

Lemma predict_after_retrain_witness :
  snd (predictFromText
         (trainLstm
            (fold_left step [Receive (Error (lit "failed"))]
               (run [CallTrain Functions.demoData;
                     Receive (Done (mkDoneMetrics (lit "66.7") (lit "50.0")
                                      (lit "100.0") (lit "0.0")))]))
            Functions.demoData)
         (lit "male age30"))
  = Pending 0.
Proof.
  pose proof (predict_after_retrain
                (run [CallTrain Functions.demoData;
                      Receive (Done (mkDoneMetrics (lit "66.7") (lit "50.0")
                                       (lit "100.0") (lit "0.0")))])
                [Receive (Error (lit "failed"))] Functions.demoData
                (lit "male age30") eq_refl) as H.
  cbn zeta in H. rewrite H. reflexivity.
Defined.

(** *** Pending promises *)

Lemma predicts_accumulate ts st w :
  st.(worker) = Some w -> st.(trained) = true ->
  fold_left step (List.map CallPredict ts) st
  = {| worker := Some {| posted := w.(posted) ++ List.map Predict ts;
                         listeners := w.(listeners)
                                      ++ seq st.(promises) (length ts) |};
       trained := true;
       promises := (st.(promises) + length ts)%nat |}.
Proof.
  revert st w. induction ts as [| t ts IH]; intros st w Hw Ht.
  - cbn. rewrite !app_nil_r, Nat.add_0_r.
    destruct st as [wk tr pr]. cbn in *. subst. now destruct w.
  - cbn [List.map fold_left step]. unfold predictFromText at 1.
    rewrite Hw, Ht. cbn [fst].
    erewrite IH; [| reflexivity | reflexivity].
    cbn [posted listeners promises length seq].
    rewrite <- !app_assoc. cbn [app].
    f_equal. lia.
Qed.

(** Each pending promise listens to every reply.  When several predictions
    are in flight, the first [prediction] message resolves all of them with
    the same label and removes their listeners; the replies that follow
    resolve nothing. *)
Theorem first_reply_settles_all (st : State) (w : WorkerHandle)
    (ts : list jsstring) (label cleaned label' cleaned' : jsstring) :
  st.(worker) = Some w -> st.(trained) = true ->
  let st1 := fold_left step (List.map CallPredict ts) st in
  let pending := w.(listeners) ++ seq st.(promises) (length ts) in
  snd (deliver st1 (Prediction label cleaned))
  = List.map (fun p => (p, Resolved label cleaned)) pending
  /\ snd (deliver (step st1 (Receive (Prediction label cleaned)))
            (Prediction label' cleaned'))
     = [].
Proof.
  intros Hw Ht st1 pending. unfold st1.
  rewrite (predicts_accumulate ts st w Hw Ht). split; reflexivity.
Qed.

Lemma first_reply_settles_all_witness :
  snd (deliver
         (fold_left step
            (List.map CallPredict [lit "male age30"; lit "female age62"])
            (run [CallTrain Functions.demoData;
                  Receive (Done (mkDoneMetrics (lit "66.7") (lit "50.0")
                                   (lit "100.0") (lit "0.0")))]))
         (Prediction (lit "noshow") (lit "male age30")))
  = [(0%nat, Resolved (lit "noshow") (lit "male age30"));
     (1%nat, Resolved (lit "noshow") (lit "male age30"))].
Proof.
  apply (first_reply_settles_all
           (run [CallTrain Functions.demoData;
                 Receive (Done (mkDoneMetrics (lit "66.7") (lit "50.0")
                                  (lit "100.0") (lit "0.0")))])
           {| posted := [Train Functions.demoData]; listeners := [] |}
           [lit "male age30"; lit "female age62"]
           (lit "noshow") (lit "male age30") (lit "noshow") (lit "male age30"));
    reflexivity.
Defined.

(** *** Promises left behind by a new training *)

Lemma step_fresh p0 st e : fresh p0 st -> fresh p0 (step st e).
Proof.
  intros F. pose proof F as [P L].
  destruct e as [data | text | msg | m]; cbn [step].
  - split; [exact P |]. intros w E. injection E as <-. constructor.
  - unfold predictFromText.
    destruct (worker st) as [w |] eqn:Hw; [| exact F].
    destruct (trained st); [| exact F].
    cbn [fst]. split; [cbn; lia |].
    cbn. intros w' E. injection E as <-. cbn.
    apply Forall_app. split; [now apply L |].
    apply Forall_cons. split; [exact P | apply Forall_nil; exact I].
  - unfold deliver. destruct (worker st) as [w |] eqn:Hw; [| exact F].
    assert (E : fresh p0 {| worker := Some {| posted := posted w; listeners := [] |};
                            trained := trained st; promises := promises st |}).
    { split; [exact P |]. cbn. intros w' E. injection E as <-. constructor. }
    destruct msg; cbn; first [exact F | exact E].
  - exact F.
Qed.

Lemma settlements_fresh p0 events st :
  fresh p0 st -> Forall (fun s => (p0 <= fst s)%nat) (settlements st events).
Proof.
  revert st. induction events as [| e events IH]; intros st F; [constructor |].
  cbn [settlements]. apply Forall_app. split; [| apply IH; now apply step_fresh].
  destruct e as [data | text | msg | m]; try constructor.
  destruct F as [P L]. unfold deliver.
  destruct (worker st) as [w |] eqn:Hw; [| constructor].
  specialize (L w eq_refl).
  destruct msg; cbn; try constructor;
    apply Forall_forall; intros [p o] Hp; apply list_elem_of_In, in_map_iff in Hp;
    destruct Hp as (q & E & Hq); injection E as <- _; cbn;
    rewrite Forall_forall in L; apply L; now apply list_elem_of_In.
Qed.

(** [trainLstm] replaces the worker together with its listeners: a
    promise that was pending at that moment is never settled afterwards,
    whatever messages arrive. *)
Theorem retrain_orphans_pending (st : State) (data : list Data.PatientRecord)
    (events : list Event) (p : nat) (outcome : Settled) :
  (p < st.(promises))%nat ->
  (p, outcome) ∉ settlements (trainLstm st data) events.
Proof.
  intros Hp Hin.
  assert (F : fresh st.(promises) (trainLstm st data)).
  { split; [cbn; lia |]. intros w E. injection E as <-. constructor. }
  pose proof (settlements_fresh _ events _ F) as S.
  rewrite Forall_forall in S. apply S in Hin. cbn in Hin. lia.
Qed.

Lemma retrain_orphans_pending_witness :
  (0%nat, Resolved (lit "noshow") (lit "male age30"))
  ∉ settlements
      (trainLstm
         (fold_left step [CallPredict (lit "male age30")]
            (run [CallTrain Functions.demoData;
                  Receive (Done (mkDoneMetrics (lit "66.7") (lit "50.0")
                                   (lit "100.0") (lit "0.0")))]))
         Functions.demoData)
      [Receive (Prediction (lit "noshow") (lit "male age30"))].
Proof.
  apply retrain_orphans_pending. cbn. lia.
Defined.

End ManagerFacts.

(** ** More on the text encoding *)

Module EncodingFacts.
Import JsString Data Text.

(** *** Decimal digits *)

Lemma uint_digits d :
  forallb isLowerAlnum (lit (NilEmpty.string_of_uint d)) = true.
Proof. induction d; cbn; auto. Qed.

Lemma ofInt_abs z :
  forallb isLowerAlnum (ofInt (Z.abs z)) = true /\ ofInt (Z.abs z) <> [].
Proof.
  unfold ofInt.
  assert (U : forall d, forallb isLowerAlnum (lit (NilZero.string_of_uint d)) = true
                        /\ lit (NilZero.string_of_uint d) <> []).
  { intros d. split.
    - destruct d; try apply uint_digits. reflexivity.
    - destruct d; discriminate. }
  destruct z; cbn [Z.abs Z.to_int NilZero.string_of_int]; apply U.
Qed.

Lemma ofInt_sign z :
  ofInt z = (if z <? 0 then [45%N] else []) ++ ofInt (Z.abs z).
Proof. destruct z; reflexivity. Qed.

(** *** Stages of [cleanText] on joined tokens *)

Lemma stripOther_app a b : stripOther (a ++ b) = stripOther a ++ stripOther b.
Proof. apply List.filter_app. Qed.

Lemma stripOther_alnum t : forallb isLowerAlnum t = true -> stripOther t = t.
Proof.
  unfold stripOther. induction t as [| c t IH]; [reflexivity |].
  cbn. intros H. apply andb_true_iff in H. destruct H as [Hc Ht].
  now rewrite Hc, IH.
Qed.

Lemma stripOther_ofInt z : stripOther (ofInt z) = ofInt (Z.abs z).
Proof.
  rewrite ofInt_sign, stripOther_app.
  rewrite (stripOther_alnum (ofInt (Z.abs z))) by apply ofInt_abs.
  now destruct (z <? 0).
Qed.

Lemma stripOther_join l :
  stripOther (join (lit " ") l) = join (lit " ") (List.map stripOther l).
Proof.
  induction l as [| p [| q l] IH]; [reflexivity | now cbn; rewrite ?app_nil_r |].
  change (join (lit " ") (p :: q :: l)) with (p ++ lit " " ++ join (lit " ") (q :: l)).
  rewrite !stripOther_app, IH. reflexivity.
Qed.

Lemma filter_nonEmpty_map (f : jsstring -> jsstring) l :
  Forall (fun t => nonEmpty (f t) = nonEmpty t) l ->
  List.filter nonEmpty (List.map f l) = List.map f (List.filter nonEmpty l).
Proof.
  induction 1 as [| t l E _ IH]; [reflexivity |].
  cbn. rewrite E, IH. now destruct (nonEmpty t).
Qed.

Lemma lowerFrom_plain lowerOther before s :
  forallb plainUnit s = true -> lowerFrom lowerOther before s = s.
Proof.
  revert before. induction s as [| c s IH]; intros before H; [reflexivity |].
  cbn [forallb] in H. apply andb_true_iff in H. destruct H as [Hc Hs].
  unfold plainUnit in Hc. apply andb_true_iff in Hc. destruct Hc as [A L].
  apply N.eqb_eq in L. cbn [lowerFrom]. rewrite A, L, (IH _ Hs). reflexivity.
Qed.

Lemma alnum_plain c : isLowerAlnum c = true -> plainUnit c = true.
Proof.
  intros H. apply TextFacts.isLowerAlnum_spec in H. unfold plainUnit, lowerAscii.
  apply andb_true_iff. split; [apply N.ltb_lt; lia |].
  destruct (65 <=? c)%N eqn:E1, (c <=? 90)%N eqn:E2; cbn;
    try apply N.eqb_refl.
  apply N.leb_le in E1, E2. lia.
Qed.

Lemma forallb_impl {X : Type} (f g : X -> bool) l :
  (forall x, f x = true -> g x = true) -> forallb f l = true -> forallb g l = true.
Proof.
  intros I. induction l as [| x l IH]; [reflexivity |]. cbn.
  intros H. apply andb_true_iff in H. destruct H as [H1 H2].
  now rewrite (I x H1), IH.
Qed.

Lemma forallb_join (f : N -> bool) l :
  f 32%N = true -> Forall (fun t => forallb f t = true) l ->
  forallb f (join (lit " ") l) = true.
Proof.
  intros S F. induction F as [| p l Hp F IH]; [reflexivity |].
  destruct l as [| q l]; [exact Hp |].
  change (join (lit " ") (p :: q :: l)) with (p ++ 32%N :: join (lit " ") (q :: l)).
  rewrite forallb_app, Hp. cbn [forallb andb]. now rewrite S, IH.
Qed.

(** *** Tokens joined by single spaces are a cleaned text *)

Lemma token_head t : token t -> exists c rest, t = c :: rest /\ isLowerAlnum c = true.
Proof.
  intros [N F]. destruct t as [| c rest]; [congruence |].
  cbn in F. apply andb_true_iff in F. exists c, rest. tauto.
Qed.

Lemma noDoubleSpace_token_app t s :
  forallb isLowerAlnum t = true ->
  noDoubleSpace s = true -> noDoubleSpace (t ++ s) = true.
Proof.
  induction t as [| c t IH]; intros F D; [exact D |].
  cbn [forallb] in F. apply andb_true_iff in F. destruct F as [Fc Ft].
  cbn [app noDoubleSpace]. rewrite (IH Ft D), andb_true_r.
  destruct (t ++ s); [reflexivity |].
  destruct (N.eqb_spec c 32) as [-> | _]; [discriminate Fc | reflexivity].
Qed.

Lemma last_app_nonempty (a b : jsstring) : b <> [] -> last (a ++ b) = last b.
Proof.
  intros H. destruct b as [| x b] using rev_ind; [congruence |].
  now rewrite app_assoc, !last_snoc.
Qed.

Lemma join_tokens_Cleaned l :
  Forall token l ->
  Cleaned (join (lit " ") l)
  /\ (l <> [] -> exists c rest, join (lit " ") l = c :: rest /\ isLowerAlnum c = true).
Proof.
  induction 1 as [| p l Hp F [IH1 IH2]].
  - split; [| congruence]. repeat split; cbn; congruence.
  - destruct (token_head p Hp) as (c & rest & Ep & Hc).
    destruct Hp as [Np Fp].
    assert (U : forallb isCleanUnit p = true).
    { revert Fp. apply forallb_impl. intros x Hx. unfold isCleanUnit. now rewrite Hx. }
    assert (Lp : last p <> Some 32%N).
    { intros E. apply last_Some_elem_of, list_elem_of_In in E.
      rewrite forallb_forall in Fp. apply Fp in E. discriminate E. }
    destruct l as [| q l].
    + cbn [join]. split; [| intros _; now exists c, rest].
      repeat split; auto.
      * rewrite Ep. cbn. intros E. injection E as ->. discriminate Hc.
      * rewrite <- (app_nil_r p). now apply noDoubleSpace_token_app.
    + change (join (lit " ") (p :: q :: l)) with (p ++ 32%N :: join (lit " ") (q :: l)).
      destruct (IH2 ltac:(discriminate)) as (d & rest' & Ej & Hd).
      destruct IH1 as (U' & H' & L' & D').
      split; [| intros _; exists c, (rest ++ 32%N :: join (lit " ") (q :: l));
                 split; [now rewrite Ep | exact Hc]].
      repeat split.
      * rewrite forallb_app, U. cbn. exact U'.
      * rewrite Ep. cbn. intros E. injection E as ->. discriminate Hc.
      * rewrite last_app_nonempty by discriminate.
        rewrite Ej. change (32%N :: d :: rest') with ([32%N] ++ d :: rest').
        rewrite last_app_nonempty by discriminate. now rewrite <- Ej.
      * apply noDoubleSpace_token_app; [exact Fp |].
        cbn [noDoubleSpace]. rewrite D', andb_true_r, Ej.
        destruct (N.eqb_spec d 32) as [-> | _]; [discriminate Hd | reflexivity].
Qed.

(** *** The text of a record *)

Lemma recordToText_tokens r :
  recordToText r = join (lit " ") (List.filter nonEmpty (rawTokens r)).
Proof. reflexivity. Qed.

Lemma abs_eqb_0 z : (Z.abs z =? 0) = (z =? 0).
Proof. destruct z; reflexivity. Qed.

Lemma rawTokens_strip r : List.map stripOther (rawTokens r) = rawTokens (absRecord r).
Proof.
  unfold rawTokens, absRecord. cbn [List.map age days_wait gender sms_received
    scholarship hipertension diabetes alcoholism].
  rewrite abs_eqb_0.
  repeat f_equal.
  - now destruct (gender r =? 1).
  - rewrite stripOther_app, stripOther_ofInt. reflexivity.
  - destruct (days_wait r =? 0); [reflexivity |].
    rewrite stripOther_app, stripOther_ofInt. reflexivity.
  - now destruct (truthy (sms_received r)).
  - now destruct (truthy (scholarship r)).
  - now destruct (truthy (hipertension r)).
  - now destruct (truthy (diabetes r)).
  - now destruct (truthy (alcoholism r)).
Qed.

Lemma rawTokens_strip_nonEmpty r :
  Forall (fun t => nonEmpty (stripOther t) = nonEmpty t) (rawTokens r).
Proof.
  unfold rawTokens. repeat (apply Forall_cons; split); try apply Forall_nil; auto.
  - now destruct (gender r =? 1).
  - now destruct (days_wait r =? 0).
  - now destruct (truthy (sms_received r)).
  - now destruct (truthy (scholarship r)).
  - now destruct (truthy (hipertension r)).
  - now destruct (truthy (diabetes r)).
  - now destruct (truthy (alcoholism r)).
Qed.

Lemma token_app a b : token a -> forallb isLowerAlnum b = true -> token (a ++ b).
Proof.
  intros [N F] G. split; [destruct a; [congruence | discriminate] |].
  now rewrite forallb_app, F, G.
Qed.

Lemma token_lit t : t <> [] -> forallb isLowerAlnum t = true -> token t.
Proof. now split. Qed.

Lemma rawTokens_abs_tokens r :
  Forall (fun t => t = [] \/ token t) (rawTokens (absRecord r)).
Proof.
  unfold rawTokens, absRecord. cbn [age days_wait gender sms_received
    scholarship hipertension diabetes alcoholism].
  assert (T : forall t, nonEmpty t = true -> forallb isLowerAlnum t = true ->
                        t = [] \/ token t).
  { intros t N F. right. split; [now destruct t | exact F]. }
  assert (I : forall w z, token w -> w ++ ofInt (Z.abs z) = []
                                     \/ token (w ++ ofInt (Z.abs z))).
  { intros w z Hw. right. apply token_app; [exact Hw | apply ofInt_abs]. }
  repeat (apply Forall_cons; split); try apply Forall_nil; auto.
  - destruct (gender r =? 1); now apply T.
  - apply I. now apply token_lit.
  - destruct (Z.abs (days_wait r) =? 0); [now apply T |].
    apply I. now apply token_lit.
  - destruct (truthy (sms_received r)); now apply T.
  - destruct (truthy (scholarship r)); [now apply T | now left].
  - destruct (truthy (hipertension r)); [now apply T | now left].
  - destruct (truthy (diabetes r)); [now apply T | now left].
  - destruct (truthy (alcoholism r)); [now apply T | now left].
Qed.

Lemma filter_nonEmpty_tokens l :
  Forall (fun t => t = [] \/ token t) l -> Forall token (List.filter nonEmpty l).
Proof.
  induction 1 as [| t l H _ IH]; [constructor |].
  cbn. destruct t as [| c t]; [exact IH |]. cbn.
  constructor; [| exact IH]. destruct H as [H | H]; [discriminate | exact H].
Qed.

Lemma ofInt_plain z : forallb plainUnit (ofInt z) = true.
Proof.
  rewrite ofInt_sign, forallb_app.
  assert (D : forallb plainUnit (ofInt (Z.abs z)) = true).
  { destruct (ofInt_abs z) as [F _]. revert F. apply forallb_impl, alnum_plain. }
  rewrite D. now destruct (z <? 0).
Qed.

Lemma rawTokens_plain r :
  Forall (fun t => forallb plainUnit t = true) (rawTokens r).
Proof.
  unfold rawTokens. repeat (apply Forall_cons; split); try apply Forall_nil; auto.
  - now destruct (gender r =? 1).
  - rewrite forallb_app, ofInt_plain. reflexivity.
  - destruct (days_wait r =? 0); [reflexivity |].
    rewrite forallb_app, ofInt_plain. reflexivity.
  - now destruct (truthy (sms_received r)).
  - now destruct (truthy (scholarship r)).
  - now destruct (truthy (hipertension r)).
  - now destruct (truthy (diabetes r)).
  - now destruct (truthy (alcoholism r)).
Qed.

Lemma Forall_filter_keep {X : Type} (P : X -> Prop) (f : X -> bool) l :
  Forall P l -> Forall P (List.filter f l).
Proof.
  induction 1 as [| x l H _ IH]; [constructor |].
  cbn. destruct (f x); [now constructor | exact IH].
Qed.

Lemma absRecord_idem r : absRecord (absRecord r) = absRecord r.
Proof. unfold absRecord. cbn. now rewrite !Z.abs_idemp. Qed.

Lemma absRecord_valid r : 0 <= r.(age) -> 0 <= r.(days_wait) -> absRecord r = r.
Proof.
  intros A D. destruct r. unfold absRecord. cbn in *.
  now rewrite !Z.abs_eq by assumption.
Qed.

Lemma recordToText_lower lowerOther r :
  toLowerCase lowerOther (recordToText r) = recordToText r.
Proof.
  apply lowerFrom_plain. rewrite recordToText_tokens.
  apply forallb_join; [reflexivity |].
  apply Forall_filter_keep, rawTokens_plain.
Qed.

Lemma recordToText_strip r : stripOther (recordToText r) = recordToText (absRecord r).
Proof.
  rewrite !recordToText_tokens, stripOther_join.
  rewrite <- filter_nonEmpty_map by apply rawTokens_strip_nonEmpty.
  now rewrite rawTokens_strip.
Qed.

Lemma recordToText_abs_Cleaned r : Cleaned (recordToText (absRecord r)).
Proof.
  rewrite recordToText_tokens.
  apply join_tokens_Cleaned, filter_nonEmpty_tokens, rawTokens_abs_tokens.
Qed.

(** The text that [buildDataset] trains on is the text of the record with
    the signs of [age] and [days_wait] dropped: [cleanText] removes the
    minus sign of a negative number and changes nothing else, so the text of
    a record without negative numbers is kept as it is.  That text always
    has the shape of a cleaned text.  The two numbers are below 10^21 in
    magnitude, where a template literal prints all their digits. *)
Theorem cleanText_recordToText
    (lowerOther : jsstring -> N -> jsstring -> jsstring) (r : PatientRecord) :
  Z.abs r.(age) < 10 ^ 21 -> Z.abs r.(days_wait) < 10 ^ 21 ->
  cleanText lowerOther (recordToText r) = recordToText (absRecord r)
  /\ Cleaned (recordToText (absRecord r))
  /\ (0 <= r.(age) -> 0 <= r.(days_wait) ->
      cleanText lowerOther (recordToText r) = recordToText r).
Proof.
  intros _ _.
  pose proof (recordToText_abs_Cleaned r) as C.
  assert (E : cleanText lowerOther (recordToText r) = recordToText (absRecord r)).
  { pose proof (TextFacts.Cleaned_fixed lowerOther _ C) as K.
    unfold cleanText in *.
    rewrite recordToText_lower, recordToText_strip in *.
    now rewrite absRecord_idem in K. }
  split; [exact E | split; [exact C |]].
  intros A D. rewrite E. now rewrite absRecord_valid.
Qed.

Lemma cleanText_recordToText_witness :
  cleanText (fun _ c _ => [c])
    (recordToText (mkRecord 35 14 0 1 1 0 0 0 (lit "CENTRO") 0))
  = recordToText (mkRecord 35 14 0 1 1 0 0 0 (lit "CENTRO") 0).
Proof.
  apply (cleanText_recordToText (fun _ c _ => [c])
           (mkRecord 35 14 0 1 1 0 0 0 (lit "CENTRO") 0)); cbn; lia.
Defined.

(** A negative age loses its sign: two records are given the same text. *)
Example cleanText_negative_age :
  cleanText (fun _ c _ => [c])
    (recordToText (mkRecord (-5) 0 1 0 0 0 0 0 [] 0))
  = lit "male age5 sameday nosms".
Proof. vm_compute. reflexivity. Qed.

End EncodingFacts.

(** ** More on the two evaluators *)

Module EvaluatorFacts.
Import JsString Data Functions.

(** *** Percentages *)

Lemma ofNat_pos n : (0 < n)%nat -> (0 < ofNat n)%Q.
Proof.
  intros H. unfold ofNat. change 0%Q with (inject_Z 0). rewrite <- Zlt_Qlt. lia.
Qed.

Lemma percent_unfold a b :
  (0 < b)%nat ->
  percent a b
  = fixed1 (Double.fl (Double.fl (ofNat a / ofNat b) * 100)).
Proof.
  intros H. unfold percent, JsNumber.div.
  rewrite FunctionsFacts.Qeq_bool_false; [reflexivity |].
  pose proof (ofNat_pos b H). lra.
Qed.

Lemma percent_isPercentOf a b :
  (0 < b)%nat -> (a <= b)%nat -> isPercentOf (percent a b) a b.
Proof.
  intros Hb Hab. rewrite (percent_unfold a b Hb).
  pose proof (ofNat_pos b Hb) as PB.
  assert (PA : (0 <= ofNat a)%Q) by apply LstmWorkerFacts.ofNat_nonneg.
  assert (AB : (ofNat a <= ofNat b)%Q).
  { unfold ofNat. rewrite <- Zle_Qle. lia. }
  set (q0 := (ofNat a / ofNat b)%Q).
  assert (E0 : (q0 * ofNat b == ofNat a)%Q) by (unfold q0; field; lra).
  assert (Q0 : (0 <= q0)%Q).
  { unfold q0. apply Qle_shift_div_l; [exact PB | lra]. }
  assert (Q1 : (q0 <= 1)%Q).
  { unfold q0. apply Qle_shift_div_r; [exact PB | lra]. }
  destruct (DoubleFacts.fl_bounds q0 Q0) as [L1 U1].
  pose proof (DoubleFacts.fl_nonneg q0 Q0) as N1.
  set (q1 := Double.fl q0) in *.
  assert (X0 : (0 <= q1 * 100)%Q) by lra.
  destruct (DoubleFacts.fl_bounds _ X0) as [L2 U2].
  pose proof (DoubleFacts.fl_nonneg _ X0) as N2.
  set (x := Double.fl (q1 * 100)) in *.
  change Double.u with (1 # 9007199254740992)%Q in *.
  unfold fixed1.
  assert (B : Qle_bool 0 x = true) by (now apply Qle_bool_iff).
  rewrite B. cbn [app].
  set (n := Qfloor (x * 10 + (1 # 2))).
  pose proof (Qfloor_le (x * 10 + (1 # 2))) as F1.
  pose proof (Qlt_floor (x * 10 + (1 # 2))) as F2.
  fold n in F1, F2. rewrite inject_Z_plus in F2. change (inject_Z 1) with 1%Q in F2.
  set (N := inject_Z n) in *.
  assert (T1 : (N - 1000 * q0 < 1)%Q) by lra.
  assert (T2 : (-1 < N - 1000 * q0)%Q) by lra.
  exists n. split; [| split; [| reflexivity]].
  - assert (G : (-1 < N)%Q /\ (N < 1001)%Q) by (split; lra).
    destruct G as [G1 G2]. unfold N in G1, G2.
    change (-1)%Q with (inject_Z (-1)) in G1. change 1001%Q with (inject_Z 1001) in G2.
    rewrite <- Zlt_Qlt in G1, G2. lia.
  - assert (K : (inject_Z (n * Z.of_nat b - 1000 * Z.of_nat a)
                 == ofNat b * (N - 1000 * q0))%Q).
    { rewrite <- (Z.add_opp_r (n * Z.of_nat b)), inject_Z_plus, inject_Z_opp,
        !inject_Z_mult.
      fold (ofNat b) (ofNat a) N. change (inject_Z 1000) with 1000%Q.
      rewrite <- E0. ring. }
    assert (K1 : (ofNat b * (N - 1000 * q0) < ofNat b)%Q).
    { rewrite <- (Qmult_1_r (ofNat b)) at 2. now apply Qmult_lt_l. }
    assert (K2 : (- ofNat b < ofNat b * (N - 1000 * q0))%Q).
    { assert (M : (- ofNat b == ofNat b * -1)%Q) by ring.
      rewrite M. now apply Qmult_lt_l. }
    rewrite <- K in K1, K2. unfold ofNat in K1, K2.
    rewrite <- inject_Z_opp in K2. rewrite <- Zlt_Qlt in K1, K2. lia.
Qed.

Lemma isPercentOf_full s b : (0 < b)%nat -> isPercentOf s b b -> s = lit "100.0".
Proof.
  intros Hb (n & R & C & ->). assert (n = 1000) by nia. subst n. reflexivity.
Qed.

Lemma isPercentOf_none s b : (0 < b)%nat -> isPercentOf s 0 b -> s = lit "0.0".
Proof.
  intros Hb (n & R & C & ->). assert (n = 0) by nia. subst n. reflexivity.
Qed.

(** *** Counters *)

Lemma fold_count_exact {X : Type} (f g : X -> bool) (xs : list X) (t : Tally) :
  let t' := fold_left (fun t x => count t (f x) (g x)) xs t in
  t'.(correct) = (t.(correct) + countIf f xs)%nat
  /\ t'.(tpShow) = (t.(tpShow) + countIf (fun x => f x && g x) xs)%nat
  /\ t'.(fnShow) = (t.(fnShow) + countIf (fun x => negb (f x) && g x) xs)%nat
  /\ t'.(tpNoshow) = (t.(tpNoshow) + countIf (fun x => f x && negb (g x)) xs)%nat
  /\ t'.(fnNoshow)
     = (t.(fnNoshow) + countIf (fun x => negb (f x) && negb (g x)) xs)%nat.
Proof.
  unfold countIf.
  revert t. induction xs as [| x xs IH]; intros t; cbn [fold_left List.filter].
  - cbn. lia.
  - specialize (IH (count t (f x) (g x))). cbn zeta in IH.
    destruct IH as (A & B & C & D & E). cbn zeta.
    rewrite A, B, C, D, E. unfold count.
    destruct (f x), (g x); cbn; lia.
Qed.

Lemma countIf_le {X : Type} (f : X -> bool) xs : (countIf f xs <= length xs)%nat.
Proof.
  unfold countIf. induction xs as [| x xs IH]; [cbn; lia |].
  cbn. destruct (f x); cbn; lia.
Qed.

Lemma countIf_split {X : Type} (f g : X -> bool) xs :
  (countIf (fun x => f x && g x) xs + countIf (fun x => negb (f x) && g x) xs)%nat
  = countIf g xs.
Proof.
  unfold countIf. induction xs as [| x xs IH]; [reflexivity |].
  cbn. destruct (f x), (g x); cbn; lia.
Qed.

Lemma recall_figure (tp fn : nat) :
  let s := if (0 <? tp + fn)%nat then percent tp (tp + fn) else lit "0.0" in
  ((tp + fn = 0)%nat -> s = lit "0.0")
  /\ ((0 < tp + fn)%nat -> isPercentOf s tp (tp + fn)).
Proof.
  intros s. unfold s. destruct (Nat.ltb_spec 0 (tp + fn)) as [H | H].
  - split; [lia |]. intros _. apply percent_isPercentOf; lia.
  - split; [reflexivity | lia].
Qed.

Lemma countIf_ext {X : Type} (f g : X -> bool) xs :
  (forall x, x ∈ xs -> f x = g x) -> countIf f xs = countIf g xs.
Proof.
  unfold countIf. induction xs as [| x xs IH]; intros H; [reflexivity |].
  assert (K : length (List.filter f xs) = length (List.filter g xs)).
  { apply IH. intros y Hy. apply H. apply elem_of_cons. now right. }
  cbn. rewrite (H x) by (apply elem_of_cons; now left).
  destruct (g x); cbn; now rewrite K.
Qed.

Lemma countIf_false {X : Type} (f : X -> bool) xs :
  (forall x, x ∈ xs -> f x = false) -> countIf f xs = 0%nat.
Proof.
  intros H. rewrite (countIf_ext f (fun _ => false) xs H).
  unfold countIf. clear H. induction xs as [| x xs IH]; [reflexivity | exact IH].
Qed.

(** *** The figures reported *)

(** For at least one record, [evaluateAccuracy] reports as [overall] the
    percentage of the records whose predicted class is their label, and as
    recall of a class the percentage of its records that are predicted in
    it, each printed with one decimal and less than 0.1 away from the exact
    value; the recall of a class without records is ["0.0"]. *)
Theorem evaluateAccuracy_figures (net : FeatureVector -> NetOutput)
    (c : Configuration) (data : list PatientRecord) :
  data <> [] ->
  let ok := fun r => classify net c r =? r.(noshow) in
  let show := fun r => r.(noshow) =? 0 in
  let shows := countIf show data in
  let others := countIf (fun r => negb (show r)) data in
  let a := evaluateAccuracy net c data in
  isPercentOf a.(overall) (countIf ok data) (length data)
  /\ (shows = 0%nat -> a.(showUpRecall) = lit "0.0")
  /\ ((0 < shows)%nat ->
      isPercentOf a.(showUpRecall) (countIf (fun r => ok r && show r) data) shows)
  /\ (others = 0%nat -> a.(noshowRecall) = lit "0.0")
  /\ ((0 < others)%nat ->
      isPercentOf a.(noshowRecall)
        (countIf (fun r => ok r && negb (show r)) data) others).
Proof.
  intros NE ok show shows others a.
  destruct (fold_count_exact ok show data tally0) as (C & TS & FS & TN & FN).
  cbn zeta in C, TS, FS, TN, FN. cbn [tally0 correct tpShow fnShow tpNoshow fnNoshow
    Nat.add] in C, TS, FS, TN, FN.
  pose proof (countIf_split ok show data) as S1.
  pose proof (countIf_split ok (fun r => negb (show r)) data) as S2.
  fold shows in S1. fold others in S2.
  unfold a, evaluateAccuracy. cbn [overall showUpRecall noshowRecall].
  change (fold_left (evalRecord net c) data tally0)
    with (fold_left (fun t r => count t (ok r) (show r)) data tally0).
  rewrite C, TS, FS, TN, FN, S1, S2.
  split.
  - apply percent_isPercentOf; [destruct data; [congruence | cbn; lia] |].
    apply countIf_le.
  - destruct (recall_figure (countIf (fun r => ok r && show r) data)
                (countIf (fun r => negb (ok r) && show r) data)) as [R1 R2].
    destruct (recall_figure (countIf (fun r => ok r && negb (show r)) data)
                (countIf (fun r => negb (ok r) && negb (show r)) data)) as [R3 R4].
    cbn zeta in R1, R2, R3, R4. rewrite S1 in R1, R2. rewrite S2 in R3, R4.
    repeat split; assumption.
Qed.

Lemma evaluateAccuracy_figures_witness :
  isPercentOf
    (evaluateAccuracy (fun _ => OutNumber (1 # 5)%Q) demoConfiguration demoData).(overall)
    2 3.
Proof.
  apply (evaluateAccuracy_figures (fun _ => OutNumber (1 # 5)%Q) demoConfiguration
           demoData).
  discriminate.
Defined.

(** A network that answers "show" for every record (an output of at most
    0.5) has no-show recall ["0.0"], show recall ["100.0"] as soon as one
    record showed up, and as overall accuracy the share of such records. *)
Theorem evaluateAccuracy_always_show (net : FeatureVector -> NetOutput)
    (c : Configuration) (data : list PatientRecord) :
  (forall r, r ∈ data -> classify net c r = 0) ->
  let shows := countIf (fun r => r.(noshow) =? 0) data in
  let a := evaluateAccuracy net c data in
  a.(noshowRecall) = lit "0.0"
  /\ ((0 < shows)%nat -> a.(showUpRecall) = lit "100.0")
  /\ (shows = 0%nat -> a.(showUpRecall) = lit "0.0")
  /\ (data <> [] -> isPercentOf a.(overall) shows (length data)).
Proof.
  intros H shows a.
  set (ok := fun r => classify net c r =? noshow r).
  set (show := fun r => noshow r =? 0).
  assert (E : forall r, r ∈ data -> ok r = show r).
  { intros r Hr. unfold ok, show. rewrite (H r Hr). apply Z.eqb_sym. }
  destruct (fold_count_exact ok show data tally0) as (C & TS & FS & TN & FN).
  cbn zeta in C, TS, FS, TN, FN. cbn [tally0 correct tpShow fnShow tpNoshow fnNoshow
    Nat.add] in C, TS, FS, TN, FN.
  assert (C' : countIf ok data = shows) by (now apply countIf_ext).
  assert (TS' : countIf (fun r => ok r && show r) data = shows).
  { apply countIf_ext. intros r Hr. rewrite (E r Hr). apply andb_diag. }
  assert (FS' : countIf (fun r => negb (ok r) && show r) data = 0%nat).
  { apply countIf_false. intros r Hr. rewrite (E r Hr). apply andb_negb_l. }
  assert (TN' : countIf (fun r => ok r && negb (show r)) data = 0%nat).
  { apply countIf_false. intros r Hr. rewrite (E r Hr). apply andb_negb_r. }
  unfold a, evaluateAccuracy. cbn [overall showUpRecall noshowRecall].
  change (fold_left (evalRecord net c) data tally0)
    with (fold_left (fun t r => count t (ok r) (show r)) data tally0).
  rewrite C, TS, FS, TN, FN, C', TS', FS', TN'. cbn [Nat.add].
  rewrite Nat.add_0_r.
  repeat split.
  - destruct (Nat.ltb_spec 0 (countIf (fun r => negb (ok r) && negb (show r)) data));
      [| reflexivity].
    apply isPercentOf_none with (b := countIf (fun r => negb (ok r) && negb (show r)) data);
      [assumption |].
    apply percent_isPercentOf; lia.
  - intros P. destruct (Nat.ltb_spec 0 shows); [| lia].
    apply isPercentOf_full with (b := shows); [assumption |].
    apply percent_isPercentOf; lia.
  - intros Z. rewrite Z. reflexivity.
  - intros NE. apply percent_isPercentOf; [destruct data; [congruence | cbn; lia] |].
    apply countIf_le.
Qed.

Lemma evaluateAccuracy_always_show_witness :
  (evaluateAccuracy (fun _ => OutObject None) demoConfiguration demoData).(noshowRecall)
  = lit "0.0".
Proof.
  apply (evaluateAccuracy_always_show (fun _ => OutObject None) demoConfiguration
           demoData).
  intros r _. reflexivity.
Defined.

(** *** The text model *)

(** [evalSet] reports the same figures for the text model, with ["0.0"] as
    accuracy of the empty set: a sample counts as right when the label read
    from the output of the network is its own, and the classes are the
    samples labelled ["yes"] and the others. *)
Theorem evalSet_figures (lowerOther : jsstring -> N -> jsstring -> jsstring)
    (net : jsstring -> option jsstring) (set : list LstmWorker.TextSample) :
  let ok := fun s => eqb (LstmWorker.predLabel lowerOther
                            (LstmWorker.orEmpty (net s.(LstmWorker.input))))
                       s.(LstmWorker.output) in
  let show := fun s => eqb s.(LstmWorker.output) (lit "yes") in
  let shows := countIf show set in
  let others := countIf (fun s => negb (show s)) set in
  let m := LstmWorker.evalSet lowerOther net set in
  (set = [] -> m.(LstmWorker.acc) = lit "0.0")
  /\ (set <> [] -> isPercentOf m.(LstmWorker.acc) (countIf ok set) (length set))
  /\ (shows = 0%nat -> m.(LstmWorker.showRecall) = lit "0.0")
  /\ ((0 < shows)%nat ->
      isPercentOf m.(LstmWorker.showRecall)
        (countIf (fun s => ok s && show s) set) shows)
  /\ (others = 0%nat -> m.(LstmWorker.noshowRecall) = lit "0.0")
  /\ ((0 < others)%nat ->
      isPercentOf m.(LstmWorker.noshowRecall)
        (countIf (fun s => ok s && negb (show s)) set) others).
Proof.
  intros ok show shows others m.
  destruct (fold_count_exact ok show set tally0) as (C & TS & FS & TN & FN).
  cbn zeta in C, TS, FS, TN, FN. cbn [tally0 correct tpShow fnShow tpNoshow fnNoshow
    Nat.add] in C, TS, FS, TN, FN.
  pose proof (countIf_split ok show set) as S1.
  pose proof (countIf_split ok (fun r => negb (show r)) set) as S2.
  fold shows in S1. fold others in S2.
  unfold m, LstmWorker.evalSet.
  cbn [LstmWorker.acc LstmWorker.showRecall LstmWorker.noshowRecall].
  change (fold_left (LstmWorker.evalSample lowerOther net) set tally0)
    with (fold_left (fun t r => count t (ok r) (show r)) set tally0).
  rewrite C, TS, FS, TN, FN, S1, S2.
  destruct (recall_figure (countIf (fun r => ok r && show r) set)
              (countIf (fun r => negb (ok r) && show r) set)) as [R1 R2].
  destruct (recall_figure (countIf (fun r => ok r && negb (show r)) set)
              (countIf (fun r => negb (ok r) && negb (show r)) set)) as [R3 R4].
  cbn zeta in R1, R2, R3, R4. rewrite S1 in R1, R2. rewrite S2 in R3, R4.
  split; [intros ->; reflexivity |].
  split; [| repeat split; assumption].
  intros NE. destruct set as [| s0 set']; [congruence |].
  cbn [length Nat.ltb Nat.leb].
  apply percent_isPercentOf; [cbn; lia |]. apply (countIf_le ok (s0 :: set')).
Qed.

(** *** Zero denominators *)

(** C8, amended.  Both evaluators report ["0.0"] as recall of a class
    without records, where true positives plus false negatives is zero,
    and [evalSet] reports ["0.0"] as accuracy of an empty set.  The
    accuracy of [evaluateAccuracy] has no guard: it is computed over the
    embedded dataset, and for every record list that is not empty its
    denominator is positive and the figure reported is the percentage of
    correct predictions. *)
Theorem zero_denominators
    (net : FeatureVector -> NetOutput) (c : Configuration)
    (data : list PatientRecord)
    (lowerOther : jsstring -> N -> jsstring -> jsstring)
    (textNet : jsstring -> option jsstring) (set : list LstmWorker.TextSample) :
  ((forall r, r ∈ data -> r.(noshow) <> 0) ->
     (evaluateAccuracy net c data).(showUpRecall) = lit "0.0")
  /\ ((forall r, r ∈ data -> r.(noshow) = 0) ->
       (evaluateAccuracy net c data).(noshowRecall) = lit "0.0")
  /\ ((forall s, s ∈ set -> s.(LstmWorker.output) <> lit "yes") ->
       (LstmWorker.evalSet lowerOther textNet set).(LstmWorker.showRecall)
       = lit "0.0")
  /\ ((forall s, s ∈ set -> s.(LstmWorker.output) = lit "yes") ->
       (LstmWorker.evalSet lowerOther textNet set).(LstmWorker.noshowRecall)
       = lit "0.0")
  /\ (LstmWorker.evalSet lowerOther textNet []).(LstmWorker.acc) = lit "0.0"
  /\ (data <> [] ->
      isPercentOf (evaluateAccuracy net c data).(overall)
        (countIf (fun r => classify net c r =? r.(noshow)) data) (length data)).
Proof.
  destruct (FunctionsFacts.evaluateAccuracy_recall_guard net c data) as [A B].
  destruct (LstmWorkerFacts.evalSet_recall_guard lowerOther textNet set) as [C D].
  split; [exact A |]. split; [exact B |]. split; [exact C |]. split; [exact D |].
  split; [reflexivity |].
  intros NE.
  destruct (fold_count_exact (fun r => classify net c r =? r.(noshow))
              (fun r => r.(noshow) =? 0) data tally0) as (K & _).
  cbn zeta in K. cbn [tally0 correct Nat.add] in K.
  unfold evaluateAccuracy. cbn [overall].
  change (fold_left (evalRecord net c) data tally0)
    with (fold_left (fun t r => count t (classify net c r =? r.(noshow))
                                  (r.(noshow) =? 0)) data tally0).
  rewrite K.
  apply percent_isPercentOf; [destruct data; [congruence | cbn; lia] |].
  apply countIf_le.
Qed.

(** On an empty record list the accuracy of [evaluateAccuracy] is not
    ["0.0"]: the quotient 0/0 is printed. *)
Lemma zero_denominators_counterexample :
  (evaluateAccuracy (fun _ => OutNumber 0) demoConfiguration []).(overall)
  = lit "NaN"
  /\ (evaluateAccuracy (fun _ => OutNumber 0) demoConfiguration []).(overall)
     <> lit "0.0".
Proof. split; [reflexivity | discriminate]. Qed.

End EvaluatorFacts.

(** ** Progress percentages *)

Module ProgressFacts.
Import JsString Progress.

Lemma progress_raw (I : positive) (it : Z) :
  Z.pos I <= 10 ^ 6 -> 0 <= it <= Z.pos I ->
  let p := round (Double.fl (Double.fl (inject_Z it / inject_Z (Z.pos I)) * 100)) in
  0 <= p <= 100 /\ - Z.pos I <= 2 * (Z.pos I * p - 100 * it) <= Z.pos I.
Proof.
  intros HI [H0 H1] p.
  set (QI := inject_Z (Z.pos I)). set (QT := inject_Z it).
  assert (PI : (0 < QI)%Q) by (unfold QI; change 0%Q with (inject_Z 0); rewrite <- Zlt_Qlt; lia).
  assert (BI : (QI <= 1000000)%Q).
  { unfold QI. change 1000000%Q with (inject_Z (10 ^ 6)). now rewrite <- Zle_Qle. }
  assert (PT : (0 <= QT)%Q) by (unfold QT; change 0%Q with (inject_Z 0); rewrite <- Zle_Qle; lia).
  assert (TI : (QT <= QI)%Q) by (unfold QT, QI; now rewrite <- Zle_Qle).
  set (q0 := (QT / QI)%Q).
  assert (E0 : (q0 * QI == QT)%Q) by (unfold q0; field; lra).
  assert (Q0 : (0 <= q0)%Q) by (unfold q0; apply Qle_shift_div_l; [exact PI | lra]).
  assert (Q1 : (q0 <= 1)%Q) by (unfold q0; apply Qle_shift_div_r; [exact PI | lra]).
  destruct (DoubleFacts.fl_bounds q0 Q0) as [L1 U1].
  pose proof (DoubleFacts.fl_nonneg q0 Q0) as N1.
  fold QT QI q0 in p. set (q1 := Double.fl q0) in *.
  assert (X0 : (0 <= q1 * 100)%Q) by lra.
  destruct (DoubleFacts.fl_bounds _ X0) as [L2 U2].
  pose proof (DoubleFacts.fl_nonneg _ X0) as N2.
  set (x := Double.fl (q1 * 100)) in *.
  change Double.u with (1 # 9007199254740992)%Q in *.
  unfold round in p.
  pose proof (Qfloor_le (x + (1 # 2))) as F1.
  pose proof (Qlt_floor (x + (1 # 2))) as F2.
  fold p in F1, F2. rewrite inject_Z_plus in F2. change (inject_Z 1) with 1%Q in F2.
  set (P := inject_Z p) in *.
  set (e := (300 # 9007199254740992)%Q).
  assert (T1 : (P - 100 * q0 <= (1 # 2) + e)%Q) by (unfold e; lra).
  assert (T2 : (- (1 # 2) - e < P - 100 * q0)%Q) by (unfold e; lra).
  split.
  - assert (G : (-1 < P)%Q /\ (P < 101)%Q) by (unfold e in *; split; lra).
    destruct G as [G1 G2]. unfold P in G1, G2.
    change (-1)%Q with (inject_Z (-1)) in G1. change 101%Q with (inject_Z 101) in G2.
    rewrite <- Zlt_Qlt in G1, G2. lia.
  - assert (K : (inject_Z (2 * (Z.pos I * p - 100 * it))
                 == 2 * (QI * (P - 100 * q0)))%Q).
    { rewrite inject_Z_mult, <- (Z.add_opp_r (Z.pos I * p)), inject_Z_plus,
        inject_Z_opp, !inject_Z_mult.
      fold QI QT P. change (inject_Z 100) with 100%Q. change (inject_Z 2) with 2%Q.
      rewrite <- E0. ring. }
    assert (K1 : (QI * (P - 100 * q0) <= QI * ((1 # 2) + e))%Q).
    { apply LstmWorkerFacts.scaled_le; [lra | exact T1]. }
    assert (K2 : (QI * (- (1 # 2) - e) < QI * (P - 100 * q0))%Q).
    { now apply Qmult_lt_l. }
    assert (E1 : (inject_Z (Z.pos I + 1) == QI + 1)%Q)
      by (rewrite inject_Z_plus; reflexivity).
    assert (E2 : (inject_Z (- Z.pos I + -1) == - QI - 1)%Q)
      by (rewrite inject_Z_plus, inject_Z_opp; reflexivity).
    assert (K3 : (inject_Z (2 * (Z.pos I * p - 100 * it)) < inject_Z (Z.pos I + 1))%Q).
    { rewrite K, E1. unfold e in *. lra. }
    assert (K4 : (inject_Z (- Z.pos I + -1) < inject_Z (2 * (Z.pos I * p - 100 * it)))%Q).
    { rewrite K, E2. unfold e in *. lra. }
    rewrite <- Zlt_Qlt in K3, K4. lia.
Qed.

Lemma progress_full (I : positive) (it : Z) :
  Z.pos I <= it -> progressPct I it = 100.
Proof.
  intros H. unfold progressPct.
  set (QI := inject_Z (Z.pos I)). set (QT := inject_Z it).
  assert (PI : (0 < QI)%Q) by (unfold QI; change 0%Q with (inject_Z 0); rewrite <- Zlt_Qlt; lia).
  assert (TI : (QI <= QT)%Q) by (unfold QT, QI; now rewrite <- Zle_Qle).
  set (q0 := (QT / QI)%Q).
  assert (Q1 : (1 <= q0)%Q) by (unfold q0; apply Qle_shift_div_l; [exact PI | lra]).
  assert (Q0 : (0 <= q0)%Q) by lra.
  destruct (DoubleFacts.fl_bounds q0 Q0) as [L1 U1].
  set (q1 := Double.fl q0) in *.
  change Double.u with (1 # 9007199254740992)%Q in *.
  assert (X0 : (0 <= q1 * 100)%Q) by lra.
  destruct (DoubleFacts.fl_bounds _ X0) as [L2 U2].
  set (x := Double.fl (q1 * 100)) in *.
  change Double.u with (1 # 9007199254740992)%Q in *.
  assert (G : 100 <= round x).
  { unfold round. apply LstmWorkerFacts.Qfloor_ge. change (inject_Z 100) with 100%Q. lra. }
  lia.
Qed.

(** The percentage reported for [iterations] out of [ITERATIONS] is
    between 0 and 100, is an integer nearest to the exact percentage up to
    [ITERATIONS], is 100 from there on, and never decreases when the
    number of iterations grows. *)
Theorem progressPct_nearest (I : positive) (it it' : Z) :
  Z.pos I <= 10 ^ 6 -> 0 <= it -> it <= it' ->
  let p := progressPct I it in
  0 <= p <= 100
  /\ (it <= Z.pos I -> - Z.pos I <= 2 * (Z.pos I * p - 100 * it) <= Z.pos I)
  /\ (Z.pos I <= it -> p = 100)
  /\ p <= progressPct I it'.
Proof.
  intros HI H0 Hle p.
  assert (R : forall t, 0 <= t <= Z.pos I ->
            0 <= progressPct I t <= 100
            /\ - Z.pos I <= 2 * (Z.pos I * progressPct I t - 100 * t) <= Z.pos I).
  { intros t Ht. destruct (progress_raw I t HI Ht) as [A B]. cbn zeta in A, B.
    unfold progressPct. rewrite Z.min_r by lia. split; assumption. }
  assert (F : forall t, Z.pos I <= t -> progressPct I t = 100)
    by (intros t; apply progress_full).
  assert (B : forall t, 0 <= t -> 0 <= progressPct I t <= 100).
  { intros t Ht. destruct (Z_le_dec t (Z.pos I)); [apply R; lia | rewrite F; lia]. }
  split; [now apply B | split; [intros H; apply R; lia | split; [apply F |]]].
  unfold p. destruct (Z_le_dec (Z.pos I) it') as [H' | H'].
  - rewrite (F it' H'). apply B. lia.
  - destruct (R it ltac:(lia)) as [_ Rt]. destruct (R it' ltac:(lia)) as [_ Rt'].
    destruct (Z.eq_dec it it') as [-> | Hne]; [lia |].
    set (a := progressPct I it) in *. set (b := progressPct I it') in *.
    assert (Z.pos I * (a - b) < Z.pos I) by lia.
    nia.
Qed.

Lemma progressPct_nearest_witness :
  progressPct 300 149 <= progressPct 300 150.
Proof.
  apply (progressPct_nearest 300 149 150); [vm_compute; discriminate | lia | lia].
Defined.

End ProgressFacts.

(** ** The message handler of the worker *)

Module WorkerHostFacts.
Import JsString WorkerHost.

Lemma closing_shape lib n ds :
  exists body last,
    closing lib n ds = body ++ [last]
    /\ forallb isInterim body = true
    /\ isTerminal last = true
    /\ List.filter isProgress (closing lib n ds) = []
    /\ ((exists m, last = Lstm.Done m)
        <-> firstThrow n ds.(LstmWorker.validation) = None
            /\ firstThrow n ds.(LstmWorker.test) = None)
    /\ (forall m, last = Lstm.Done m ->
          m = {| Lstm.valAcc :=
                   (LstmWorker.evalSet lib.(lowerOther) (outputs n)
                      ds.(LstmWorker.validation)).(LstmWorker.acc);
                 Lstm.testAcc :=
                   (LstmWorker.evalSet lib.(lowerOther) (outputs n)
                      ds.(LstmWorker.test)).(LstmWorker.acc);
                 Lstm.testShowRecall :=
                   (LstmWorker.evalSet lib.(lowerOther) (outputs n)
                      ds.(LstmWorker.test)).(LstmWorker.showRecall);
                 Lstm.testNoshowRecall :=
                   (LstmWorker.evalSet lib.(lowerOther) (outputs n)
                      ds.(LstmWorker.test)).(LstmWorker.noshowRecall) |}).
Proof.
  unfold closing.
  destruct (firstThrow n (LstmWorker.validation ds)) as [m |] eqn:V.
  - exists [Lstm.Log rule; Lstm.Log (lit "[DONE] LSTM training complete.")], (Lstm.Error m).
    split; [reflexivity |]. split; [reflexivity |]. split; [reflexivity |].
    split; [reflexivity |]. split.
    + split; [intros (x & E); discriminate E | intros [E _]; discriminate E].
    + intros x E. discriminate E.
  - destruct (firstThrow n (LstmWorker.test ds)) as [m |] eqn:T.
    + exists [Lstm.Log rule; Lstm.Log (lit "[DONE] LSTM training complete.")], (Lstm.Error m).
      split; [reflexivity |]. split; [reflexivity |]. split; [reflexivity |].
      split; [reflexivity |]. split.
      * split; [intros (x & E); discriminate E | intros [_ E]; discriminate E].
      * intros x E. discriminate E.
    + eexists (_ :: _ :: _ :: _ :: [_]), _.
      split; [reflexivity |]. split; [reflexivity |]. split; [reflexivity |].
      split; [reflexivity |]. split.
      * split; [intros _; split; reflexivity | intros _; now eexists].
      * intros x E. now injection E as <-.
Qed.


Lemma report_interim infos : forallb isInterim (flat_map report infos) = true.
Proof. induction infos as [| i infos IH]; [reflexivity |]. cbn. exact IH. Qed.

Lemma onTrain_shape (lib : Library) (st : State)
    (data : list Data.PatientRecord) :
  let ds := fst (LstmWorker.buildDataset lib.(lowerOther) lib.(rnd) st.(draws) data) in
  let tr := lib.(training)
              (List.map (fun s => (s.(LstmWorker.input), s.(LstmWorker.output)))
                 ds.(LstmWorker.train)) in
  let out := snd (onTrain lib st data) in
  (fst (onTrain lib st data)).(net) = Some tr.(after)
  /\ exists body last,
       out = Lstm.Samples (examplesOf ds.(LstmWorker.train)) :: body ++ [last]
       /\ forallb isInterim body = true
       /\ isTerminal last = true
       /\ ((exists m, last = Lstm.Done m)
           <-> tr.(threw) = None
               /\ firstThrow tr.(after) ds.(LstmWorker.validation) = None
               /\ firstThrow tr.(after) ds.(LstmWorker.test) = None)
       /\ (forall m, last = Lstm.Done m ->
             m.(Lstm.valAcc)
             = (LstmWorker.evalSet lib.(lowerOther) (outputs tr.(after))
                  ds.(LstmWorker.validation)).(LstmWorker.acc)
             /\ m.(Lstm.testAcc)
                = (LstmWorker.evalSet lib.(lowerOther) (outputs tr.(after))
                     ds.(LstmWorker.test)).(LstmWorker.acc)).
Proof.
  intros ds tr out. unfold out, onTrain. unfold tr, ds.
  destruct (LstmWorker.buildDataset (lowerOther lib) (rnd lib) (draws st) data)
    as [d k] eqn:B. cbn [fst snd net].
  set (t := training lib _).
  split; [reflexivity |].
  destruct (threw t) as [m |] eqn:Th.
  - eexists (_ :: _ :: _ :: _ :: flat_map report (infos t)), (Lstm.Error m).
    split; [unfold opening; cbn [app]; now rewrite <- ?app_assoc |].
    split; [cbn [forallb]; cbn; apply report_interim |].
    split; [reflexivity |].
    split; [split; [intros (x & E); discriminate E | intros (E & _); discriminate E] |].
    intros x E. discriminate E.
  - destruct (closing_shape lib (after t) d) as (b & l & E & I & T & _ & D & M).
    exists ([Lstm.Log (lit "[INIT] Train: "
               ++ ofInt (Z.of_nat (length d.(LstmWorker.train)))
               ++ lit " " ++ [183%N] ++ lit " Val: "
               ++ ofInt (Z.of_nat (length d.(LstmWorker.validation)))
               ++ lit " " ++ [183%N] ++ lit " Test: "
               ++ ofInt (Z.of_nat (length d.(LstmWorker.test))));
             Lstm.Log (lit "[INIT] Short labels: " ++ [34%N] ++ lit "yes" ++ [34%N]
               ++ lit " (show) / " ++ [34%N] ++ lit "no" ++ [34%N]
               ++ lit " (no-show)");
             Lstm.Log (lit "[INIT] Iterations: 300 " ++ [183%N] ++ lit " LR: 0.01");
             Lstm.Log rule] ++ flat_map report (infos t) ++ b), l.
    split; [rewrite E; unfold opening; cbn [app]; now rewrite <- ?app_assoc |].
    split; [rewrite !forallb_app, report_interim, I; reflexivity |].
    split; [exact T |].
    split; [rewrite D; tauto |].
    intros x Ex. rewrite (M x Ex). split; reflexivity.
Qed.


Lemma onPredict_shape (lib : Library) (st : State) (text : jsstring) :
  exists m, snd (onPredict lib st text) = [m]
    /\ (st.(net) = None -> m = Lstm.Error lib.(nullMessage))
    /\ (forall n, st.(net) = Some n ->
          match n.(run) (Text.cleanText lib.(lowerOther) text) with
          | Throws e => m = Lstm.Error e
          | Returns _ =>
              exists label,
                m = Lstm.Prediction label (Text.cleanText lib.(lowerOther) text)
                /\ (label = lit "noshow" \/ label = lit "showup")
          end).
Proof.
  unfold onPredict. cbn [snd].
  destruct (net st) as [n |].
  - destruct (run n (Text.cleanText (lowerOther lib) text)) as [out | e] eqn:R.
    + eexists. split; [reflexivity |]. split; [discriminate |].
      intros n' E. injection E as <-. rewrite R.
      eexists. split; [reflexivity |].
      destruct (startsWith _ _); auto.
    + eexists. split; [reflexivity |]. split; [discriminate |].
      intros n' E. injection E as <-. now rewrite R.
  - eexists. split; [reflexivity |]. split; [reflexivity | discriminate].
Qed.

(** A [predict] request is answered by exactly one message and leaves the
    state as it is.  While [net] is null, that is before any [train]
    request, the message is an [error]; otherwise it is an [error] only if
    [net.run] throws, and else a [prediction] whose text is the cleaned
    request text and whose label is ["noshow"] or ["showup"]. *)
Theorem onPredict_reply (lib : Library) (st : State) (text : jsstring) :
  fst (onPredict lib st text) = st
  /\ exists m, snd (onPredict lib st text) = [m]
     /\ (st.(net) = None -> m = Lstm.Error lib.(nullMessage))
     /\ (forall n, st.(net) = Some n ->
           match n.(run) (Text.cleanText lib.(lowerOther) text) with
           | Throws e => m = Lstm.Error e
           | Returns _ =>
               exists label,
                 m = Lstm.Prediction label (Text.cleanText lib.(lowerOther) text)
                 /\ (label = lit "noshow" \/ label = lit "showup")
           end).
Proof.
  split; [reflexivity |].
  destruct (onPredict_shape lib st text) as (m & E & H).
  exists m. split; [exact E | exact H].
Qed.

(** While [net] is null, as it is until the first [train] request, the
    worker answers every [predict] request with an [error]: a session made
    of such requests posts one error per request, no prediction, and [net]
    stays null. *)
Theorem predict_only_session (lib : Library) (st : State)
    (reqs : list Lstm.Request) :
  st.(net) = None -> forallb isPredict reqs = true ->
  session lib st reqs
  = (st, List.map (fun _ => Lstm.Error lib.(nullMessage)) reqs).
Proof.
  intros N. induction reqs as [| r reqs IH]; intros H; [reflexivity |].
  cbn [forallb] in H. apply andb_true_iff in H. destruct H as [Hr Hs].
  destruct r as [d | t]; [discriminate |].
  cbn [session onmessage]. unfold onPredict at 1. rewrite N.
  rewrite (IH Hs). reflexivity.
Qed.

Lemma predict_only_session_witness :
  session silentLibrary initial
    [Lstm.Predict (lit "male age30 sameday sms"); Lstm.Predict (lit "female age62")]
  = (initial,
     [Lstm.Error (nullMessage silentLibrary); Lstm.Error (nullMessage silentLibrary)]).
Proof. apply (predict_only_session silentLibrary initial); reflexivity. Defined.

End WorkerHostFacts.

(** ** The prediction form and the gauge *)

Module FormFacts.
Import JsString Form.

(** *** Integers are doubles up to 2^53 *)

Lemma Qred_inject_Z z : Qred (inject_Z z) = inject_Z z.
Proof.
  unfold Qred, inject_Z.
  pose proof (Z.ggcd_correct_divisors z 1) as D.
  pose proof (Z.ggcd_gcd z 1) as G. rewrite Z.gcd_1_r in G.
  destruct (Z.ggcd z 1) as [g [aa bb]]. cbn [fst snd] in *. subst g.
  destruct D as [-> E]. rewrite !Z.mul_1_l in *. now rewrite <- E.
Qed.

Lemma exponent_int a : 0 < a < 2 ^ 53 -> 0 <= Double.exponent a 1.
Proof.
  intros [A0 A1]. unfold Double.exponent.
  assert (L : Z.log2 a < 53) by (apply Z.log2_lt_pow2; lia).
  change (Z.log2 1) with 0.
  destruct (Double.shift2 a 1 (52 - (Z.log2 a - 0))) as [N D].
  destruct (D * 2 ^ 52 <=? N); lia.
Qed.

Lemma roundPos_int a : 0 < a < 2 ^ 53 -> (Double.roundPos a 1 == inject_Z a)%Q.
Proof.
  intros A. pose proof (exponent_int a A) as T.
  unfold Double.roundPos. set (t := Double.exponent a 1) in *.
  unfold Double.shift2.
  rewrite (Z.max_l t 0), (Z.max_r (- t) 0) by lia.
  change (2 ^ 0) with 1. rewrite !Z.mul_1_r.
  unfold Double.nearestEven.
  rewrite Z.div_1_r, Z.mod_1_r.
  change ((1 <? 2 * 0) || (1 =? 2 * 0) && Z.odd (a * 2 ^ t)) with false.
  cbv iota.
  assert (P : 0 < 2 ^ t) by (apply Z.pow_pos_nonneg; lia).
  unfold Qeq, inject_Z. cbn [Qnum Qden].
  rewrite Z2Pos.id by exact P. lia.
Qed.

Lemma fl_int z : Z.abs z < 2 ^ 53 -> Double.fl (inject_Z z) = inject_Z z.
Proof.
  intros B. unfold Double.fl. rewrite Qred_inject_Z.
  destruct z as [| a | a]; cbn [inject_Z Qnum Qden].
  - reflexivity.
  - rewrite <- (Qred_inject_Z (Z.pos a)). apply Qred_complete.
    apply roundPos_int. lia.
  - rewrite <- (Qred_inject_Z (Z.neg a)). apply Qred_complete.
    rewrite (roundPos_int (Z.pos a)) by lia. reflexivity.
Qed.

(** *** Reading a decimal numeral *)

Lemma stop_digits z acc rest :
  endsNumeral z rest -> digitsValue 10 acc rest = acc.
Proof.
  destruct rest as [| c r]; [reflexivity |]. intros [D _].
  cbn [digitsValue]. now rewrite D.
Qed.

Lemma digit_step c v acc s :
  digitIn 10 c = Some v ->
  digitsValue 10 acc (c :: s) = digitsValue 10 (Some (10 * default 0 acc + v)) s.
Proof. intros D. cbn [digitsValue]. now rewrite D. Qed.

Ltac read_digit :=
  cbn [NilEmpty.string_of_uint Pos.of_uint_acc Pos.of_uint];
  change (lit (String ?c ?s)) with (N_of_ascii c :: lit s);
  cbn [app]; erewrite digit_step by (vm_compute; reflexivity);
  cbn [default]; unfold id.

Lemma digits_acc d : forall acc rest,
  (forall a, digitsValue 10 a rest = a) ->
  digitsValue 10 (Some (Z.pos acc)) (lit (NilEmpty.string_of_uint d) ++ rest)
  = Some (Z.pos (Pos.of_uint_acc d acc)).
Proof.
  induction d as [| d IH | d IH | d IH | d IH | d IH | d IH | d IH | d IH | d IH | d IH];
    intros acc rest S; [now apply S | ..];
    read_digit; rewrite <- (IH _ rest S);
    match goal with
    | |- digitsValue _ (Some ?x) _ = digitsValue _ (Some ?y) _ =>
        replace x with y by lia
    end; reflexivity.
Qed.

Lemma digits_zero d : forall rest,
  (forall a, digitsValue 10 a rest = a) ->
  digitsValue 10 (Some 0) (lit (NilEmpty.string_of_uint d) ++ rest)
  = Some (Z.of_N (Pos.of_uint d)).
Proof.
  induction d as [| d IH | d IH | d IH | d IH | d IH | d IH | d IH | d IH | d IH | d IH];
    intros rest S;
    [ now apply S
    | read_digit; exact (IH rest S)
    | ..];
    read_digit; cbn [Z.of_N]; rewrite <- (digits_acc d _ rest S); reflexivity.
Qed.

Lemma digits_pos p rest :
  (forall a, digitsValue 10 a rest = a) ->
  digitsValue 10 None (ofInt (Z.pos p) ++ rest) = Some (Z.pos p).
Proof.
  intros S. unfold ofInt. cbn [Z.to_int NilZero.string_of_int].
  pose proof (DecimalPos.Unsigned.of_to p) as E.
  pose proof (digits_zero (Pos.to_uint p) rest S) as D.
  rewrite E in D. cbn [Z.of_N] in D. rewrite <- D.
  unfold NilZero.string_of_uint.
  destruct (Pos.to_uint p) as [| d | d | d | d | d | d | d | d | d | d];
    [discriminate E | ..];
    cbn [NilEmpty.string_of_uint];
    change (lit (String ?c ?s)) with (N_of_ascii c :: lit s);
    cbn [app]; erewrite !digit_step by (vm_compute; reflexivity); reflexivity.
Qed.

Lemma digits_abs z rest :
  (forall a, digitsValue 10 a rest = a) ->
  digitsValue 10 None (ofInt (Z.abs z) ++ rest) = Some (Z.abs z).
Proof.
  intros S. destruct z as [| p | p];
    [ change (Z.abs 0) with 0
    | exact (digits_pos p rest S)
    | exact (digits_pos p rest S) ].
  change (ofInt 0) with [48%N]. cbn [app].
  erewrite digit_step by (vm_compute; reflexivity).
  now apply S.
Qed.

Lemma trimStart_white ws s :
  forallb isWhite ws = true -> trimStart (ws ++ s) = trimStart s.
Proof.
  induction ws as [| c ws IH]; [reflexivity |]. cbn [forallb app trimStart].
  intros H. apply andb_true_iff in H. destruct H as [-> H]. now apply IH.
Qed.

Lemma uint_decimal d :
  forallb (fun c => (48 <=? c) && (c <=? 57))%N (lit (NilEmpty.string_of_uint d))
  = true.
Proof. induction d; cbn; auto. Qed.

Lemma ofInt_abs_decimal z :
  exists c r, ofInt (Z.abs z) = c :: r
              /\ forallb (fun c => (48 <=? c) && (c <=? 57))%N (c :: r) = true.
Proof.
  assert (U : forall d, exists c r,
             lit (NilZero.string_of_uint d) = c :: r
             /\ forallb (fun c => (48 <=? c) && (c <=? 57))%N (c :: r) = true).
  { intros d. pose proof (uint_decimal d) as D.
    destruct d;
      [ exists 48%N, []; split; reflexivity | ..];
      cbn [NilZero.string_of_uint];
      destruct (lit (NilEmpty.string_of_uint _)) as [| c r] eqn:E;
      try discriminate E; exists c, r; split; auto. }
  unfold ofInt. destruct z; cbn [Z.abs Z.to_int NilZero.string_of_int]; apply U.
Qed.

(** Only zero is rendered as the single digit 0. *)
Lemma ofInt_abs_zero z : ofInt (Z.abs z) = [48%N] -> z = 0.
Proof.
  assert (U : forall p, lit (NilZero.string_of_uint (Pos.to_uint p)) <> [48%N]).
  { intros p E. pose proof (DecimalPos.Unsigned.to_uint_nonnil p) as NN.
    apply (DecimalPos.Unsigned.to_uint_nonzero p).
    destruct (Pos.to_uint p) as [| d | d | d | d | d | d | d | d | d | d];
      [congruence | | discriminate E ..].
    destruct d; try discriminate E. reflexivity. }
  unfold ofInt.
  destruct z as [| p | p]; cbn [Z.abs Z.to_int NilZero.string_of_int];
    [reflexivity | |]; intros E; destruct (U p E).
Qed.

Lemma decimal_range c :
  ((48 <=? c) && (c <=? 57))%N = true -> (48 <= c <= 57)%N.
Proof. intros H. apply andb_true_iff in H. destruct H as [A B].
  apply N.leb_le in A, B. lia. Qed.

(** [parseInt] reads back the decimal rendering of an integer, whatever
    white space precedes it and whatever follows it. *)
Lemma parseInt_numeral ws z rest :
  forallb isWhite ws = true -> endsNumeral z rest ->
  parseInt (ws ++ ofInt z ++ rest) = toNumber z.
Proof.
  intros W S. unfold parseInt. rewrite (trimStart_white ws _ W).
  pose proof (digits_abs z rest (fun a => stop_digits z a rest S)) as V.
  rewrite EncodingFacts.ofInt_sign.
  destruct (ofInt_abs_decimal z) as (c & r & E & D).
  pose proof (ofInt_abs_zero z) as Z0.
  rewrite E in *. cbn [forallb] in D. apply andb_true_iff in D.
  destruct D as [Dc Dr]. apply decimal_range in Dc.
  assert (Wc : isWhite c = false).
  { destruct (isWhite c) eqn:Wc; [| reflexivity].
    apply TextFacts.isWhite_range in Wc. lia. }
  assert (H : readRadix ((c :: r) ++ rest) = (10, (c :: r) ++ rest)).
  { unfold readRadix. cbn [app].
    destruct (r ++ rest) as [| c2 r0] eqn:R; [reflexivity |].
    destruct ((c =? 48) && ((c2 =? 120) || (c2 =? 88)))%N eqn:B; [| reflexivity].
    exfalso. apply andb_true_iff in B. destruct B as [B1 B2].
    apply N.eqb_eq in B1. apply orb_true_iff in B2.
    destruct r as [| d r'].
    - cbn [app] in R. subst rest c. destruct S as [_ X].
      destruct (X (Z0 eq_refl)) as [X1 X2].
      destruct B2 as [B2 | B2]; apply N.eqb_eq in B2; congruence.
    - cbn [app] in R. injection R as -> _. cbn [forallb] in Dr.
      apply andb_true_iff in Dr. destruct Dr as [Dd _].
      apply decimal_range in Dd.
      destruct B2 as [B2 | B2]; apply N.eqb_eq in B2; lia. }
  destruct (z <? 0) eqn:Z.
  - change (trimStart (([45%N] ++ c :: r) ++ rest)) with (45%N :: (c :: r) ++ rest).
    change (readSign (45%N :: (c :: r) ++ rest)) with (true, (c :: r) ++ rest).
    cbv iota. rewrite H, V. f_equal. apply Z.ltb_lt in Z. lia.
  - assert (T : trimStart (([] ++ c :: r) ++ rest) = (c :: r) ++ rest).
    { cbn [app trimStart]. now rewrite Wc. }
    assert (G : readSign ((c :: r) ++ rest) = (false, (c :: r) ++ rest)).
    { cbn [app readSign].
      replace (c =? 45)%N with false by (symmetry; apply N.eqb_neq; lia).
      replace (c =? 43)%N with false by (symmetry; apply N.eqb_neq; lia).
      reflexivity. }
    rewrite T, G. cbv iota. rewrite H, V. f_equal. apply Z.ltb_ge in Z. lia.
Qed.

Lemma toNumber_int z : Z.abs z < 2 ^ 53 -> toNumber z = JsNumber.Fin (inject_Z z).
Proof.
  intros B. unfold toNumber. rewrite (fl_int z B).
  assert (L : 2 ^ 53 < 2 ^ 1024 - 2 ^ 970) by (vm_compute; reflexivity).
  destruct (Z.leb_spec (2 ^ 1024 - 2 ^ 970) (Z.abs z)) as [G | _]; [| reflexivity].
  exfalso. apply (Z.lt_irrefl (Z.abs z)).
  eapply Z.lt_le_trans; [| exact G]. eapply Z.lt_trans; eassumption.
Qed.

(** A field holding the decimal rendering of an integer below 2^53 in
    magnitude is read as that integer: white space before it is skipped
    and what follows it is ignored, as long as that does not begin with a
    further digit or, after a lone zero, turn it into a hexadecimal
    prefix. *)
Theorem parseInt_reads_rendering (ws : jsstring) (z : Z) (rest : jsstring) :
  forallb isWhite ws = true -> Z.abs z < 2 ^ 53 -> endsNumeral z rest ->
  parseInt (ws ++ ofInt z ++ rest) = JsNumber.Fin (inject_Z z).
Proof.
  intros W B S. rewrite (parseInt_numeral ws z rest W S). now apply toNumber_int.
Qed.

Lemma parseInt_reads_rendering_witness :
  parseInt (lit "  " ++ ofInt (-12) ++ lit "px") = JsNumber.Fin (inject_Z (-12)).
Proof.
  apply (parseInt_reads_rendering (lit "  ") (-12) (lit "px")).
  - reflexivity.
  - vm_compute. reflexivity.
  - split; [reflexivity | intros E; discriminate E].
Defined.

(** *** The form and the evaluation *)

Lemma orElse_int z d :
  orElse (JsNumber.Fin (inject_Z z)) (inject_Z d)
  = JsNumber.Fin (inject_Z (if z =? 0 then d else z)).
Proof.
  unfold orElse. destruct (Z.eqb_spec z 0) as [-> | N]; [reflexivity |].
  destruct (Qeq_bool (inject_Z z) 0) eqn:E; [| reflexivity].
  apply Qeq_bool_eq in E. unfold Qeq, inject_Z in E. cbn [Qnum Qden] in E. lia.
Qed.

Lemma flag_gender x :
  x = 0 \/ x = 1 ->
  flag (if x =? 1 then lit "M" else lit "F") (lit "M") = inject_Z x.
Proof. intros [-> | ->]; reflexivity. Qed.

Lemma flag_yesNo x :
  x = 0 \/ x = 1 -> flag (yesNo x) (lit "Yes") = inject_Z x.
Proof. intros [-> | ->]; reflexivity. Qed.

Lemma predict_record net c r :
  Z.abs r.(Data.age) < 2 ^ 53 -> Z.abs r.(Data.days_wait) < 2 ^ 53 ->
  flagsBinary r ->
  predict net c (ofInt r.(Data.age)) (ofInt r.(Data.days_wait)) (togglesOf r)
  = Risk (Functions.predVal (net (Functions.recordVector c (asTyped r)))).
Proof.
  intros A D (F1 & F2 & F3 & F4 & F5 & F6). unfold predict.
  pose proof (parseInt_numeral [] r.(Data.age) [] eq_refl I) as PA.
  pose proof (parseInt_numeral [] r.(Data.days_wait) [] eq_refl I) as PD.
  cbn [app] in PA, PD. rewrite app_nil_r in PA, PD.
  rewrite PA, PD, (toNumber_int _ A), (toNumber_int _ D).
  change 30%Q with (inject_Z 30). change 0%Q with (inject_Z 0).
  rewrite !orElse_int. cbn [scalable].
  unfold togglesOf. cbn [gender sms schl ht db al].
  rewrite (flag_gender _ F1), (flag_yesNo _ F2), (flag_yesNo _ F3),
    (flag_yesNo _ F4), (flag_yesNo _ F5), (flag_yesNo _ F6).
  unfold Functions.recordVector, asTyped.
  cbn [Data.age Data.days_wait Data.gender Data.sms_received Data.scholarship
       Data.hipertension Data.diabetes Data.alcoholism].
  replace (if Data.days_wait r =? 0 then 0 else Data.days_wait r)
    with (Data.days_wait r)
    by (destruct (Z.eqb_spec (Data.days_wait r) 0) as [-> | _]; reflexivity).
  reflexivity.
Qed.

Lemma isNoShow_predClass v : isNoShow v = (Functions.predClass v =? 1).
Proof.
  unfold isNoShow, Functions.predClass, Functions.THRESHOLD.
  destruct v as [x |]; [| reflexivity]. now destruct (Qlt_le_dec (5 # 10) x).
Qed.

(** Typing a record into the form (its age and waiting days as decimal
    numerals, its flags on the toggles) runs the network on the vector the
    evaluation builds for that record, and the gauge announces a no-show
    exactly when the evaluation classifies the record as one; except that
    an age of zero is replaced by 30 before the network sees it. *)
Theorem form_agrees_with_evaluation
    (net : Functions.FeatureVector -> Functions.NetOutput)
    (c : Functions.Configuration) (r : Data.PatientRecord) :
  Z.abs r.(Data.age) < 2 ^ 53 -> Z.abs r.(Data.days_wait) < 2 ^ 53 ->
  flagsBinary r ->
  exists risk,
    predict net c (ofInt r.(Data.age)) (ofInt r.(Data.days_wait)) (togglesOf r)
    = Risk risk
    /\ risk = Functions.predVal (net (Functions.recordVector c (asTyped r)))
    /\ (r.(Data.age) <> 0 -> asTyped r = r)
    /\ (r.(Data.age) = 0 -> (asTyped r).(Data.age) = 30)
    /\ ((updateGauge risk).(verdictLabel) = lit "Likely No-Show"
        <-> Functions.classify net c (asTyped r) = 1)
    /\ ((updateGauge risk).(verdictLabel) = lit "Will Attend"
        <-> Functions.classify net c (asTyped r) = 0).
Proof.
  intros A D F. eexists. split; [apply (predict_record net c r A D F) |].
  split; [reflexivity |].
  split.
  { intros N. unfold asTyped. destruct (Z.eqb_spec (Data.age r) 0); [easy |].
    now destruct r. }
  split.
  { intros E. unfold asTyped. cbn [Data.age]. now rewrite E. }
  unfold updateGauge. cbn [verdictLabel]. rewrite isNoShow_predClass.
  unfold Functions.classify.
  set (v := Functions.predVal _).
  assert (C : Functions.predClass v = 0 \/ Functions.predClass v = 1).
  { unfold Functions.predClass. destruct v as [x |]; [| now left].
    destruct (Qlt_le_dec Functions.THRESHOLD x); auto. }
  destruct C as [-> | ->]; cbn; split; split; intros H; try reflexivity;
    discriminate H.
Qed.

Lemma form_agrees_with_evaluation_witness :
  exists risk,
    predict (fun v => Functions.OutObject (Some v.(Functions.in_age)))
      Functions.demoConfiguration (lit "0") (lit "2")
      (togglesOf (Data.mkRecord 0 2 1 1 0 0 0 0 (lit "CENTRO") 0))
    = Risk risk.
Proof.
  destruct (form_agrees_with_evaluation
              (fun v => Functions.OutObject (Some v.(Functions.in_age)))
              Functions.demoConfiguration
              (Data.mkRecord 0 2 1 1 0 0 0 0 (lit "CENTRO") 0))
    as (risk & P & _).
  - vm_compute. reflexivity.
  - vm_compute. reflexivity.
  - unfold flagsBinary. cbn. tauto.
  - exists risk. exact P.
Defined.

(** *** The gauge *)

Lemma riskPct_bounds x :
  (0 <= x)%Q -> (x <= 1)%Q ->
  0 <= Progress.round (Double.fl (x * 100)) <= 100
  /\ (((5 # 10) < x)%Q -> 50 <= Progress.round (Double.fl (x * 100)))
  /\ ((x <= (5 # 10))%Q -> Progress.round (Double.fl (x * 100)) <= 50).
Proof.
  intros X0 X1. unfold Progress.round.
  assert (P : (0 <= x * 100)%Q) by nra.
  destruct (DoubleFacts.fl_bounds (x * 100) P) as [L U].
  pose proof (DoubleFacts.fl_nonneg (x * 100) P) as N.
  set (y := Double.fl (x * 100)) in *.
  assert (Uv : (Double.u == 1 # 2 ^ 53)%Q) by reflexivity.
  assert (Us : (0 < Double.u /\ Double.u <= 1 # 1000)%Q).
  { rewrite Uv. split; [reflexivity |]. unfold Qle. cbn. lia. }
  split; [split |]; [| | split].
  - apply LstmWorkerFacts.Qfloor_ge. change (inject_Z 0) with 0%Q. lra.
  - apply LstmWorkerFacts.Qfloor_lt_succ.
    change (inject_Z (100 + 1)) with 101%Q. nra.
  - intros H. apply LstmWorkerFacts.Qfloor_ge. change (inject_Z 50) with 50%Q. nra.
  - intros H. apply LstmWorkerFacts.Qfloor_lt_succ.
    change (inject_Z (50 + 1)) with 51%Q. nra.
Qed.

(** For a risk between 0 and 1 the gauge shows a whole percentage between
    0 and 100, and the verdict never contradicts it: a no-show verdict
    comes with 50% or more, an attendance verdict with 50% or less, and
    colour, class, label and description change together. *)
Theorem updateGauge_consistent (x : Q) :
  (0 <= x)%Q -> (x <= 1)%Q ->
  let g := updateGauge (Some x) in
  exists pct : Z,
    0 <= pct <= 100
    /\ g.(gaugeText) = ofInt pct ++ lit "%"
    /\ ( ((5 # 10) < x)%Q /\ 50 <= pct
         /\ g.(verdictLabel) = lit "Likely No-Show"
         /\ g.(className) = lit "verdict-label no-show"
         /\ g.(stroke) = lit "var(--danger)"
         /\ startsWith g.(verdictDesc) (lit "Risk score: " ++ ofInt pct ++ lit "% ")
            = true
         \/
         (x <= (5 # 10))%Q /\ pct <= 50
         /\ g.(verdictLabel) = lit "Will Attend"
         /\ g.(className) = lit "verdict-label will-show"
         /\ g.(stroke) = lit "var(--accent)"
         /\ startsWith g.(verdictDesc) (lit "Risk score: " ++ ofInt pct ++ lit "% ")
            = true ).
Proof.
  intros X0 X1 g.
  destruct (riskPct_bounds x X0 X1) as (B & Hi & Lo).
  exists (Progress.round (Double.fl (x * 100))).
  split; [exact B |]. split; [reflexivity |].
  assert (SW : forall a b : jsstring, startsWith (a ++ b) a = true).
  { intros a b. induction a as [| c a IH]; [now destruct b |].
    cbn [app startsWith]. now rewrite N.eqb_refl, IH. }
  assert (SW3 : forall a p b rest : jsstring,
             startsWith (a ++ p ++ b ++ rest) (a ++ p ++ b) = true).
  { intros a p b rest.
    replace (a ++ p ++ b ++ rest) with ((a ++ p ++ b) ++ rest)
      by (now rewrite <- !app_assoc).
    apply SW. }
  unfold g, updateGauge, isNoShow.
  cbn [verdictLabel className stroke verdictDesc riskPct showPct].
  destruct (Qlt_le_dec (5 # 10) x) as [H | H]; [left | right];
    (split; [exact H |]); (split; [auto |]);
    repeat (split; [reflexivity |]).
  - apply SW3.
  - apply SW3.
Qed.

Lemma updateGauge_consistent_witness :
  exists pct : Z, 0 <= pct <= 100
    /\ gaugeText (updateGauge (Some (503 # 1000)%Q)) = ofInt pct ++ lit "%".
Proof.
  destruct (updateGauge_consistent (503 # 1000)) as (pct & B & T & _).
  - unfold Qle. cbn. lia.
  - unfold Qle. cbn. lia.
  - exists pct. split; [exact B | exact T].
Defined.

End FormFacts.

(** ** Training the feed-forward network *)

Module TrainerFacts.
Import JsString Trainer.

Lemma calls_progress infos :
  List.filter isProgress (flat_map report infos)
  = List.map (fun i => OnProgress
                         (Progress.progressPct ITERATIONS i.(Progress.iterations))
                         i.(Progress.error)) infos.
Proof. induction infos as [| i infos IH]; [reflexivity |]. cbn. now rewrite IH. Qed.

Lemma calls_not_final infos :
  forallb (fun call => negb (isFinal call)) (flat_map report infos) = true.
Proof. induction infos as [| i infos IH]; [reflexivity |]. cbn. exact IH. Qed.

Lemma positives_negatives data :
  length data = (Functions.positives data + Functions.negatives data)%nat.
Proof.
  unfold Functions.positives, Functions.negatives.
  induction data as [| r data IH]; [reflexivity |].
  cbn [List.filter length]. destruct (Functions.isPositive r); cbn; lia.
Qed.

(** *** Calls that may throw *)

(** The calls made are the calls intended up to the one that throws. *)
Lemma perform_prefix h calls : forall history,
  exists rest,
    calls = fst (perform h history calls) ++ rest
    /\ (snd (perform h history calls) = None -> rest = []).
Proof.
  induction calls as [| c calls IH]; intros history.
  - exists []. split; reflexivity.
  - cbn [perform]. destruct (h history c) as [m |].
    + exists calls. split; [reflexivity | discriminate].
    + destruct (IH (history ++ [c])) as (rest & E & N).
      destruct (perform h (history ++ [c]) calls) as [made t].
      cbn [fst snd] in *. exists rest. split; [now rewrite E at 1 | exact N].
Qed.

Lemma perform_returns h calls history :
  (forall past call, h past call = None) ->
  perform h history calls = (calls, None).
Proof.
  intros Q. revert history.
  induction calls as [| c calls IH]; intros history; [reflexivity |].
  cbn [perform]. now rewrite Q, IH.
Qed.

(** At least the first call is made. *)
Lemma perform_head h history c calls :
  head (fst (perform h history (c :: calls))) = Some c.
Proof.
  cbn [perform]. destruct (h history c); [reflexivity |].
  now destruct (perform h (history ++ [c]) calls).
Qed.

Lemma perform_one h history c :
  fst (perform h history [c]) = [c].
Proof. cbn [perform]. now destruct (h history c). Qed.

(** A prefix of calls that end with their only final call either has no
    final call or is all of them. *)
Lemma prefix_final (pre made rest : list Call) (d : Call) :
  forallb (fun call => negb (isFinal call)) pre = true ->
  pre ++ [d] = made ++ rest ->
  forallb (fun call => negb (isFinal call)) made = true
  \/ (made = pre ++ [d] /\ rest = []).
Proof.
  revert made. induction pre as [| p pre IH]; intros made F E.
  - destruct made as [| x made]; [now left |].
    cbn in E. injection E as <- E.
    destruct made; [| discriminate E]. right. cbn in E. now subst rest.
  - cbn [forallb] in F. apply andb_true_iff in F. destruct F as [Fp F].
    destruct made as [| x made]; [now left |].
    cbn in E. injection E as <- E.
    destruct (IH made F E) as [N | [-> ->]].
    + left. cbn [forallb]. now rewrite Fp, N.
    + right. split; reflexivity.
Qed.

Lemma prefix_nonfinal (pre made rest : list Call) :
  forallb (fun call => negb (isFinal call)) pre = true ->
  pre = made ++ rest ->
  forallb (fun call => negb (isFinal call)) made = true.
Proof.
  intros F ->. rewrite forallb_app in F. apply andb_true_iff in F. tauto.
Qed.

(** The calls of the timer: no final call, then nothing more than [onDone]
    and [onError], in this order, each at most once. *)
Lemma deferred_shape h history run :
  exists body tail,
    fst (deferred h history run) = body ++ tail
    /\ forallb (fun call => negb (isFinal call)) body = true
    /\ ((exists stats, run.(result) = inl stats
                       /\ (tail = [OnDone stats]
                           \/ exists m, tail = [OnDone stats; OnError m]))
        \/ exists m, tail = [OnError m]).
Proof.
  unfold deferred.
  destruct (perform_prefix h (attempt run) history) as (rest & E & N).
  destruct (perform h history (attempt run)) as [made t]. cbn [fst snd] in E, N.
  pose proof (calls_not_final (infos run)) as NF.
  unfold attempt in E.
  destruct (result run) as [stats | m] eqn:R.
  - assert (F : forallb (fun call => negb (isFinal call))
                  (flat_map report (infos run)
                   ++ [OnLog rule; OnLog (doneLine stats)]) = true).
    { rewrite forallb_app, NF. reflexivity. }
    assert (E' : (flat_map report (infos run)
                  ++ [OnLog rule; OnLog (doneLine stats)]) ++ [OnDone stats]
                 = made ++ rest).
    { rewrite <- E, <- app_assoc. reflexivity. }
    destruct (prefix_final _ made rest _ F E') as [NM | [-> ->]].
    + destruct t as [m |].
      * pose proof (perform_one h (history ++ made) (OnError m)) as P1.
        destruct (perform h (history ++ made) [OnError m]) as [made' u].
        cbn [fst] in *. subst made'.
        exists made, [OnError m]. split; [reflexivity |]. split; [exact NM |].
        right. now exists m.
      * specialize (N eq_refl). subst rest. rewrite app_nil_r in E'.
        subst made. rewrite forallb_app in NM. cbn in NM.
        rewrite andb_false_r in NM. discriminate NM.
    + destruct t as [m |].
      * pose proof (perform_one h
                      (history ++ (flat_map report (infos run)
                                   ++ [OnLog rule; OnLog (doneLine stats)])
                               ++ [OnDone stats]) (OnError m)) as P1.
        destruct (perform h _ [OnError m]) as [made' u].
        cbn [fst] in *. subst made'.
        exists (flat_map report (infos run) ++ [OnLog rule; OnLog (doneLine stats)]),
          [OnDone stats; OnError m].
        split; [now rewrite <- !app_assoc |]. split; [exact F |].
        left. exists stats. split; [reflexivity |]. right. now exists m.
      * exists (flat_map report (infos run) ++ [OnLog rule; OnLog (doneLine stats)]),
          [OnDone stats].
        split; [reflexivity |]. split; [exact F |].
        left. exists stats. split; [reflexivity |]. now left.
  - rewrite app_nil_r in E.
    pose proof (prefix_nonfinal _ made rest NF E) as NM.
    destruct t as [m' |].
    + pose proof (perform_one h (history ++ made) (OnError m')) as P1.
      destruct (perform h (history ++ made) [OnError m']) as [made' u].
      cbn [fst] in *. subst made'.
      exists made, [OnError m']. split; [reflexivity |]. split; [exact NM |].
      right. now exists m'.
    + pose proof (perform_one h (history ++ made) (OnError m)) as P1.
      destruct (perform h (history ++ made) [OnError m]) as [made' u].
      cbn [fst] in *. subst made'.
      exists made, [OnError m]. split; [reflexivity |]. split; [exact NM |].
      right. now exists m.
Qed.

(** With callbacks that return, the timer makes every call. *)
Lemma deferred_returns h history run :
  (forall past call, h past call = None) ->
  deferred h history run
  = (flat_map report run.(infos)
     ++ match run.(result) with
        | inl stats => [OnLog rule; OnLog (doneLine stats); OnDone stats]
        | inr message => [OnError message]
        end, None).
Proof.
  intros Q. unfold deferred. rewrite (perform_returns h _ _ Q). unfold attempt.
  destruct (result run) as [stats | m]; [reflexivity |].
  rewrite (perform_returns h _ _ Q), app_nil_r. reflexivity.
Qed.

(** [trainModel], on a dataset of fewer than 2^32 records as every
    JavaScript array has, trains on a shuffle of the oversampled data and
    keeps it in [myBrain.trainingData].  Before it returns it calls nothing but
    [onLog], on the first of its five lines at least; that line gives the
    original size as 150 whatever the data is, and the oversampled size as
    the number of records plus twice the number of no-shows.  If one of
    these calls throws, [trainModel] throws and the timer is never set.
    When the timer fires, [onDone] and [onError] are called at most once
    each and after every other call; [onDone] only with the statistics that
    training returned, and [onError] after it only because [onDone] itself
    has thrown, since it is called inside the [try] block.  With callbacks
    that return there is one [onProgress] per call of the training
    callback, and the last call is [onDone] if training returned and
    [onError] if it threw. *)
Theorem trainModel_protocol (c : Functions.Configuration) (rnd : Random.source)
    (k : nat) (h : Handlers) (train : list Functions.Sample -> TrainRun)
    (data : list Data.PatientRecord) :
  Random.inRange rnd -> Z.of_nat (length data) < 2 ^ 32 ->
  let o := trainModel c rnd k h train data in
  let td := o.(brain).(Functions.trainingData) in
  let run := train td in
  td ≡ₚ Functions.balanced c data
  /\ (exists rest, announce td = o.(now) ++ rest)
  /\ head o.(now)
     = Some (OnLog (lit "[INIT] Original samples: 150 " ++ [8594%N]
                    ++ lit " After oversampling: "
                    ++ ofInt (Z.of_nat (length data
                                        + 2 * Functions.positives data))))
  /\ (o.(thrown) <> None -> o.(later) = [])
  /\ (o.(thrown) = None ->
      o.(now) = announce td
      /\ exists body tail,
           o.(later) = body ++ tail
           /\ forallb (fun call => negb (isFinal call)) body = true
           /\ ((exists stats, run.(result) = inl stats
                               /\ (tail = [OnDone stats]
                                   \/ exists m, tail = [OnDone stats; OnError m]))
               \/ exists m, tail = [OnError m]))
  /\ ((forall past call, h past call = None) ->
      o.(thrown) = None /\ o.(uncaught) = None
      /\ List.filter isProgress o.(later)
         = List.map (fun i => OnProgress
                                (Progress.progressPct ITERATIONS
                                   i.(Progress.iterations))
                                i.(Progress.error)) run.(infos)
      /\ exists body last,
           o.(later) = body ++ [last]
           /\ forallb (fun call => negb (isFinal call)) body = true
           /\ match run.(result) with
              | inl stats => last = OnDone stats
              | inr message => last = OnError message
              end).
Proof.
  intros _ _. cbv zeta. unfold trainModel, Functions.prepareTrainingData.
  pose proof (RandomFacts.shuffle_perm rnd k
                (fold_left (Functions.pushRecord c) data [])) as P.
  destruct (Random.shuffle rnd k (fold_left (Functions.pushRecord c) data []))
    as [shuffled k'].
  cbn [fst] in P.
  rewrite FunctionsFacts.pushRecord_fold in P. cbn [app] in P.
  fold (Functions.balanced c data) in P.
  assert (Len : Z.of_nat (length shuffled)
                = Z.of_nat (length data + 2 * Functions.positives data)).
  { rewrite P, FunctionsFacts.balanced_length, (positives_negatives data). lia. }
  destruct (perform_prefix h (announce shuffled) []) as (rest & E & N).
  pose proof (perform_head h [] (OnLog (lit "[INIT] Original samples: 150 "
                                        ++ [8594%N]
                                        ++ lit " After oversampling: "
                                        ++ ofInt (Z.of_nat (length shuffled))))
                (tl (announce shuffled))) as Hd.
  change (_ :: tl (announce shuffled)) with (announce shuffled) in Hd.
  pose proof (perform_returns h (announce shuffled) []) as Q1.
  destruct (perform h [] (announce shuffled)) as [made exn].
  cbn [fst snd] in E, N, Hd. rewrite Len in Hd.
  destruct exn as [m |].
  - cbn [brain now later thrown uncaught Functions.trainingData].
    split; [exact P |]. split; [now exists rest |]. split; [exact Hd |].
    split; [reflexivity |]. split; [discriminate |].
    intros Q. specialize (Q1 Q). discriminate Q1.
  - specialize (N eq_refl). subst rest. rewrite app_nil_r in E.
    destruct (deferred_shape h made (train shuffled)) as (body & tail & S & F & T).
    pose proof (deferred_returns h made (train shuffled)) as Q2.
    destruct (deferred h made (train shuffled)) as [made' exn'].
    cbn [fst] in S.
    cbn [brain now later thrown uncaught Functions.trainingData].
    split; [exact P |]. split; [exists []; now rewrite app_nil_r |].
    split; [exact Hd |]. split; [congruence |].
    split.
    { intros _. split; [now symmetry |]. exists body, tail. tauto. }
    intros Q. specialize (Q2 Q). injection Q2 as -> ->.
    split; [reflexivity |]. split; [reflexivity |].
    split.
    + rewrite List.filter_app, calls_progress.
      destruct (result (train shuffled)); cbn; now rewrite app_nil_r.
    + pose proof (calls_not_final (infos (train shuffled))) as NF.
      destruct (result (train shuffled)) as [stats | m].
      * exists (flat_map report (infos (train shuffled))
                ++ [OnLog rule; OnLog (doneLine stats)]), (OnDone stats).
        split; [now rewrite <- app_assoc |]. split; [| reflexivity].
        rewrite forallb_app, NF. reflexivity.
      * exists (flat_map report (infos (train shuffled))), (OnError m).
        split; [reflexivity |]. split; [exact NF | reflexivity].
Qed.

Lemma trainModel_protocol_witness :
  exists rest,
    announce
      (Functions.trainingData
         (brain (trainModel Functions.demoConfiguration Functions.demoDraws 0
                   failingDone
                   (fun _ => {| infos := [Progress.mkInfo 250 JsNumber.NaN];
                                result := inl (Progress.mkInfo 5000
                                                 (JsNumber.Fin (1 # 10))) |})
                   Functions.demoData)))
    = now (trainModel Functions.demoConfiguration Functions.demoDraws 0
             failingDone
             (fun _ => {| infos := [Progress.mkInfo 250 JsNumber.NaN];
                          result := inl (Progress.mkInfo 5000
                                           (JsNumber.Fin (1 # 10))) |})
             Functions.demoData)
      ++ rest.
Proof.
  pose proof (trainModel_protocol Functions.demoConfiguration Functions.demoDraws 0
                failingDone
                (fun _ => {| infos := [Progress.mkInfo 250 JsNumber.NaN];
                             result := inl (Progress.mkInfo 5000
                                              (JsNumber.Fin (1 # 10))) |})
                Functions.demoData FunctionsFacts.demoDraws_inRange
                ltac:(vm_compute; reflexivity)) as H.
  cbv zeta in H. destruct H as (_ & H & _). exact H.
Defined.

(** An [onDone] that throws is followed by [onError]; a training error of
    NaN is reported and logged as such. *)
Example trainModel_failing_onDone :
  let o := trainModel Functions.demoConfiguration Functions.demoDraws 0
             failingDone
             (fun _ => {| infos := [Progress.mkInfo 250 JsNumber.NaN];
                          result := inl (Progress.mkInfo 5000
                                           (JsNumber.Fin (1 # 10))) |})
             Functions.demoData in
  o.(later)
  = [ OnProgress 5 JsNumber.NaN;
      OnLog (lit "[iter 0250]  error: NaN");
      OnLog rule;
      OnLog (lit "[DONE] Finished in 5000 iterations " ++ [183%N]
             ++ lit " Final error: 0.100000");
      OnDone (Progress.mkInfo 5000 (JsNumber.Fin (1 # 10)));
      OnError (lit "evaluation failed") ]
  /\ o.(uncaught) = None.
Proof. vm_compute. split; reflexivity. Qed.

End TrainerFacts.

(** ** The manager and the worker together *)

Module PipelineFacts.
Import JsString.

Lemma receive_interim st m :
  WorkerHost.isInterim m = true -> Lstm.step st (Lstm.Receive m) = st.
Proof.
  intros I. unfold Lstm.step, Lstm.deliver.
  destruct (Lstm.worker st) as [w |]; [| reflexivity].
  destruct m; try discriminate I; reflexivity.
Qed.

Lemma receive_all_interim st body :
  forallb WorkerHost.isInterim body = true ->
  fold_left Lstm.step (List.map Lstm.Receive body) st = st.
Proof.
  induction body as [| m body IH]; [reflexivity |]. cbn [forallb List.map fold_left].
  intros H. apply andb_true_iff in H. destruct H as [Hm Hb].
  now rewrite (receive_interim st m Hm), IH.
Qed.

(** The state of the manager once the replies to a [train] request have
    been delivered to a new worker. *)
Lemma after_training lib st data :
  let msgs := snd (WorkerHost.onTrain lib WorkerHost.initial data) in
  fold_left Lstm.step (List.map Lstm.Receive msgs) (Lstm.trainLstm st data)
  = {| Lstm.worker := Some {| Lstm.posted := [Lstm.Train data];
                              Lstm.listeners := [] |};
       Lstm.trained :=
         Lstm.trained st
         || match last msgs with
            | Some (Lstm.Done _) => true
            | _ => false
            end;
       Lstm.promises := Lstm.promises st |}.
Proof.
  intros msgs.
  destruct (WorkerHostFacts.onTrain_shape lib WorkerHost.initial data)
    as (_ & body & l & E & I & T & _).
  fold msgs in E. rewrite E. set (s0 := Lstm.Samples _).
  change (s0 :: body ++ [l]) with ((s0 :: body) ++ [l]).
  rewrite last_snoc, List.map_app, fold_left_app.
  rewrite (receive_all_interim _ (s0 :: body))
    by (cbn [forallb]; now rewrite I).
  destruct l; try discriminate T; cbn; now rewrite ?orb_true_r, ?orb_false_r.
Qed.

(** After [trainLstm], once the worker's replies have been delivered,
    [lstmState.trained] is true exactly if it was true before or the worker
    has finished with [done], that is if neither training nor evaluation
    has thrown.  While it is false, [predictFromText] rejects at once and
    posts nothing. *)
Theorem trained_after_training (lib : WorkerHost.Library) (st : Lstm.State)
    (data : list Data.PatientRecord) (text : jsstring) :
  let ds := fst (LstmWorker.buildDataset lib.(WorkerHost.lowerOther)
                   lib.(WorkerHost.rnd) 0 data) in
  let tr := lib.(WorkerHost.training)
              (List.map (fun s => (s.(LstmWorker.input), s.(LstmWorker.output)))
                 ds.(LstmWorker.train)) in
  let msgs := snd (WorkerHost.onTrain lib WorkerHost.initial data) in
  let st1 := fold_left Lstm.step (List.map Lstm.Receive msgs)
               (Lstm.trainLstm st data) in
  (Lstm.trained st1 = true
   <-> Lstm.trained st = true
       \/ (tr.(WorkerHost.threw) = None
           /\ WorkerHost.firstThrow tr.(WorkerHost.after) ds.(LstmWorker.validation)
              = None
           /\ WorkerHost.firstThrow tr.(WorkerHost.after) ds.(LstmWorker.test)
              = None))
  /\ (Lstm.trained st1 = false ->
      Lstm.predictFromText st1 text
      = (st1, Lstm.RejectedNow (lit "LSTM not trained yet"))).
Proof.
  intros ds tr msgs st1.
  pose proof (after_training lib st data) as A. cbv zeta in A.
  fold msgs in A. fold st1 in A.
  destruct (WorkerHostFacts.onTrain_shape lib WorkerHost.initial data)
    as (_ & body & l & E & _ & T & D & _).
  fold msgs in E. change (WorkerHost.draws WorkerHost.initial) with 0%nat in E, D.
  fold ds in E, D. fold tr in D.
  assert (L : last msgs = Some l).
  { rewrite E.
    change (Lstm.Samples ?x :: body ++ [l]) with ((Lstm.Samples x :: body) ++ [l]).
    apply last_snoc. }
  rewrite L in A. split.
  - rewrite A. cbn [Lstm.trained]. rewrite orb_true_iff, <- D.
    split; (intros [H | H]; [now left | right]).
    + destruct l; try discriminate H. now eexists.
    + destruct H as (m & ->). reflexivity.
  - intros F. unfold Lstm.predictFromText. rewrite F.
    now destruct (Lstm.worker st1).
Qed.

(** Once training has left [lstmState.trained] true, [predictFromText]
    posts the text to the worker and returns a pending promise; the worker
    answers with exactly one message, and its delivery settles exactly that
    promise.  A prediction resolves it with the label ["noshow"] or
    ["showup"] and the cleaned text, without calling any training callback;
    an error rejects it and also calls the [onError] given to [trainLstm]. *)
Theorem predict_round_trip (lib : WorkerHost.Library) (st : Lstm.State)
    (data : list Data.PatientRecord) (text : jsstring) :
  let ws := fst (WorkerHost.onTrain lib WorkerHost.initial data) in
  let msgs := snd (WorkerHost.onTrain lib WorkerHost.initial data) in
  let st1 := fold_left Lstm.step (List.map Lstm.Receive msgs)
               (Lstm.trainLstm st data) in
  Lstm.trained st1 = true ->
  exists p st2 reply,
    Lstm.predictFromText st1 text = (st2, Lstm.Pending p)
    /\ (exists w, Lstm.worker st2 = Some w
                  /\ Lstm.posted w = [Lstm.Train data; Lstm.Predict text])
    /\ snd (WorkerHost.onPredict lib ws text) = [reply]
    /\ match reply with
       | Lstm.Prediction label cleaned =>
           Lstm.deliver st2 reply
           = ({| Lstm.worker :=
                   Some {| Lstm.posted := [Lstm.Train data; Lstm.Predict text];
                           Lstm.listeners := [] |};
                 Lstm.trained := true;
                 Lstm.promises := S p |},
              [], [(p, Lstm.Resolved label cleaned)])
           /\ cleaned = Text.cleanText lib.(WorkerHost.lowerOther) text
           /\ Text.Cleaned cleaned
           /\ (label = lit "noshow" \/ label = lit "showup")
       | Lstm.Error m =>
           snd (fst (Lstm.deliver st2 reply)) = [Lstm.OnError m]
           /\ snd (Lstm.deliver st2 reply) = [(p, Lstm.Rejected m)]
       | _ => False
       end.
Proof.
  intros ws msgs st1 Tr.
  pose proof (after_training lib st data) as A. cbv zeta in A.
  fold msgs in A. fold st1 in A. rewrite A in Tr. cbn [Lstm.trained] in Tr.
  rewrite A. unfold Lstm.predictFromText. cbn [Lstm.worker Lstm.trained].
  rewrite Tr. cbn [Lstm.posted Lstm.listeners Lstm.promises app].
  destruct (WorkerHostFacts.onTrain_shape lib WorkerHost.initial data)
    as (N & _).
  fold ws in N.
  destruct (WorkerHostFacts.onPredict_shape lib ws text)
    as (reply & R & _ & S).
  specialize (S _ N).
  eexists _, _, reply. split; [reflexivity |].
  split; [eexists; split; reflexivity |].
  split; [exact R |].
  destruct (WorkerHost.run _ _).
  - destruct S as (label & -> & Lb).
    split; [reflexivity |]. split; [reflexivity |].
    split; [apply TextFacts.cleanText_Cleaned | exact Lb].
  - subst reply. split; reflexivity.
Qed.

Lemma predict_round_trip_witness :
  exists p st2 reply,
    Lstm.predictFromText
      (fold_left Lstm.step
         (List.map Lstm.Receive
            (snd (WorkerHost.onTrain WorkerHost.silentLibrary WorkerHost.initial
                    Functions.demoData)))
         (Lstm.trainLstm Lstm.initial Functions.demoData))
      (lit "Male, age 30!")
    = (st2, Lstm.Pending p)
    /\ snd (WorkerHost.onPredict WorkerHost.silentLibrary
              (fst (WorkerHost.onTrain WorkerHost.silentLibrary WorkerHost.initial
                      Functions.demoData))
              (lit "Male, age 30!"))
       = [reply].
Proof.
  destruct (predict_round_trip WorkerHost.silentLibrary Lstm.initial
              Functions.demoData (lit "Male, age 30!"))
    as (p & st2 & reply & P & _ & R & _).
  - vm_compute. reflexivity.
  - exists p, st2, reply. split; [exact P | exact R].
Defined.

End PipelineFacts.
